(** * The session coordinator of the speech-to-text system

    A shallow embedding of [SCRIPT/orchestrator.py] (class [STTOrchestrator])
    and of the part of [SCRIPT/realtime_module.py] it drives (class
    [LongFormTranscriber]), with the properties of the coordinator proved
    about it.

    - Python objects live in a store addressed by references; the attributes
      of [STTOrchestrator] are fields of the state record, and
      [self.transcribers] is an association list in insertion order, the
      order in which [stop] walks it.
    - Everything outside the two files (file system, import machinery, the
      longform and static modules, the recorder, the process table, threads,
      sockets) is an environment [Env]: an oracle consulted at the value of a
      clock that advances with every consultation, so that the same call may
      fail once and succeed later.  Every such call, every log line and every
      console line is appended to a trace.
    - Code runs in a state monad with two abnormal outcomes: a raised
      exception, of a class derived from [Exception], and the end of the
      process ([os._exit]).
    - The listener hands over the text of a connection already received,
      decoded and stripped.  A command handler runs as one step (the listener
      processes one command at a time); a worker thread advances by blocks
      that end where the Python code blocks or loops; writing to the console
      or to the log does not fail. *)

From stdpp Require Import base strings pretty gmap list.
From Stdlib Require Import ZArith Ascii.

Open Scope string_scope.

(** ** Exceptions, calls into the environment, events *)

(** The classes that derive from [BaseException] without deriving from
    [Exception]; [except Exception] lets them through. *)
Definition base_only (cls : string) : bool :=
  String.eqb cls "SystemExit" || String.eqb cls "KeyboardInterrupt" ||
  String.eqb cls "GeneratorExit".

(** An exception of a class derived from [Exception]: what the handlers of
    the two files, all of the form [except Exception], catch.  An error of
    the three other classes is not a value of this type: a keyboard
    interrupt of the main thread is the label [Interrupt] of the transition
    system, and the calls into the environment are taken not to raise
    [SystemExit] or [GeneratorExit]. *)
Record exn := Exception {
  exn_class : string;
  exn_msg : string;
  exn_derived : base_only exn_class = false
}.

Definition pid := Z.

(** A call whose code is outside the two modelled files. *)
Inductive ext_call :=
| ExecModule (module_name filepath : string)
| Construct (module_name cls : string) (kwargs : list (string * string))
| Method (obj : nat) (meth : string)
| NewRecorder
| RecorderMethod (rec : nat) (meth : string)
| Kill (p : pid)
| Popen (path : string)
| Join (thread : nat)
| SocketCreate
| SocketSetup
| SocketClose (which : string)
| ThreadStart (target : string)
| Sleep (ms : Z)
| OsExit (code : Z).

Inductive observation :=
| PathExists (path : string)
| SpecFound (module_name filepath : string)
| HasAttr (obj : nat) (attr : string)
| AttrTruthy (obj : nat) (attr : string)
| MethodResult (obj : nat) (meth : string)
| ThreadAlive (thread : nat).

Inductive event :=
| LogInfo (msg : string)
| LogError (msg : string)
| Print (msg : string)
| Call (c : ext_call).

Record proc_info := { proc_pid : pid; proc_name : string; proc_cmdline : option (list string) }.

Record Env := {
  has_rich : bool;
  os_path_join : string → string → string;
  raises : nat → ext_call → option exn;
  observe : nat → observation → bool;
  recorder_text : nat → option string;
  process_iter : nat → list proc_info
}.

(** ** Objects *)

Module LongFormTranscriber.
(** The attributes of [realtime_module.LongFormTranscriber] that change
    after construction. [recorder] refers to an [AudioToTextRecorder]. *)
Record t := {
  text_buffer : string;
  running : bool;
  recorder : option nat;
  model_initialized : bool
}.
(** [__init__] *)
Definition init : t :=
  {| text_buffer := ""; running := false; recorder := None; model_initialized := false |}.
Definition set_text_buffer v (o : t) : t :=
  {| text_buffer := v; running := running o; recorder := recorder o;
     model_initialized := model_initialized o |}.
Definition set_running v (o : t) : t :=
  {| text_buffer := text_buffer o; running := v; recorder := recorder o;
     model_initialized := model_initialized o |}.
Definition set_recorder v (o : t) : t :=
  {| text_buffer := text_buffer o; running := running o; recorder := v;
     model_initialized := model_initialized o |}.
Definition set_model_initialized v (o : t) : t :=
  {| text_buffer := text_buffer o; running := running o; recorder := recorder o;
     model_initialized := v |}.
End LongFormTranscriber.

Inductive object :=
| RealtimeTranscriber (o : LongFormTranscriber.t)
| Foreign (module_name cls : string).

Record module := { mod_name : string; mod_file : string }.

(** A thread started by a handler, and where it currently blocks. *)
Inductive worker :=
| Ready (target : string)
| InRealtimeLoop (obj : nat)
| InStaticPoll (obj : nat)
| Finished.

(** A Python [dict] whose iteration order is observed: insertion order. *)
Definition dict (V : Type) := list (string * V).

Fixpoint dict_get {V} (d : dict V) (k : string) : option V :=
  match d with
  | [] => None
  | (k', v) :: d' => if decide (k' = k) then Some v else dict_get d' k
  end.

Fixpoint dict_set {V} (k : string) (v : V) (d : dict V) : dict V :=
  match d with
  | [] => [(k, v)]
  | (k', v') :: d' => if decide (k' = k) then (k, v) :: d' else (k', v') :: dict_set k v d'
  end.

(** ** State *)

Record State := {
  (* attributes of STTOrchestrator *)
  script_dir : string;
  running : bool;
  server_thread : option nat;
  current_mode : option string;
  ahk_pid : option pid;
  modules : gmap string module;
  transcribers : dict nat;
  (* the rest of the process *)
  objects : gmap nat object;
  next_ref : nat;
  threads : list worker;
  current_thread : nat;
  exit_code : option Z;
  clock : nat;
  trace : list event
}.

Definition set_running v s :=
  {| script_dir := script_dir s; running := v; server_thread := server_thread s;
     current_mode := current_mode s; ahk_pid := ahk_pid s; modules := modules s;
     transcribers := transcribers s; objects := objects s; next_ref := next_ref s;
     threads := threads s; current_thread := current_thread s;
     exit_code := exit_code s; clock := clock s; trace := trace s |}.
Definition set_server_thread v s :=
  {| script_dir := script_dir s; running := running s; server_thread := v;
     current_mode := current_mode s; ahk_pid := ahk_pid s; modules := modules s;
     transcribers := transcribers s; objects := objects s; next_ref := next_ref s;
     threads := threads s; current_thread := current_thread s;
     exit_code := exit_code s; clock := clock s; trace := trace s |}.
Definition set_current_mode v s :=
  {| script_dir := script_dir s; running := running s;
     server_thread := server_thread s; current_mode := v; ahk_pid := ahk_pid s;
     modules := modules s; transcribers := transcribers s; objects := objects s;
     next_ref := next_ref s; threads := threads s; current_thread := current_thread s;
     exit_code := exit_code s; clock := clock s; trace := trace s |}.
Definition set_ahk_pid v s :=
  {| script_dir := script_dir s; running := running s;
     server_thread := server_thread s; current_mode := current_mode s; ahk_pid := v;
     modules := modules s; transcribers := transcribers s; objects := objects s;
     next_ref := next_ref s; threads := threads s; current_thread := current_thread s;
     exit_code := exit_code s; clock := clock s; trace := trace s |}.
Definition set_modules v s :=
  {| script_dir := script_dir s; running := running s;
     server_thread := server_thread s; current_mode := current_mode s;
     ahk_pid := ahk_pid s; modules := v; transcribers := transcribers s;
     objects := objects s; next_ref := next_ref s; threads := threads s;
     current_thread := current_thread s; exit_code := exit_code s; clock := clock s;
     trace := trace s |}.
Definition set_transcribers v s :=
  {| script_dir := script_dir s; running := running s;
     server_thread := server_thread s; current_mode := current_mode s;
     ahk_pid := ahk_pid s; modules := modules s; transcribers := v;
     objects := objects s; next_ref := next_ref s; threads := threads s;
     current_thread := current_thread s; exit_code := exit_code s; clock := clock s;
     trace := trace s |}.
Definition set_objects v s :=
  {| script_dir := script_dir s; running := running s;
     server_thread := server_thread s; current_mode := current_mode s;
     ahk_pid := ahk_pid s; modules := modules s; transcribers := transcribers s;
     objects := v; next_ref := next_ref s; threads := threads s;
     current_thread := current_thread s; exit_code := exit_code s; clock := clock s;
     trace := trace s |}.
Definition set_next_ref v s :=
  {| script_dir := script_dir s; running := running s;
     server_thread := server_thread s; current_mode := current_mode s;
     ahk_pid := ahk_pid s; modules := modules s; transcribers := transcribers s;
     objects := objects s; next_ref := v; threads := threads s;
     current_thread := current_thread s; exit_code := exit_code s; clock := clock s;
     trace := trace s |}.
Definition set_threads v s :=
  {| script_dir := script_dir s; running := running s;
     server_thread := server_thread s; current_mode := current_mode s;
     ahk_pid := ahk_pid s; modules := modules s; transcribers := transcribers s;
     objects := objects s; next_ref := next_ref s; threads := v;
     current_thread := current_thread s; exit_code := exit_code s; clock := clock s;
     trace := trace s |}.
Definition set_current_thread v s :=
  {| script_dir := script_dir s; running := running s;
     server_thread := server_thread s; current_mode := current_mode s;
     ahk_pid := ahk_pid s; modules := modules s; transcribers := transcribers s;
     objects := objects s; next_ref := next_ref s; threads := threads s;
     current_thread := v; exit_code := exit_code s; clock := clock s;
     trace := trace s |}.
Definition set_exit_code v s :=
  {| script_dir := script_dir s; running := running s;
     server_thread := server_thread s; current_mode := current_mode s;
     ahk_pid := ahk_pid s; modules := modules s; transcribers := transcribers s;
     objects := objects s; next_ref := next_ref s; threads := threads s;
     current_thread := current_thread s; exit_code := v; clock := clock s;
     trace := trace s |}.
Definition set_clock v s :=
  {| script_dir := script_dir s; running := running s;
     server_thread := server_thread s; current_mode := current_mode s;
     ahk_pid := ahk_pid s; modules := modules s; transcribers := transcribers s;
     objects := objects s; next_ref := next_ref s; threads := threads s;
     current_thread := current_thread s; exit_code := exit_code s; clock := v;
     trace := trace s |}.
Definition set_trace v s :=
  {| script_dir := script_dir s; running := running s;
     server_thread := server_thread s; current_mode := current_mode s;
     ahk_pid := ahk_pid s; modules := modules s; transcribers := transcribers s;
     objects := objects s; next_ref := next_ref s; threads := threads s;
     current_thread := current_thread s; exit_code := exit_code s; clock := clock s;
     trace := v |}.

(** ** The monad *)

Inductive outcome (A : Type) :=
| Normal (a : A)
| Raised (e : exn)
| Exited (code : Z).
Arguments Normal {A} a.
Arguments Raised {A} e.
Arguments Exited {A} code.

Definition M (A : Type) : Type := State → outcome A * State.

Definition ret {A} (a : A) : M A := λ s, (Normal a, s).

Definition bind {A B} (m : M A) (k : A → M B) : M B :=
  λ s, match m s with
       | (Normal a, s') => k a s'
       | (Raised e, s') => (Raised e, s')
       | (Exited c, s') => (Exited c, s')
       end.

Notation "x <- m ;; k" := (bind m (λ x, k))
  (at level 100, m at next level, right associativity, only parsing).
Notation "m ;; k" := (bind m (λ _, k))
  (at level 100, right associativity, only parsing).

Definition raise {A} (e : exn) : M A := λ s, (Raised e, s).

(** [try: body except Exception as e: handler e]. Every [exn] is of a class
    derived from [Exception] and is caught. Process exit is not an
    exception and passes through. *)
Definition try_except {A} (body : M A) (handler : exn → M A) : M A :=
  λ s, match body s with
       | (Raised e, s') => handler e s'
       | r => r
       end.

(** [try: body except (A, B, ...): handler] *)
Definition try_except_of {A} (classes : list string) (body : M A) (handler : exn → M A) : M A :=
  λ s, match body s with
       | (Raised e, s') =>
           if bool_decide (exn_class e ∈ classes) then handler e s' else (Raised e, s')
       | r => r
       end.

(** [try: body finally: final] *)
Definition try_finally {A} (body : M A) (final : M unit) : M A :=
  λ s, match body s with
       | (Normal a, s') =>
           match final s' with
           | (Normal _, s'') => (Normal a, s'')
           | (Raised e, s'') => (Raised e, s'')
           | (Exited c, s'') => (Exited c, s'')
           end
       | (Raised e, s') =>
           match final s' with
           | (Normal _, s'') => (Raised e, s'')
           | (Raised e', s'') => (Raised e', s'')
           | (Exited c, s'') => (Exited c, s'')
           end
       | (Exited c, s') => (Exited c, s')
       end.

(** [final] runs only when [body] raises, after which the exception
    continues: a [finally] clause seen from a block that stays inside the
    [try] when it ends normally. *)
Definition try_finally_raised {A} (body : M A) (final : M unit) : M A :=
  λ s, match body s with
       | (Raised e, s') =>
           match final s' with
           | (Normal _, s'') => (Raised e, s'')
           | (Raised e', s'') => (Raised e', s'')
           | (Exited c, s'') => (Exited c, s'')
           end
       | r => r
       end.

Definition get {X} (f : State → X) : M X := λ s, (Normal (f s), s).
Definition modify (f : State → State) : M unit := λ s, (Normal tt, f s).

Definition emit (ev : event) : M unit :=
  modify (λ s, set_trace (trace s ++ [ev]) s).

Definition log_info (message : string) : M unit := emit (LogInfo message).
Definition log_error (message : string) : M unit := emit (LogError message).

(** [safe_print]: the console line is the same with and without rich; writing
    to the console is taken to succeed. *)
Definition safe_print (message : string) : M unit := emit (Print message).

(** An effect on the environment that cannot fail. *)
Definition effect (c : ext_call) : M unit := emit (Call c).

Definition tick : M nat :=
  λ s, (Normal (clock s), set_clock (S (clock s)) s).

Definition fresh : M nat :=
  λ s, (Normal (next_ref s), set_next_ref (S (next_ref s)) s).

(** ** Strings *)

Definition newline : string := String (ascii_of_nat 10) "".

Definition upper_ascii (c : ascii) : ascii :=
  let n := nat_of_ascii c in
  if Nat.leb 97 n && Nat.leb n 122 then ascii_of_nat (n - 32) else c.

Definition lower_ascii (c : ascii) : ascii :=
  let n := nat_of_ascii c in
  if Nat.leb 65 n && Nat.leb n 90 then ascii_of_nat (n + 32) else c.

Fixpoint lower (s : string) : string :=
  match s with
  | EmptyString => EmptyString
  | String c s' => String (lower_ascii c) (lower s')
  end.

(** [str.capitalize], on ASCII letters. *)
Definition capitalize (s : string) : string :=
  match s with
  | EmptyString => EmptyString
  | String c s' => String (upper_ascii c) (lower s')
  end.

(** [s.endswith(" ")] *)
Fixpoint endswith_space (s : string) : bool :=
  match s with
  | EmptyString => false
  | String c EmptyString => bool_decide (c = " "%char)
  | String _ s' => endswith_space s'
  end.

(** [needle in hay] *)
Fixpoint contains (needle hay : string) : bool :=
  String.prefix needle hay ||
  match hay with
  | EmptyString => false
  | String _ hay' => contains needle hay'
  end.

(** Truth value of an attribute that holds [None] or a string. *)
Definition truthy (v : option string) : bool :=
  match v with
  | None | Some EmptyString => false
  | Some _ => true
  end.

(** How [None] or a string is rendered inside an f-string. *)
Definition fmt (v : option string) : string := default "None" v.

(** The values [current_mode] is meant to take. *)
Definition is_mode (v : option string) : Prop :=
  v = None ∨ v = Some "realtime" ∨ v = Some "longform" ∨ v = Some "static".

Definition SERVER_HOST : string := "127.0.0.1".
Definition SERVER_PORT : Z := 35000.

Definition MODULE_PATHS : gmap string string :=
  {[ "realtime" := "realtime_module.py";
     "longform" := "longform_module.py";
     "static" := "static_module.py" ]}.

Section Program.

Context (E : Env).

(** A call that may raise; returns the clock value at which the environment
    was consulted. *)
Definition external (c : ext_call) : M nat :=
  emit (Call c);;
  t <- tick;;
  match raises E t c with
  | Some e => raise e
  | None => ret t
  end.

Definition ask (o : observation) : M bool :=
  t <- tick;;
  ret (observe E t o).

(** ** realtime_module.LongFormTranscriber *)

(** [console.print(rich)] when rich is available, [print(plain)] otherwise. *)
Definition module_print (rich plain : string) : M unit :=
  emit (Print (if has_rich E then rich else plain)).

Definition get_attr {X} (self : nat) (f : LongFormTranscriber.t → X) : M X :=
  λ s, match objects s !! self with
       | Some (RealtimeTranscriber o) => (Normal (f o), s)
       | _ => (Raised (Exception "AttributeError" "no such attribute" eq_refl), s)
       end.

(** Assignment to an attribute; on an object whose attributes are not
    modelled the assignment is not recorded. *)
Definition on_transcriber (f : LongFormTranscriber.t → LongFormTranscriber.t) (ob : object) : object :=
  match ob with
  | RealtimeTranscriber o => RealtimeTranscriber (f o)
  | _ => ob
  end.

Definition set_attr (self : nat) (f : LongFormTranscriber.t → LongFormTranscriber.t) : M unit :=
  modify (λ s, set_objects (alter (on_transcriber f) self (objects s)) s).

Definition _initialize_recorder (self : nat) : M bool :=
  rec <- get_attr self LongFormTranscriber.recorder;;
  match rec with
  | Some _ => ret true
  | None =>
      try_except
        (external NewRecorder;;
         n <- fresh;;
         set_attr self (LongFormTranscriber.set_recorder (Some n));;
         set_attr self (LongFormTranscriber.set_model_initialized true);;
         module_print "[bold green]Real-time transcription system initialized.[/bold green]"
                      "Real-time transcription system initialized.";;
         ret true)
        (λ e,
         module_print ("[bold red]Error initializing recorder: " +:+ exn_msg e +:+ "[/bold red]")
                      ("Error initializing recorder: " +:+ exn_msg e);;
         ret false)
  end.

Definition process_speech (self : nat) (text : option string) : M unit :=
  match text with
  | None => ret tt
  | Some text =>
      buf <- get_attr self LongFormTranscriber.text_buffer;;
      (if truthy (Some buf) && negb (endswith_space buf)
       then set_attr self (LongFormTranscriber.set_text_buffer (buf +:+ " "))
       else ret tt);;
      buf <- get_attr self LongFormTranscriber.text_buffer;;
      set_attr self (LongFormTranscriber.set_text_buffer (buf +:+ text));;
      module_print text (newline +:+ "Transcription: " +:+ text)
  end.

Definition LongFormTranscriber_stop (self : nat) : M unit :=
  set_attr self (LongFormTranscriber.set_running false);;
  rec <- get_attr self LongFormTranscriber.recorder;;
  (match rec with
   | Some n =>
       try_except
         (external (RecorderMethod n "abort");;
          external (RecorderMethod n "shutdown");;
          ret tt)
         (λ e,
          module_print ("[bold red]Error during shutdown: " +:+ exn_msg e +:+ "[/bold red]")
                       ("Error during shutdown: " +:+ exn_msg e));;
       set_attr self (LongFormTranscriber.set_recorder None);;
       set_attr self (LongFormTranscriber.set_model_initialized false)
   | None => ret tt
   end);;
  module_print "[bold]Speech recognition stopped.[/bold]" "Speech recognition stopped.".

(** [start], up to the entry of its loop; [true] when the loop is entered. *)
Definition LongFormTranscriber_start_enter (self : nat) : M bool :=
  ok <- _initialize_recorder self;;
  if negb ok then
    module_print "[bold red]Failed to initialize the recorder. Cannot start transcription.[/bold red]"
                 "Failed to initialize the recorder. Cannot start transcription.";;
    ret false
  else
    set_attr self (LongFormTranscriber.set_running true);;
    module_print "[bold green]Speech recognition ready![/bold green]" "Speech recognition ready!";;
    module_print "Begin speaking. Your words will be transcribed continuously."
                 "Begin speaking. Your words will be transcribed continuously.";;
    ret true.

(** One pass through the body of [while self.running] in [start]. *)
Definition LongFormTranscriber_start_body (self : nat) : M unit :=
  try_except
    (rec <- get_attr self LongFormTranscriber.recorder;;
     match rec with
     | None => raise (Exception "AttributeError" "'NoneType' object has no attribute 'text'" eq_refl)
     | Some n =>
         t <- external (RecorderMethod n "text");;
         let text_result := recorder_text E t in
         if truthy text_result then process_speech self text_result else ret tt
     end)
    (λ e,
     module_print ("[bold red]Error during transcription: " +:+ exn_msg e +:+ "[/bold red]")
                  ("Error during transcription: " +:+ exn_msg e);;
     effect (Sleep 100)).

(** ** STTOrchestrator *)

Definition import_module_lazily (module_name : string) : M (option module) :=
  cached <- get (λ s, modules s !! module_name);;
  match cached with
  | Some m => ret (Some m)
  | None =>
      dir <- get script_dir;;
      let filepath := os_path_join E dir (default "" (MODULE_PATHS !! module_name)) in
      try_except
        (found <- ask (PathExists filepath);;
         if negb found then
           log_error ("Module file not found: " +:+ filepath);;
           ret None
         else
           spec <- ask (SpecFound module_name filepath);;
           if negb spec then
             log_error ("Could not find module: " +:+ module_name +:+ " at " +:+ filepath);;
             ret None
           else
             external (ExecModule module_name filepath);;
             let m := {| mod_name := module_name; mod_file := filepath |} in
             modify (λ s, set_modules (<[module_name := m]> (modules s)) s);;
             log_info ("Successfully imported module: " +:+ module_name);;
             ret (Some m))
        (λ e,
         log_error ("Error importing " +:+ module_name +:+ " from " +:+ filepath +:+ ": " +:+ exn_msg e);;
         ret None)
  end.

Definition new_object (module_name cls : string) : object :=
  if decide (module_name = "realtime" ∧ cls = "LongFormTranscriber")
  then RealtimeTranscriber LongFormTranscriber.init
  else Foreign module_name cls.

(** A new object enters the store under a reference not used before. *)
Definition alloc (ob : object) : M nat :=
  λ s, (Normal (next_ref s),
        set_objects (<[next_ref s := ob]> (objects s)) (set_next_ref (S (next_ref s)) s)).

(** A call of class [cls] of the module imported as [module_name], with
    keyword arguments: the class of the realtime module is the one modelled
    above; the others are foreign. *)
Definition construct (module_name cls : string) (kwargs : list (string * string)) : M nat :=
  external (Construct module_name cls kwargs);;
  alloc (new_object module_name cls).

Definition store_transcriber (module_type : string) (t : nat) : M unit :=
  modify (λ s, set_transcribers (dict_set module_type t (transcribers s)) s).

Definition initialize_transcriber (module_type : string) : M (option nat) :=
  cached <- get (λ s, dict_get (transcribers s) module_type);;
  match cached with
  | Some t => ret (Some t)
  | None =>
      module <- import_module_lazily module_type;;
      match module with
      | None =>
          log_error ("Failed to import " +:+ module_type +:+ " module");;
          ret None
      | Some _ =>
          try_except
            ((if decide (module_type = "realtime") then
                safe_print "Initializing real-time transcriber...";;
                t <- construct module_type "LongFormTranscriber" [];;
                store_transcriber module_type t
              else if decide (module_type = "longform") then
                safe_print "Initializing long-form transcriber...";;
                t <- construct module_type "LongFormTranscriber"
                       [("start_hotkey", ""); ("stop_hotkey", ""); ("quit_hotkey", "");
                        ("preload_model", "True")];;
                store_transcriber module_type t
              else if decide (module_type = "static") then
                safe_print "Initializing static file transcriber...";;
                t <- construct module_type "DirectFileTranscriber"
                       [("file_select_hotkey", ""); ("quit_hotkey", "");
                        ("use_tk_mainloop", "False")];;
                store_transcriber module_type t
              else ret tt);;
             log_info (capitalize module_type +:+ " transcriber initialized successfully");;
             t <- get (λ s, dict_get (transcribers s) module_type);;
             match t with
             | Some t => ret (Some t)
             | None => raise (Exception "KeyError" ("'" +:+ module_type +:+ "'") eq_refl)
             end)
            (λ e,
             log_error ("Error initializing " +:+ module_type +:+ " transcriber: " +:+ exn_msg e);;
             ret None)
      end
  end.

(** *** Method dispatch on a transcriber reference *)

Definition no_attribute {A} (attr : string) : M A :=
  raise (Exception "AttributeError"
           ("'LongFormTranscriber' object has no attribute '" +:+ attr +:+ "'") eq_refl).

(** A method that returns without blocking. *)
Definition call_method (t : nat) (meth : string) : M unit :=
  ob <- get (λ s, objects s !! t);;
  match ob with
  | Some (RealtimeTranscriber _) =>
      if decide (meth = "stop") then LongFormTranscriber_stop t else no_attribute meth
  | _ => external (Method t meth);; ret tt
  end.

(** A method whose result is a boolean. *)
Definition call_method_bool (t : nat) (meth : string) : M bool :=
  ob <- get (λ s, objects s !! t);;
  match ob with
  | Some (RealtimeTranscriber _) => no_attribute meth
  | _ => c <- external (Method t meth);; ret (observe E c (MethodResult t meth))
  end.

(** [transcriber.start()], up to where it blocks; [true] when it blocks in
    the loop of the modelled class. *)
Definition call_start (t : nat) : M bool :=
  ob <- get (λ s, objects s !! t);;
  match ob with
  | Some (RealtimeTranscriber _) => LongFormTranscriber_start_enter t
  | _ => external (Method t "start");; ret false
  end.

Definition LongFormTranscriber_attrs : list string :=
  ["text_buffer"; "running"; "config"; "recorder"; "model_initialized";
   "process_speech"; "start"; "stop"; "get_transcribed_text"].

Definition hasattr (t : nat) (attr : string) : M bool :=
  ob <- get (λ s, objects s !! t);;
  match ob with
  | Some (RealtimeTranscriber _) => ret (bool_decide (attr ∈ LongFormTranscriber_attrs))
  | _ => ask (HasAttr t attr)
  end.

(** The truth value of [transcriber.attr]. *)
Definition attr_truthy (t : nat) (attr : string) : M bool :=
  ob <- get (λ s, objects s !! t);;
  match ob with
  | Some (RealtimeTranscriber o) =>
      if decide (attr = "recorder") then ret (bool_decide (LongFormTranscriber.recorder o ≠ None))
      else if decide (attr = "running") then ret (LongFormTranscriber.running o)
      else no_attribute attr
  | _ => ask (AttrTruthy t attr)
  end.

Definition set_mode (v : option string) : M unit := modify (set_current_mode v).

(** [threading.Thread(target=..., daemon=True).start()] *)
Definition spawn (target : string) : M unit :=
  external (ThreadStart target);;
  modify (λ s, set_threads (threads s ++ [Ready target]) s).

(** *** Command handlers *)

Definition _toggle_realtime : M unit :=
  mode <- get current_mode;;
  if truthy mode && negb (bool_decide (mode = Some "realtime")) then
    safe_print ("Cannot start real-time mode while in " +:+ fmt mode +:+
                " mode. Please finish the current operation first.")
  else if bool_decide (mode = Some "realtime") then
    safe_print "Stopping real-time transcription...";;
    try_except
      (transcriber <- get (λ s, dict_get (transcribers s) "realtime");;
       (match transcriber with
        | Some t =>
            set_attr t (LongFormTranscriber.set_running false);;
            call_method t "stop"
        | None => ret tt
        end);;
       set_mode None;;
       safe_print "Real-time transcription stopped.")
      (λ e, log_error ("Error stopping real-time transcription: " +:+ exn_msg e))
  else
    try_except
      (transcriber <- initialize_transcriber "realtime";;
       match transcriber with
       | None => safe_print "Failed to initialize real-time transcriber."
       | Some _ =>
           safe_print "Starting real-time transcription...";;
           set_mode (Some "realtime");;
           spawn "_run_realtime"
       end)
      (λ e,
       log_error ("Error starting real-time transcription: " +:+ exn_msg e);;
       set_mode None).

Definition _start_longform : M unit :=
  mode <- get current_mode;;
  if truthy mode then
    safe_print ("Cannot start long-form mode while in " +:+ fmt mode +:+
                " mode. Please finish the current operation first.")
  else
    try_except
      (transcriber <- initialize_transcriber "longform";;
       match transcriber with
       | None => safe_print "Failed to initialize long-form transcriber."
       | Some t =>
           safe_print "Starting long-form recording...";;
           set_mode (Some "longform");;
           call_method t "start_recording"
       end)
      (λ e,
       log_error ("Error starting long-form recording: " +:+ exn_msg e);;
       set_mode None).

Definition _stop_longform : M unit :=
  mode <- get current_mode;;
  if negb (bool_decide (mode = Some "longform")) then
    safe_print "No active long-form recording to stop."
  else
    try_except
      (transcriber <- get (λ s, dict_get (transcribers s) "longform");;
       match transcriber with
       | None =>
           safe_print "Long-form transcriber not available.";;
           set_mode None
       | Some t =>
           safe_print "Stopping long-form recording and transcribing...";;
           call_method t "stop_recording";;
           set_mode None
       end)
      (λ e,
       log_error ("Error stopping long-form recording: " +:+ exn_msg e);;
       set_mode None).

Definition _run_static : M unit :=
  mode <- get current_mode;;
  if truthy mode then
    safe_print ("Cannot start static mode while in " +:+ fmt mode +:+
                " mode. Please finish the current operation first.")
  else
    try_except
      (transcriber <- initialize_transcriber "static";;
       match transcriber with
       | None => safe_print "Failed to initialize static transcriber."
       | Some _ =>
           safe_print "Opening file selection dialog...";;
           set_mode (Some "static");;
           spawn "_run_static_thread"
       end)
      (λ e,
       log_error ("Error starting static transcription: " +:+ exn_msg e);;
       set_mode None).

(** *** The companion process *)

Definition stop_ahk_script : M unit :=
  p <- get ahk_pid;;
  match p with
  | Some p =>
      log_info ("Killing AHK script with PID=" +:+ pretty p);;
      try_except
        (external (Kill p);; ret tt)
        (λ e, log_error ("Failed to kill AHK process: " +:+ exn_msg e))
  | None => ret tt
  end.

(** [psutil.process_iter]: the process table as the environment shows it now. *)
Definition snapshot : M (list proc_info) :=
  t <- tick;;
  ret (process_iter E t).

Definition is_leftover (proc : proc_info) : bool :=
  bool_decide (proc_name proc = "AutoHotkeyU64.exe") &&
  match proc_cmdline proc with
  | Some cmdline => contains "STT_hotkeys.ahk" (String.concat " " cmdline)
  | None => false
  end.

Fixpoint kill_each (procs : list proc_info) : M unit :=
  match procs with
  | [] => ret tt
  | proc :: rest =>
      try_except_of ["NoSuchProcess"; "AccessDenied"; "ZombieProcess"]
        (if is_leftover proc then
           log_info ("Killing leftover AHK process with PID=" +:+ pretty (proc_pid proc));;
           external (Kill (proc_pid proc));;
           ret tt
         else ret tt)
        (λ _, ret tt);;
      kill_each rest
  end.

Definition _kill_leftover_ahk : M unit :=
  procs <- snapshot;;
  kill_each procs.

(** The PIDs of the processes named [AutoHotkeyU64.exe] in a snapshot. *)
Definition ahk_pids (procs : list proc_info) : gset pid :=
  list_to_set
    (proc_pid <$> filter (λ proc, proc_name proc = "AutoHotkeyU64.exe") procs).

Definition start_ahk_script : M unit :=
  _kill_leftover_ahk;;
  pre <- snapshot;;
  let pre_pids := ahk_pids pre in
  dir <- get script_dir;;
  let ahk_path := os_path_join E dir "STT_hotkeys.ahk" in
  log_info "Launching AHK script...";;
  external (Popen ahk_path);;
  effect (Sleep 1000);;
  post <- snapshot;;
  let post_pids := ahk_pids post in
  let new_pids := post_pids ∖ pre_pids in
  if decide (size new_pids = 1) then
    match elements new_pids with
    | p :: _ =>
        modify (set_ahk_pid (Some p));;
        log_info ("Detected new AHK script PID: " +:+ pretty p)
    | [] => raise (Exception "KeyError" "pop from an empty set" eq_refl)
    end
  else
    log_info "Could not detect a single new AHK script PID. No PID stored.";;
    modify (set_ahk_pid None).

(** *** Shutdown *)

Definition has_key {V} (d : dict V) (k : string) : bool :=
  bool_decide (dict_get d k ≠ None).

(** The [for] loop of [stop] over [self.transcribers.items()]. *)
Fixpoint clean_up_each (items : list (string * nat)) : M unit :=
  match items with
  | [] => ret tt
  | (module_type, transcriber) :: rest =>
      try_except
        (if decide (module_type = "realtime") then call_method transcriber "stop"
         else if decide (module_type = "longform") then
           has <- hasattr transcriber "recorder";;
           if has then
             rec <- attr_truthy transcriber "recorder";;
             if rec then call_method transcriber "clean_up" else ret tt
           else ret tt
         else ret tt)
        (λ e,
         log_error ("Error cleaning up " +:+ module_type +:+ " transcriber: " +:+ exn_msg e));;
      clean_up_each rest
  end.

(** In the third branch of the first [try] the source only evaluates
    [hasattr] on the static transcriber and passes. *)
Definition stop : M unit :=
  try_except
    (r <- get running;;
     if negb r then ret tt
     else
       modify (set_running false);;
       try_except
         (mode <- get current_mode;;
          ts <- get transcribers;;
          if bool_decide (mode = Some "realtime") && has_key ts "realtime" then
            match dict_get ts "realtime" with
            | Some t => call_method t "stop"
            | None => ret tt
            end
          else if bool_decide (mode = Some "longform") && has_key ts "longform" then
            match dict_get ts "longform" with
            | Some t => call_method t "stop_recording"
            | None => ret tt
            end
          else ret tt)
         (λ e, log_error ("Error stopping active mode: " +:+ exn_msg e));;
       stop_ahk_script;;
       current_thread_id <- get current_thread;;
       server <- get server_thread;;
       try_except
         (match server with
          | Some server_thread_id =>
              alive <- ask (ThreadAlive server_thread_id);;
              if alive && negb (bool_decide (current_thread_id = server_thread_id)) then
                external (Join server_thread_id);; ret tt
              else ret tt
          | None => ret tt
          end)
         (λ e, log_error ("Error joining server thread: " +:+ exn_msg e));;
       ts <- get transcribers;;
       clean_up_each ts;;
       log_info "Orchestrator stopped successfully")
    (λ e, log_error ("Error during shutdown: " +:+ exn_msg e)).

(** [os._exit(code)]: the process ends at once. *)
Definition os_exit {A} (code : Z) : M A :=
  λ s, (Exited code, set_exit_code (Some code) (set_trace (trace s ++ [Call (OsExit code)]) s)).

Definition _quit : M unit :=
  safe_print "Quitting application...";;
  stop;;
  os_exit 0.

(** *** The listener *)

Definition _handle_command (command : string) : M unit :=
  try_except
    (if decide (command = "TOGGLE_REALTIME") then _toggle_realtime
     else if decide (command = "START_LONGFORM") then _start_longform
     else if decide (command = "STOP_LONGFORM") then _stop_longform
     else if decide (command = "RUN_STATIC") then _run_static
     else if decide (command = "QUIT") then _quit
     else log_error ("Unknown command: " +:+ command))
    (λ e, log_error ("Error handling command " +:+ command +:+ ": " +:+ exn_msg e)).

(** One pass through the body of [while self.running] in [_run_server]:
    [accept] times out ([None]) or yields a connection whose data, received,
    decoded and stripped, is [data]. *)
Definition _run_server_body (conn : option string) : M unit :=
  try_except
    (match conn with
     | None => ret tt
     | Some data =>
         log_info ("Received command: " +:+ data);;
         _handle_command data;;
         effect (SocketClose "client")
     end)
    (λ e, log_error ("Error handling client connection: " +:+ exn_msg e)).

Fixpoint _run_server_loop (conns : list (option string)) : M unit :=
  match conns with
  | [] => ret tt
  | conn :: rest =>
      r <- get running;;
      if r then _run_server_body conn;; _run_server_loop rest else ret tt
  end.

(** [SocketCreate] is the creation of the socket and [setsockopt], which
    come before the [try]; [SocketSetup] is [bind], [listen] and
    [settimeout], inside it. *)
Definition _run_server (conns : list (option string)) : M unit :=
  external SocketCreate;;
  try_finally
    (try_except
       (external SocketSetup;;
        _run_server_loop conns)
       (λ e, log_error ("Server error: " +:+ exn_msg e)))
    (effect (SocketClose "server");;
     log_info "TCP server stopped").

Definition start_server : M unit :=
  modify (set_running true);;
  t <- fresh;;
  modify (set_server_thread (Some t));;
  external (ThreadStart "_run_server");;
  log_info ("TCP server started on " +:+ SERVER_HOST +:+ ":" +:+ pretty SERVER_PORT).

(** *** Worker threads *)

(** The [except] clause of [_run_realtime]. *)
Definition _run_realtime_except (e : exn) : M worker :=
  log_error ("Error in _run_realtime: " +:+ exn_msg e);;
  set_mode None;;
  try_except
    (t <- get (λ s, dict_get (transcribers s) "realtime");;
     match t with
     | Some t => call_method t "stop"
     | None => ret tt
     end)
    (λ cleanup_e, log_error ("Error during cleanup: " +:+ exn_msg cleanup_e));;
  set_mode None;;
  ret Finished.

(** What follows [transcriber.start()] in [_run_realtime]. *)
Definition _run_realtime_after : M worker :=
  log_info "Real-time transcription stopped";;
  set_mode None;;
  ret Finished.

(** [_run_realtime] until [transcriber.start()] blocks or returns. *)
Definition _run_realtime : M worker :=
  try_except
    (transcriber <- get (λ s, dict_get (transcribers s) "realtime");;
     match transcriber with
     | None =>
         safe_print "Realtime transcriber not available.";;
         set_mode None;;
         ret Finished
     | Some t =>
         set_attr t (LongFormTranscriber.set_text_buffer "");;
         safe_print "Real-time transcription active. Speak now...";;
         looping <- call_start t;;
         if looping then ret (InRealtimeLoop t) else _run_realtime_after
     end)
    _run_realtime_except.

(** The worker inside [start]: the loop condition is read; the body runs
    once more, or the loop ends, [finally] stops the transcriber and
    [_run_realtime] completes. *)
Definition _run_realtime_loop (t : nat) : M worker :=
  try_except
    (continue <- try_finally_raised (get_attr t LongFormTranscriber.running)
                                    (LongFormTranscriber_stop t);;
     if continue then
       try_finally_raised (LongFormTranscriber_start_body t) (LongFormTranscriber_stop t);;
       ret (InRealtimeLoop t)
     else
       LongFormTranscriber_stop t;;
       _run_realtime_after)
    _run_realtime_except.

Definition _run_static_except (e : exn) : M worker :=
  log_error ("Error in static transcription: " +:+ exn_msg e);;
  set_mode None;;
  ret Finished.

(** [_run_static_thread] until its polling loop. *)
Definition _run_static_thread : M worker :=
  try_except
    (transcriber <- get (λ s, dict_get (transcribers s) "static");;
     match transcriber with
     | None =>
         safe_print "Static transcriber not available.";;
         set_mode None;;
         ret Finished
     | Some t =>
         call_method t "select_file";;
         ret (InStaticPoll t)
     end)
    _run_static_except.

(** One evaluation of [while transcriber.transcribing]. *)
Definition _run_static_poll (t : nat) : M worker :=
  try_except
    (transcribing <- attr_truthy t "transcribing";;
     if transcribing then
       effect (Sleep 500);;
       ret (InStaticPoll t)
     else
       log_info "Static file transcription completed";;
       set_mode None;;
       ret Finished)
    _run_static_except.

Definition worker_step (w : worker) : M worker :=
  match w with
  | Ready target =>
      if decide (target = "_run_realtime") then _run_realtime
      else if decide (target = "_run_static_thread") then _run_static_thread
      else ret Finished
  | InRealtimeLoop t => _run_realtime_loop t
  | InStaticPoll t => _run_static_poll t
  | Finished => ret Finished
  end.

(** *** Startup: [run] up to its main loop *)

Definition banner : M unit :=
  if has_rich E then
    safe_print ("[bold]Speech-to-Text Orchestrator[/bold]" +:+ newline +:+ newline +:+
                "Control the system using these hotkeys:" +:+ newline +:+
                "  [cyan]F2[/cyan]: Toggle real-time transcription" +:+ newline +:+
                "  [cyan]F3[/cyan]: Start long-form recording" +:+ newline +:+
                "  [cyan]F4[/cyan]: Stop long-form recording and transcribe" +:+ newline +:+
                "  [cyan]F10[/cyan]: Run static file transcription" +:+ newline +:+
                "  [cyan]F7[/cyan]: Quit application")
  else
    safe_print "==================================================";;
    safe_print "Speech-to-Text Orchestrator Running";;
    safe_print "==================================================";;
    safe_print "Hotkeys:";;
    safe_print "  F2: Toggle real-time transcription";;
    safe_print "  F3: Start long-form recording";;
    safe_print "  F4: Stop long-form recording and transcribe";;
    safe_print "  F10: Run static file transcription";;
    safe_print "  F7: Quit application";;
    safe_print "==================================================".

Definition run_startup : M unit :=
  start_server;;
  start_ahk_script;;
  safe_print "Pre-loading the long-form transcription model...";;
  longform_transcriber <- initialize_transcriber "longform";;
  (match longform_transcriber with
   | Some t =>
       has <- hasattr t "force_initialize";;
       if has then
         ok <- call_method_bool t "force_initialize";;
         if ok then safe_print "Long-form transcription model fully loaded and ready to use."
         else safe_print "Failed to fully initialize the long-form transcription model."
       else
         safe_print "Long-form transcription model loaded but may require additional initialization on first use."
   | None => safe_print "Failed to pre-load the long-form transcription model."
   end);;
  banner.

End Program.

(** ** The process as a transition system *)

Definition init (dir : string) : State :=
  {| script_dir := dir; running := false; server_thread := None; current_mode := None;
     ahk_pid := None; modules := ∅; transcribers := []; objects := ∅; next_ref := 1;
     threads := []; current_thread := 0; exit_code := None; clock := 0; trace := [] |}.

(** What can happen next: the listener's [accept] returns or times out, a
    worker thread advances by one block, or the main thread is interrupted. *)
Inductive label :=
| Connection (conn : option string)
| WorkerStep (i : nat)
| Interrupt.

Section System.

Context (E : Env).

(** [run] from a keyboard interrupt on: the [finally] clause stops the
    orchestrator, the interpreter runs the [atexit] handler ([stop] again) and
    ends. *)
Definition run_interrupted : M unit :=
  safe_print (newline +:+ "Keyboard interrupt received, shutting down...");;
  stop E;;
  stop E;;
  modify (set_exit_code (Some 0%Z)).

Definition step (l : label) (s : State) : State :=
  match exit_code s with
  | Some _ => s
  | None =>
      match l with
      | Connection conn =>
          match server_thread s with
          | Some t =>
              if running s then (_run_server_body E conn (set_current_thread t s)).2 else s
          | None => s
          end
      | WorkerStep i =>
          match threads s !! i with
          | Some w =>
              match worker_step E w s with
              | (Normal w', s') => set_threads (<[i := w']> (threads s')) s'
              | (_, s') => set_threads (<[i := Finished]> (threads s')) s'
              end
          | None => s
          end
      | Interrupt => (run_interrupted (set_current_thread 0 s)).2
      end
  end.

Fixpoint exec (ls : list label) (s : State) : State :=
  match ls with
  | [] => s
  | l :: ls' => exec ls' (step l s)
  end.

(** The states the process goes through once [run] has started it. *)
Definition reachable (s : State) : Prop :=
  ∃ dir s0 ls, run_startup E (init dir) = (Normal tt, s0) ∧ s = exec ls s0.

End System.

(** ** Environments used in examples *)

Definition ahk (p : pid) : proc_info :=
  {| proc_pid := p; proc_name := "AutoHotkeyU64.exe";
     proc_cmdline := Some ["AutoHotkeyU64.exe"; "STT_hotkeys.ahk"] |}.

(** Every call succeeds; the companion shows up as PID 4242 in the snapshot
    taken after its launch. *)
Definition calm : Env :=
  {| has_rich := false;
     os_path_join := λ a b, a +:+ "/" +:+ b;
     raises := λ _ _, None;
     observe := λ _ o, match o with
                       | AttrTruthy _ _ => false
                       | _ => true
                       end;
     recorder_text := λ _, Some "hello";
     process_iter := λ t, if Nat.leb 4 t then [ahk 4242%Z] else [] |}.

(** Like [calm], but the file of the realtime module is not there yet when
    it is first looked for (at clock 11, right after startup). *)
Definition flaky : Env :=
  {| has_rich := false;
     os_path_join := λ a b, a +:+ "/" +:+ b;
     raises := λ _ _, None;
     observe := λ t o, match o with
                       | AttrTruthy _ _ => false
                       | PathExists _ => negb (Nat.eqb t 11)
                       | _ => true
                       end;
     recorder_text := λ _, Some "hello";
     process_iter := λ t, if Nat.leb 4 t then [ahk 4242%Z] else [] |}.

(** Like [calm], but the constructor of the static transcriber raises. *)
Definition no_static : Env :=
  {| has_rich := false;
     os_path_join := λ a b, a +:+ "/" +:+ b;
     raises := λ _ c, match c with
                      | Construct module_name _ _ =>
                          if decide (module_name = "static")
                          then Some (Exception "RuntimeError" "no display" eq_refl)
                          else None
                      | _ => None
                      end;
     observe := λ _ o, match o with
                       | AttrTruthy _ _ => false
                       | _ => true
                       end;
     recorder_text := λ _, Some "hello";
     process_iter := λ t, if Nat.leb 4 t then [ahk 4242%Z] else [] |}.

Definition started (E : Env) : State := (run_startup E (init "C:/stt")).2.

(** * Vocabulary of the specification *)

(** From a state with [P], whatever the outcome of [m], [Q] holds
    afterwards. *)
Definition hoare {A} (P : State → Prop) (m : M A) (Q : State → Prop) : Prop :=
  ∀ s, P s → Q (m s).2.

Abbreviation preserves P m := (hoare P m P).

(** The updates every part of the program may make: a predicate closed under
    them is kept by all code that leaves the orchestrator's own attributes
    alone. *)
Class Closed (P : State → Prop) := {
  closed_trace : ∀ s ev, P s → P (set_trace (trace s ++ [ev]) s);
  closed_clock : ∀ s, P s → P (set_clock (S (clock s)) s);
  closed_next_ref : ∀ s, P s → P (set_next_ref (S (next_ref s)) s);
  closed_attr : ∀ s r f, P s → P (set_objects (alter (on_transcriber f) r (objects s)) s)
}.

(** The class constructed for each module type. *)
Definition transcriber_classes : list (string * string) :=
  [("realtime", "LongFormTranscriber"); ("longform", "LongFormTranscriber");
   ("static", "DirectFileTranscriber")].

(** The state once a new transcriber has been constructed and cached. *)
Definition with_new_transcriber (module_type cls : string) (s : State) : State :=
  set_transcribers (dict_set module_type (next_ref s) (transcribers s))
    (set_objects (<[next_ref s := new_object module_type cls]> (objects s))
       (set_next_ref (S (next_ref s)) s)).

(** Code that does not end the process. *)
Definition no_exit {A} (m : M A) : Prop :=
  ∀ s, match (m s).1 with Exited _ => False | _ => True end.


(** ** Invariants of the running process *)

Definition valid_mode (s : State) : Prop := is_mode (current_mode s).

(** Cached references were handed out by the store. *)
Definition refs_fresh (s : State) : Prop :=
  ∀ k r, dict_get (transcribers s) k = Some r → r < next_ref s.

(** The transcriber cached for realtime is an instance of the realtime
    module's class. *)
Definition realtime_ok (s : State) : Prop :=
  ∀ r, dict_get (transcribers s) "realtime" = Some r →
       ∃ o, objects s !! r = Some (RealtimeTranscriber o).

Definition well_formed (s : State) : Prop :=
  valid_mode s ∧ refs_fresh s ∧ realtime_ok s.

(** The process has been started and has not ended. *)
Definition alive (s : State) : Prop :=
  running s = true ∧ is_Some (server_thread s) ∧ exit_code s = None.

(** As long as the process has not ended, it is running. *)
Definition running_until_exit (s : State) : Prop :=
  exit_code s = None → running s = true ∧ is_Some (server_thread s).

(** ** Commands and modes *)

(** The closed vocabulary of the command channel. *)
Definition commands : list string :=
  ["TOGGLE_REALTIME"; "START_LONGFORM"; "STOP_LONGFORM"; "RUN_STATIC"; "QUIT"].

(** The mode a command starts, if it starts one. *)
Definition launches (command : string) : option string :=
  if decide (command = "TOGGLE_REALTIME") then Some "realtime"
  else if decide (command = "START_LONGFORM") then Some "longform"
  else if decide (command = "RUN_STATIC") then Some "static"
  else None.

(** How the console messages name a mode. *)
Definition mode_label (mode : string) : string :=
  if decide (mode = "realtime") then "real-time"
  else if decide (mode = "longform") then "long-form"
  else mode.

(** The console line of a rejected start of [y] while [x] is active. *)
Definition busy_message (y x : string) : string :=
  "Cannot start " +:+ mode_label y +:+ " mode while in " +:+ x +:+
  " mode. Please finish the current operation first.".

Definition modes : list string := ["realtime"; "longform"; "static"].

(** The events added to the trace between two states. *)
Definition new_events (s s' : State) : list event :=
  drop (length (trace s)) (trace s').

(** ** Acquisition *)

(** The constructor call [initialize_transcriber] makes for a mode. *)
Definition constructor_call (module_type : string) : ext_call :=
  if decide (module_type = "realtime") then
    Construct module_type "LongFormTranscriber" []
  else if decide (module_type = "longform") then
    Construct module_type "LongFormTranscriber"
      [("start_hotkey", ""); ("stop_hotkey", ""); ("quit_hotkey", ""); ("preload_model", "True")]
  else
    Construct module_type "DirectFileTranscriber"
      [("file_select_hotkey", ""); ("quit_hotkey", ""); ("use_tk_mainloop", "False")].

Definition class_of (module_type : string) : string :=
  if decide (module_type = "static") then "DirectFileTranscriber" else "LongFormTranscriber".

Definition initializing_message (module_type : string) : string :=
  if decide (module_type = "realtime") then "Initializing real-time transcriber..."
  else if decide (module_type = "longform") then "Initializing long-form transcriber..."
  else "Initializing static file transcriber...".

(** The state in which the constructor for [module_type] has just been
    called from state [s]. *)
Definition constructing (module_type : string) (s : State) : State :=
  set_clock (S (clock s))
    (set_trace (trace s ++ [Print (initializing_message module_type);
                            Call (constructor_call module_type)]) s).

Definition is_construct (ev : event) : bool :=
  match ev with Call (Construct _ _ _) => true | _ => false end.

Definition calls_method (meth : string) (ev : event) : bool :=
  match ev with Call (Method _ m) => bool_decide (m = meth) | _ => false end.

Definition kills (p : pid) (ev : event) : bool :=
  match ev with Call (Kill q) => bool_decide (q = p) | _ => false end.

Definition is_import (ev : event) : bool :=
  match ev with Call (ExecModule _ _) => true | _ => false end.

(** ** The claims that do not hold as they are stated *)

(** Toggle symmetry without a condition on the first command. *)
Definition toggle_symmetry_as_stated : Prop :=
  ∀ E s, reachable E s → current_mode s = None →
    current_mode
      (_handle_command E "TOGGLE_REALTIME" (_handle_command E "TOGGLE_REALTIME" s).2).2 = None.

(** Shutdown completeness with [current_mode] reset by QUIT. *)
Definition shutdown_completeness_as_stated : Prop :=
  ∀ E s, reachable E s → exit_code s = None →
    let s' := step E (Connection (Some "QUIT")) s in
    running s' = false ∧ current_mode s' = None.

(** The recorder behind the realtime transcriber, if there is one. *)
Definition realtime_recorder (s : State) : option nat :=
  match dict_get (transcribers s) "realtime" with
  | Some t =>
      match objects s !! t with
      | Some (RealtimeTranscriber o) => LongFormTranscriber.recorder o
      | _ => None
      end
  | None => None
  end.

(** Handle lifecycle with the engine instance kept until shutdown: once the
    realtime transcriber has its recorder, it has the same one as long as the
    process has not ended. *)
Definition engine_kept_as_stated : Prop :=
  ∀ E s ls n, reachable E s → realtime_recorder s = Some n →
    exit_code (exec E ls s) = None → realtime_recorder (exec E ls s) = Some n.

(** ** More of the two modules, and more vocabulary *)

(** [LongFormTranscriber.get_transcribed_text] *)
Definition get_transcribed_text (self : nat) : M string :=
  get_attr self LongFormTranscriber.text_buffer.

(** [LongFormTranscriber._handle_realtime_update]: partial transcripts are
    received and dropped. *)
Definition _handle_realtime_update (self : nat) (text : string) : M unit := ret tt.

(** Code that neither raises nor ends the process. *)
Definition returns {A} (m : M A) : Prop :=
  ∀ s, ∃ a, (m s).1 = Normal a.

(** The PIDs of the companion processes left over from an earlier run. *)
Definition leftover_pids (procs : list proc_info) : list pid :=
  proc_pid <$> filter (λ proc, is_leftover proc = true) procs.

(** What the text buffer becomes when [text] is appended to [buf]. *)
Definition appended (buf text : string) : string :=
  (if truthy (Some buf) && negb (endswith_space buf) then buf +:+ " " else buf) +:+ text.

(** The line [LongFormTranscriber.stop] prints last. *)
Definition stopped_line (E : Env) : event :=
  Print (if has_rich E then "[bold]Speech recognition stopped.[/bold]"
         else "Speech recognition stopped.").

(** A worker that is still at work. *)
Definition working (w : worker) : Prop :=
  match w with
  | Ready target => target = "_run_realtime" ∨ target = "_run_static_thread"
  | InRealtimeLoop _ | InStaticPoll _ => True
  | Finished => False
  end.

(** Code of a worker that, when it ends the worker, leaves no mode active. *)
Definition ends_idle (m : M worker) : Prop :=
  ∀ s s', m s = (Normal Finished, s') → current_mode s' = None.

(** The PIDs on which kill is called, in the order of the calls. *)
Definition killed (evs : list event) : list pid :=
  omap (λ ev, match ev with Call (Kill p) => Some p | _ => None end) evs.

(** Code that does not let an exception out. *)
Definition no_raise {A} (m : M A) : Prop :=
  ∀ s, match (m s).1 with Raised _ => False | _ => True end.

(** The last things the listener does before its thread ends. *)
Definition listener_closing : list event :=
  [Call (SocketClose "server"); LogInfo "TCP server stopped"].

(** The realtime session of [calm] after the worker has entered the loop of
    [start]: the transcriber is object 3, its recorder object 4. *)
Definition listening : State :=
  exec calm [Connection (Some "TOGGLE_REALTIME"); WorkerStep 0] (started calm).

(** Code whose calls into the environment all satisfy [ok]; the trace only
    grows. *)
Definition calls_only {A} (ok : ext_call → Prop) (m : M A) : Prop :=
  ∀ s, ∃ evs, trace (m s).2 = (trace s ++ evs)%list ∧ ∀ c, Call c ∈ evs → ok c.

(** The same for code run where [P] holds, which it keeps. *)
Definition calls_only_in {A} (P : State → Prop) (ok : ext_call → Prop) (m : M A) : Prop :=
  ∀ s, P s →
    P (m s).2 ∧ ∃ evs, trace (m s).2 = (trace s ++ evs)%list ∧ ∀ c, Call c ∈ evs → ok c.

(** The calls by which sessions are run: everything but the calls on the
    companion process, the server thread, the listener's sockets and the
    process itself. *)
Definition session_call (c : ext_call) : Prop :=
  match c with
  | Kill _ | Popen _ | Join _ | SocketCreate | SocketSetup | SocketClose _ | OsExit _ => False
  | _ => True
  end.

Definition session_event (ev : event) : Prop :=
  match ev with
  | Call c => session_call c
  | _ => True
  end.

(** What [stop] may call when it is entered in state [s]: the calls by which
    sessions are run, kill on the companion whose PID [s] stores, and join on
    the server thread of [s] when it is not the thread that runs [stop]. *)
Definition teardown_call (s : State) (c : ext_call) : Prop :=
  match c with
  | Kill p => ahk_pid s = Some p
  | Join t => server_thread s = Some t ∧ current_thread s ≠ t
  | _ => session_call c
  end.

Definition teardown_event (s : State) (ev : event) : Prop :=
  match ev with
  | Call c => teardown_call s c
  | _ => True
  end.

(** The attributes of the orchestrator other than its two caches are the
    same in both states. *)
Definition same_session (s s' : State) : Prop :=
  script_dir s' = script_dir s ∧ running s' = running s ∧
  server_thread s' = server_thread s ∧ current_mode s' = current_mode s ∧
  ahk_pid s' = ahk_pid s ∧ threads s' = threads s ∧ exit_code s' = exit_code s.

(** The two caches agree everywhere but at [k]. *)
Definition same_caches_but (k : string) (s s' : State) : Prop :=
  ∀ k', k' ≠ k →
    modules s' !! k' = modules s !! k' ∧
    dict_get (transcribers s') k' = dict_get (transcribers s) k'.

(** Nothing is imported or cached but for [k]; no mode is active and no
    worker has been started. *)
Definition only_loaded (k : string) (s : State) : Prop :=
  (∀ k', k' ≠ k → modules s !! k' = None ∧ dict_get (transcribers s) k' = None) ∧
  current_mode s = None ∧ threads s = [].

(** Code that returns normally and whose last event is [ev]. *)
Definition ends_with (ev : event) (m : M unit) : Prop :=
  ∀ s, ∃ s' evs, m s = (Normal tt, s') ∧ trace s' = (trace s ++ evs ++ [ev])%list.

(** The realtime session of [calm] just after TOGGLE_REALTIME has been
    handled: the worker has been started and has not run yet. *)
Definition toggled : State :=
  exec calm [Connection (Some "TOGGLE_REALTIME")] (started calm).

(** The transcriber of the active mode is in the cache. *)
Definition mode_cached (s : State) : Prop :=
  ∀ m, current_mode s = Some m → is_Some (dict_get (transcribers s) m).

(** A process table that does not change, with two companions left over
    from an earlier run (PIDs 7 and 10), an AutoHotkey process that runs
    another script, a process of another program whose command line names
    the script, and an AutoHotkey process whose command line cannot be
    read. *)
Definition stale : Env :=
  {| has_rich := false;
     os_path_join := λ a b, a +:+ "/" +:+ b;
     raises := λ _ _, None;
     observe := λ _ _, true;
     recorder_text := λ _, None;
     process_iter := λ _,
       [ahk 7%Z;
        {| proc_pid := 8%Z; proc_name := "AutoHotkeyU64.exe";
           proc_cmdline := Some ["AutoHotkeyU64.exe"; "other.ahk"] |};
        {| proc_pid := 9%Z; proc_name := "notepad.exe";
           proc_cmdline := Some ["notepad.exe"; "STT_hotkeys.ahk"] |};
        ahk 10%Z;
        {| proc_pid := 11%Z; proc_name := "AutoHotkeyU64.exe"; proc_cmdline := None |}] |}.

(** The state in which [run], under [calm], launches the companion: the
    server has been started. *)
Definition launching : State := (start_server calm (init "C:/stt")).2.

(** ** Modes at work *)

(** The mode whose loop a worker thread is in. *)
Definition worker_mode (w : worker) : option string :=
  match w with
  | InRealtimeLoop _ => Some "realtime"
  | InStaticPoll _ => Some "static"
  | Ready _ | Finished => None
  end.

(** The modes at work in a state: the mode that [current_mode] records and
    the modes of the workers that are inside their loops. *)
Definition at_work (s : State) : list string :=
  filter (λ m, current_mode s = Some m ∨ Some m ∈ worker_mode <$> threads s) modes.

(** TOGGLE_REALTIME twice before the realtime worker has run, then the
    worker, then START_LONGFORM. *)
Definition overlapped : State :=
  exec calm [Connection (Some "TOGGLE_REALTIME"); Connection (Some "TOGGLE_REALTIME");
             WorkerStep 0; Connection (Some "START_LONGFORM")] (started calm).

(** * Preservation of state predicates *)

Lemma hoare_weaken {A} (P P' Q : State → Prop) (m : M A) :
  (∀ s, P' s → P s) → hoare P m Q → hoare P' m Q.
Proof. intros HP Hm s H. apply Hm, HP, H. Qed.

Lemma hoare_post {A} (P Q Q' : State → Prop) (m : M A) :
  (∀ s, Q s → Q' s) → hoare P m Q → hoare P m Q'.
Proof. intros HQ Hm s H. apply HQ, Hm, H. Qed.

Lemma hoare_bind {A B} (P R Q : State → Prop) (m : M A) (k : A → M B) :
  hoare P m R → (∀ s, R s → Q s) → (∀ a, hoare R (k a) Q) → hoare P (bind m k) Q.
Proof.
  intros Hm HRQ Hk s H. unfold bind. specialize (Hm s H).
  destruct (m s) as [[a|e|c] s']; simpl in *; auto. by apply Hk.
Qed.

Lemma hoare_bind_get {X B} (P Q : State → Prop) (f : State → X) (k : X → M B) :
  (∀ x, hoare (λ s, P s ∧ f s = x) (k x) Q) → hoare P (bind (get f) k) Q.
Proof. intros Hk s H. unfold bind, get. by apply (Hk (f s)). Qed.

Lemma hoare_try_except {A} (P R Q : State → Prop) (body : M A) handler :
  hoare P body R → (∀ s, R s → Q s) → (∀ e, hoare R (handler e) Q) →
  hoare P (try_except body handler) Q.
Proof.
  intros Hm HRQ Hk s H. unfold try_except. specialize (Hm s H).
  destruct (body s) as [[a|e|c] s']; simpl in *; auto. by apply Hk.
Qed.

Section Rules.

Context (P : State → Prop).

Lemma preserves_ret {A} (a : A) : preserves P (ret a).
Proof. intros s H. exact H. Qed.

Lemma preserves_raise {A} e : preserves P (@raise A e).
Proof. intros s H. exact H. Qed.

Lemma preserves_get {X} (f : State → X) : preserves P (get f).
Proof. intros s H. exact H. Qed.

Lemma preserves_modify f : (∀ s, P s → P (f s)) → preserves P (modify f).
Proof. intros Hf s H. apply Hf, H. Qed.

Lemma preserves_bind {A B} (m : M A) (k : A → M B) :
  preserves P m → (∀ a, preserves P (k a)) → preserves P (bind m k).
Proof.
  intros Hm Hk s H. unfold bind. specialize (Hm s H).
  destruct (m s) as [[a|e|c] s']; simpl in *; auto. by apply Hk.
Qed.

Lemma preserves_try_except {A} (body : M A) handler :
  preserves P body → (∀ e, preserves P (handler e)) → preserves P (try_except body handler).
Proof.
  intros Hm Hk s H. unfold try_except. specialize (Hm s H).
  destruct (body s) as [[a|e|c] s']; simpl in *; auto. by apply Hk.
Qed.

Lemma preserves_try_except_of {A} classes (body : M A) handler :
  preserves P body → (∀ e, preserves P (handler e)) →
  preserves P (try_except_of classes body handler).
Proof.
  intros Hm Hk s H. unfold try_except_of. specialize (Hm s H).
  destruct (body s) as [[a|e|c] s']; simpl in *; auto.
  case_bool_decide; simpl; auto. by apply Hk.
Qed.

Lemma preserves_try_finally {A} (body : M A) final :
  preserves P body → preserves P final → preserves P (try_finally body final).
Proof.
  intros Hm Hk s H. unfold try_finally. specialize (Hm s H).
  destruct (body s) as [[a|e|c] s']; simpl in *; auto;
    specialize (Hk s' Hm); destruct (final s') as [[?|?|?] s'']; simpl in *; auto.
Qed.

Lemma preserves_try_finally_raised {A} (body : M A) final :
  preserves P body → preserves P final → preserves P (try_finally_raised body final).
Proof.
  intros Hm Hk s H. unfold try_finally_raised. specialize (Hm s H).
  destruct (body s) as [[a|e|c] s']; simpl in *; auto;
    specialize (Hk s' Hm); destruct (final s') as [[?|?|?] s'']; simpl in *; auto.
Qed.

End Rules.

Create HintDb pres discriminated.

#[export] Hint Resolve preserves_ret preserves_raise preserves_get : pres.
#[export] Hint Extern 1 (Closed _) => apply _ : pres.

(** Decomposes a preservation goal along the structure of the code. *)
Ltac pres_step :=
  match goal with
  | |- hoare ?P (bind _ _) ?P => apply preserves_bind; [| intros ?]
  | |- hoare ?P (try_except _ _) ?P => apply preserves_try_except; [| intros ?]
  | |- hoare ?P (try_except_of _ _ _) ?P => apply preserves_try_except_of; [| intros ?]
  | |- hoare ?P (try_finally _ _) ?P => apply preserves_try_finally
  | |- hoare ?P (try_finally_raised _ _) ?P => apply preserves_try_finally_raised
  | |- hoare _ (if ?b then _ else _) _ => destruct b
  | |- hoare _ (match ?x with _ => _ end) _ => destruct x
  | |- hoare _ _ _ => solve [eauto with pres]
  end.

Ltac pres := repeat pres_step.

Section Base.

Context (E : Env) (P : State → Prop) `{!Closed P}.

Lemma preserves_emit ev : preserves P (emit ev).
Proof. apply preserves_modify. intros. by apply closed_trace. Qed.

Lemma preserves_log_info msg : preserves P (log_info msg).
Proof. apply preserves_emit. Qed.

Lemma preserves_log_error msg : preserves P (log_error msg).
Proof. apply preserves_emit. Qed.

Lemma preserves_safe_print msg : preserves P (safe_print msg).
Proof. apply preserves_emit. Qed.

Lemma preserves_effect c : preserves P (effect c).
Proof. apply preserves_emit. Qed.

Lemma preserves_tick : preserves P tick.
Proof. intros s H. by apply closed_clock. Qed.

Lemma preserves_fresh : preserves P fresh.
Proof. intros s H. by apply closed_next_ref. Qed.

Hint Resolve preserves_emit preserves_log_info preserves_log_error preserves_safe_print
  preserves_effect preserves_tick preserves_fresh : pres.

Lemma preserves_external c : preserves P (external E c).
Proof. unfold external. pres. Qed.

Lemma preserves_ask o : preserves P (ask E o).
Proof. unfold ask. pres. Qed.

Lemma preserves_module_print a b : preserves P (module_print E a b).
Proof. apply preserves_emit. Qed.

Lemma preserves_get_attr {X} r (f : _ → X) : preserves P (get_attr r f).
Proof. intros s H. unfold get_attr. by repeat case_match. Qed.

Lemma preserves_set_attr r f : preserves P (set_attr r f).
Proof. apply preserves_modify. intros. by apply closed_attr. Qed.

Hint Resolve preserves_external preserves_ask preserves_module_print preserves_get_attr
  preserves_set_attr : pres.

Lemma preserves__initialize_recorder r : preserves P (_initialize_recorder E r).
Proof. unfold _initialize_recorder. pres. Qed.

Lemma preserves_process_speech r text : preserves P (process_speech E r text).
Proof. unfold process_speech. pres. Qed.

Lemma preserves_LongFormTranscriber_stop r : preserves P (LongFormTranscriber_stop E r).
Proof. unfold LongFormTranscriber_stop. pres. Qed.

Hint Resolve preserves__initialize_recorder preserves_process_speech
  preserves_LongFormTranscriber_stop : pres.

Lemma preserves_LongFormTranscriber_start_enter r :
  preserves P (LongFormTranscriber_start_enter E r).
Proof. unfold LongFormTranscriber_start_enter. pres. Qed.

Lemma preserves_LongFormTranscriber_start_body r :
  preserves P (LongFormTranscriber_start_body E r).
Proof. unfold LongFormTranscriber_start_body. pres. Qed.

Hint Resolve preserves_LongFormTranscriber_start_enter
  preserves_LongFormTranscriber_start_body : pres.

Lemma preserves_call_method t meth : preserves P (call_method E t meth).
Proof. unfold call_method, no_attribute. pres. Qed.

Lemma preserves_call_method_bool t meth : preserves P (call_method_bool E t meth).
Proof. unfold call_method_bool, no_attribute. pres. Qed.

Lemma preserves_call_start t : preserves P (call_start E t).
Proof. unfold call_start. pres. Qed.

Lemma preserves_hasattr t attr : preserves P (hasattr E t attr).
Proof. unfold hasattr. pres. Qed.

Lemma preserves_attr_truthy t attr : preserves P (attr_truthy E t attr).
Proof. unfold attr_truthy, no_attribute. pres. Qed.

Hint Resolve preserves_call_method preserves_call_method_bool preserves_call_start
  preserves_hasattr preserves_attr_truthy : pres.

Lemma preserves_stop_ahk_script : preserves P (stop_ahk_script E).
Proof. unfold stop_ahk_script. pres. Qed.

Lemma preserves_snapshot : preserves P (snapshot E).
Proof. unfold snapshot. pres. Qed.

Hint Resolve preserves_snapshot : pres.

Lemma preserves_kill_each procs : preserves P (kill_each E procs).
Proof. induction procs as [|proc rest IH]; simpl; pres. Qed.

Hint Resolve preserves_kill_each : pres.

Lemma preserves__kill_leftover_ahk : preserves P (_kill_leftover_ahk E).
Proof. unfold _kill_leftover_ahk. pres. Qed.

Lemma preserves_clean_up_each items : preserves P (clean_up_each E items).
Proof. induction items as [|[module_type t] rest IH]; simpl; pres. Qed.

End Base.

#[export] Hint Resolve preserves_emit preserves_log_info preserves_log_error
  preserves_safe_print preserves_effect preserves_tick preserves_fresh preserves_external
  preserves_ask preserves_module_print preserves_get_attr preserves_set_attr
  preserves__initialize_recorder preserves_process_speech preserves_LongFormTranscriber_stop
  preserves_LongFormTranscriber_start_enter preserves_LongFormTranscriber_start_body
  preserves_call_method preserves_call_method_bool preserves_call_start preserves_hasattr
  preserves_attr_truthy preserves_stop_ahk_script preserves_snapshot preserves_kill_each
  preserves__kill_leftover_ahk preserves_clean_up_each : pres.

(** A predicate on the transcriber cache can be carried along. *)
Lemma Closed_and_transcribers (P : State → Prop) (Q : dict nat → Prop) :
  Closed P → Closed (λ s, P s ∧ Q (transcribers s)).
Proof.
  intros HP. split; intros; simpl; (split; [|tauto]).
  - apply closed_trace; tauto.
  - apply closed_clock; tauto.
  - apply closed_next_ref; tauto.
  - apply closed_attr; tauto.
Qed.

Section ModuleImport.

Context (E : Env) (P : State → Prop) `{!Closed P}.
Hypothesis closed_modules : ∀ s m, P s → P (set_modules m s).
Hypothesis closed_new : ∀ s k cls,
  (k, cls) ∈ transcriber_classes →
  dict_get (transcribers s) k = None → P s → P (with_new_transcriber k cls s).

Lemma preserves_import_module_lazily k : preserves P (import_module_lazily E k).
Proof.
  unfold import_module_lazily. pres.
  apply preserves_modify. intros. by apply closed_modules.
Qed.

Lemma hoare_construct_store k cls kwargs :
  (k, cls) ∈ transcriber_classes →
  hoare (λ s, P s ∧ dict_get (transcribers s) k = None)
        (t <- construct E k cls kwargs;; store_transcriber k t) P.
Proof.
  set (P' := λ s, P s ∧ dict_get (transcribers s) k = None).
  assert (Closed P') by (by apply (Closed_and_transcribers P (λ d, dict_get d k = None))).
  intros Hcls s HP. pose proof (preserves_external E P' (Construct k cls kwargs) s HP) as H1.
  unfold construct, bind.
  destruct (external E _ s) as [[t|e|c'] s1]; simpl in H1; [|apply H1..].
  destruct H1 as [H1 H2]. by apply (closed_new s1 k cls).
Qed.

End ModuleImport.

Section Acquisition.

Context (E : Env) (P : State → Prop) `{!Closed P}.
Hypothesis closed_modules : ∀ s m, P s → P (set_modules m s).
Hypothesis closed_new : ∀ s k cls,
  (k, cls) ∈ transcriber_classes →
  dict_get (transcribers s) k = None → P s → P (with_new_transcriber k cls s).

Lemma preserves_initialize_transcriber k : preserves P (initialize_transcriber E k).
Proof.
  unfold initialize_transcriber. apply hoare_bind_get. intros [t|].
  { eapply hoare_weaken; [|apply preserves_ret]. by intros ? [? ?]. }
  set (P' := λ s, P s ∧ dict_get (transcribers s) k = None).
  assert (Closed P') by (by apply (Closed_and_transcribers P (λ d, dict_get d k = None))).
  assert (HP' : ∀ s, P' s → P s) by (by intros ? [? ?]).
  apply hoare_weaken with (P := P'); [done|].
  eapply hoare_bind with (R := P'); [|done|].
  - apply preserves_import_module_lazily; [done|]. intros ? ? [? ?]. split; [|done].
    by apply closed_modules.
  - intros [m|]; [|eapply hoare_weaken; [exact HP'|]; pres].
    eapply hoare_try_except with (R := P); [|done|intros; pres].
    eapply hoare_bind with (R := P); [|done|intros; pres].
    repeat case_decide; subst;
      [eapply hoare_bind with (R := P');
         [pres | done | intros _; apply hoare_construct_store; [done|done|]; set_solver]..|].
    eapply hoare_weaken; [exact HP'|]. pres.
Qed.

End Acquisition.

Section Handlers.

Context (E : Env) (P : State → Prop) `{!Closed P}.
Hypothesis closed_modules : ∀ s m, P s → P (set_modules m s).
Hypothesis closed_new : ∀ s k cls,
  (k, cls) ∈ transcriber_classes →
  dict_get (transcribers s) k = None → P s → P (with_new_transcriber k cls s).
Hypothesis closed_threads : ∀ s t, P s → P (set_threads t s).
Hypothesis closed_mode : ∀ s v, is_mode v → P s → P (set_current_mode v s).
Hypothesis closed_current_thread : ∀ s t, P s → P (set_current_thread t s).
Hypothesis closed_running : ∀ s v, P s → P (set_running v s).
Hypothesis closed_exit_code : ∀ s v, P s → P (set_exit_code v s).
Hypothesis closed_ahk_pid : ∀ s v, P s → P (set_ahk_pid v s).
Hypothesis closed_server_thread : ∀ s v, P s → P (set_server_thread v s).

Local Hint Resolve preserves_initialize_transcriber : pres.

Lemma preserves_set_mode v : is_mode v → preserves P (set_mode v).
Proof. intros Hv. apply preserves_modify. intros. by apply closed_mode. Qed.

Lemma preserves_spawn target : preserves P (spawn E target).
Proof. unfold spawn. pres. apply preserves_modify. intros. by apply closed_threads. Qed.

Local Hint Extern 1 (is_mode _) => (unfold is_mode; tauto) : pres.
Local Hint Resolve preserves_set_mode preserves_spawn : pres.

Lemma preserves__toggle_realtime : preserves P (_toggle_realtime E).
Proof. unfold _toggle_realtime. pres. Qed.

Lemma preserves__start_longform : preserves P (_start_longform E).
Proof. unfold _start_longform. pres. Qed.

Lemma preserves__stop_longform : preserves P (_stop_longform E).
Proof. unfold _stop_longform. pres. Qed.

Lemma preserves__run_static : preserves P (_run_static E).
Proof. unfold _run_static. pres. Qed.

Lemma preserves_worker_step w : preserves P (worker_step E w).
Proof.
  unfold worker_step, _run_realtime, _run_realtime_loop, _run_static_thread, _run_static_poll,
    _run_realtime_except, _run_realtime_after, _run_static_except.
  pres.
Qed.

Lemma preserves_stop : preserves P (stop E).
Proof. unfold stop. pres. apply preserves_modify. intros. by apply closed_running. Qed.

Lemma preserves_os_exit {A} c : preserves P (@os_exit A c).
Proof. intros s H. by apply closed_exit_code, closed_trace. Qed.

Local Hint Resolve preserves__toggle_realtime preserves__start_longform
  preserves__stop_longform preserves__run_static preserves_stop preserves_os_exit : pres.

Lemma preserves__quit : preserves P (_quit E).
Proof. unfold _quit. pres. Qed.

Local Hint Resolve preserves__quit : pres.

Lemma preserves__handle_command command : preserves P (_handle_command E command).
Proof. unfold _handle_command. pres. Qed.

Local Hint Resolve preserves__handle_command : pres.

Lemma preserves__run_server_body conn : preserves P (_run_server_body E conn).
Proof. unfold _run_server_body. pres. Qed.

Lemma preserves_start_ahk_script : preserves P (start_ahk_script E).
Proof.
  unfold start_ahk_script. pres; apply preserves_modify; intros; by apply closed_ahk_pid.
Qed.

Lemma preserves_start_server : preserves P (start_server E).
Proof.
  unfold start_server. pres; apply preserves_modify; intros;
    [by apply closed_running | by apply closed_server_thread].
Qed.

Local Hint Resolve preserves_start_ahk_script preserves_start_server : pres.

Lemma preserves_run_startup : preserves P (run_startup E).
Proof. unfold run_startup, banner. pres. Qed.

Lemma preserves_run_interrupted : preserves P (run_interrupted E).
Proof. unfold run_interrupted. pres. apply preserves_modify. intros. by apply closed_exit_code. Qed.

Lemma preserves_step l s : P s → P (step E l s).
Proof.
  intros H. unfold step. destruct (exit_code s); [done|]. destruct l as [conn|i|].
  - destruct (server_thread s); [|done]. destruct (running s); [|done].
    by apply preserves__run_server_body, closed_current_thread.
  - destruct (threads s !! i) as [w|]; [|done].
    pose proof (preserves_worker_step w s H) as Hw.
    destruct (worker_step E w s) as [[w'|e|c] s']; by apply closed_threads.
  - by apply preserves_run_interrupted, closed_current_thread.
Qed.

Lemma preserves_exec ls s : P s → P (exec E ls s).
Proof. revert s. induction ls as [|l ls IH]; intros s H; simpl; [done|]. by apply IH, preserves_step. Qed.

End Handlers.

(** * Code that does not end the process *)

Lemma no_exit_ret {A} (a : A) : no_exit (ret a).
Proof. by intros s. Qed.

Lemma no_exit_raise {A} e : no_exit (@raise A e).
Proof. by intros s. Qed.

Lemma no_exit_get {X} (f : State → X) : no_exit (get f).
Proof. by intros s. Qed.

Lemma no_exit_modify f : no_exit (modify f).
Proof. by intros s. Qed.

Lemma no_exit_bind {A B} (m : M A) (k : A → M B) :
  no_exit m → (∀ a, no_exit (k a)) → no_exit (bind m k).
Proof.
  intros Hm Hk s. unfold bind. specialize (Hm s).
  destruct (m s) as [[a|e|c] s']; simpl in *; auto. apply Hk.
Qed.

Lemma no_exit_try_except {A} (body : M A) handler :
  no_exit body → (∀ e, no_exit (handler e)) → no_exit (try_except body handler).
Proof.
  intros Hm Hk s. unfold try_except. specialize (Hm s).
  destruct (body s) as [[a|e|c] s']; simpl in *; auto. apply Hk.
Qed.

Lemma try_except_normal (body : M unit) handler s :
  no_exit body → (∀ e s', (handler e s').1 = Normal tt) →
  (try_except body handler s).1 = Normal tt.
Proof.
  intros Hb Hh. unfold try_except. specialize (Hb s).
  destruct (body s) as [[[]|e|c] s']; simpl in *; done.
Qed.

#[export] Hint Resolve no_exit_ret no_exit_raise no_exit_get no_exit_modify : pres.

Ltac no_exit_step :=
  match goal with
  | |- no_exit (bind _ _) => apply no_exit_bind; [| intros ?]
  | |- no_exit (try_except _ _) => apply no_exit_try_except; [| intros ?]
  | |- no_exit (if ?b then _ else _) => destruct b
  | |- no_exit (match ?x with _ => _ end) => destruct x
  | |- no_exit _ => solve [eauto with pres]
  end.

Ltac no_exit := repeat no_exit_step.

Section NoExit.

Context (E : Env).

Lemma no_exit_emit ev : no_exit (emit ev).
Proof. by intros s. Qed.

Lemma no_exit_tick : no_exit tick.
Proof. by intros s. Qed.

Lemma no_exit_get_attr {X} r (f : _ → X) : no_exit (get_attr r f).
Proof. intros s. unfold get_attr. by repeat case_match. Qed.

Hint Resolve no_exit_emit no_exit_tick no_exit_get_attr : pres.

Lemma no_exit_external c : no_exit (external E c).
Proof. unfold external. no_exit. Qed.

Lemma no_exit_ask o : no_exit (ask E o).
Proof. unfold ask. no_exit. Qed.

Hint Resolve no_exit_external no_exit_ask : pres.

Lemma no_exit_LongFormTranscriber_stop r : no_exit (LongFormTranscriber_stop E r).
Proof. unfold LongFormTranscriber_stop, set_attr, module_print. no_exit. Qed.

Hint Resolve no_exit_LongFormTranscriber_stop : pres.

Lemma no_exit_call_method t meth : no_exit (call_method E t meth).
Proof. unfold call_method, no_attribute. no_exit. Qed.

Lemma no_exit_hasattr t attr : no_exit (hasattr E t attr).
Proof. unfold hasattr. no_exit. Qed.

Lemma no_exit_attr_truthy t attr : no_exit (attr_truthy E t attr).
Proof. unfold attr_truthy, no_attribute. no_exit. Qed.

Hint Resolve no_exit_call_method no_exit_hasattr no_exit_attr_truthy : pres.

Lemma no_exit_stop_ahk_script : no_exit (stop_ahk_script E).
Proof. unfold stop_ahk_script, log_info, log_error. no_exit. Qed.

Lemma no_exit_clean_up_each items : no_exit (clean_up_each E items).
Proof. induction items as [|[module_type t] rest IH]; simpl; unfold log_error; no_exit. Qed.

Hint Resolve no_exit_stop_ahk_script no_exit_clean_up_each : pres.

(** [stop] catches every exception and never ends the process itself. *)
Lemma stop_normal s : (stop E s).1 = Normal tt.
Proof.
  unfold stop. apply try_except_normal; [|done].
  unfold log_info, log_error. no_exit.
Qed.

End NoExit.

#[export] Hint Resolve no_exit_emit no_exit_tick no_exit_get_attr no_exit_external no_exit_ask
  no_exit_LongFormTranscriber_stop no_exit_call_method no_exit_hasattr no_exit_attr_truthy
  no_exit_stop_ahk_script no_exit_clean_up_each : pres.

(** * Dictionaries *)

Lemma dict_get_set_eq {V} (d : dict V) k v : dict_get (dict_set k v d) k = Some v.
Proof.
  induction d as [|[k' v'] d IH]; simpl.
  - by rewrite decide_True.
  - case_decide; simpl; [by rewrite decide_True | by rewrite decide_False].
Qed.

Lemma dict_get_set_ne {V} (d : dict V) k k' v :
  k ≠ k' → dict_get (dict_set k v d) k' = dict_get d k'.
Proof.
  intros Hne. induction d as [|[k0 v0] d IH]; simpl.
  - by rewrite decide_False.
  - case_decide; simpl; subst.
    + by rewrite !decide_False.
    + by rewrite IH.
Qed.

(** * The invariants hold in every reachable state *)

(** Discharges the closure conditions of a concrete predicate. *)
Ltac closure :=
  intros; first [ assumption | match goal with H : _ |- _ => exact H end | by simpl in * ].

Lemma well_formed_attr s r f :
  well_formed s → well_formed (set_objects (alter (on_transcriber f) r (objects s)) s).
Proof.
  intros (Hm & Hf & Hr). split_and!; [done|done|].
  intros r' Hr'. destruct (Hr r' Hr') as [o Ho]. simpl.
  destruct (decide (r = r')) as [->|Hne].
  - rewrite lookup_alter_eq, Ho. simpl. eauto.
  - rewrite lookup_alter_ne by done. eauto.
Qed.

Lemma well_formed_next_ref s : well_formed s → well_formed (set_next_ref (S (next_ref s)) s).
Proof.
  intros (Hm & Hf & Hr). split_and!; [done| |done].
  intros k r Hk. specialize (Hf k r Hk). simpl. lia.
Qed.

#[export] Instance Closed_well_formed : Closed well_formed.
Proof.
  split; [closure | closure | apply well_formed_next_ref | apply well_formed_attr].
Qed.

Lemma well_formed_new s k cls :
  (k, cls) ∈ transcriber_classes →
  dict_get (transcribers s) k = None → well_formed s →
  well_formed (with_new_transcriber k cls s).
Proof.
  intros Hcls Hk (Hm & Hf & Hr). split_and!; [done| |].
  - intros k' r. simpl. destruct (decide (k = k')) as [->|Hne].
    + rewrite dict_get_set_eq. intros [= <-]. lia.
    + rewrite dict_get_set_ne by done. intros Hk'. specialize (Hf k' r Hk'). lia.
  - intros r. simpl. destruct (decide (k = "realtime")) as [->|Hne].
    + rewrite dict_get_set_eq. intros [= <-]. rewrite lookup_insert_eq.
      assert (cls = "LongFormTranscriber") as ->.
      { unfold transcriber_classes in Hcls.
        repeat (apply elem_of_cons in Hcls as [Hcls|Hcls]; [by simplify_eq|]).
        by apply elem_of_nil in Hcls. }
      unfold new_object. rewrite decide_True by done. eauto.
    + rewrite dict_get_set_ne by done. intros Hk'.
      specialize (Hf _ _ Hk'). rewrite lookup_insert_ne by lia. by apply Hr.
Qed.

Lemma well_formed_mode s v : is_mode v → well_formed s → well_formed (set_current_mode v s).
Proof. intros Hv (Hm & Hf & Hr). by split_and!. Qed.

Lemma well_formed_init dir : well_formed (init dir).
Proof.
  split_and!.
  - by left.
  - by intros k r.
  - by intros r.
Qed.

Ltac well_formed_closure :=
  first [ apply _ | apply well_formed_new | by apply well_formed_mode | closure ].

Theorem reachable_well_formed E s : reachable E s → well_formed s.
Proof.
  intros (dir & s0 & ls & Hs0 & ->).
  apply preserves_exec; [well_formed_closure..|].
  replace s0 with (run_startup E (init dir)).2 by (by rewrite Hs0).
  apply preserves_run_startup; [well_formed_closure..|]. apply well_formed_init.
Qed.

(** ** Running until exit *)

#[export] Instance Closed_alive : Closed alive.
Proof. split; closure. Qed.

#[export] Instance Closed_running_until_exit : Closed running_until_exit.
Proof. split; closure. Qed.

Lemma alive_running_until_exit s : alive s → running_until_exit s.
Proof. by intros (? & ? & ?) _. Qed.

Section Alive.

Context (E : Env).

Lemma alive_initialize_transcriber k : preserves alive (initialize_transcriber E k).
Proof. apply preserves_initialize_transcriber; first [apply _ | closure]. Qed.

Lemma alive__toggle_realtime : preserves alive (_toggle_realtime E).
Proof. apply preserves__toggle_realtime; first [apply _ | closure]. Qed.

Lemma alive__start_longform : preserves alive (_start_longform E).
Proof. apply preserves__start_longform; first [apply _ | closure]. Qed.

Lemma alive__stop_longform : preserves alive (_stop_longform E).
Proof. apply preserves__stop_longform; first [apply _ | closure]. Qed.

Lemma alive__run_static : preserves alive (_run_static E).
Proof. apply preserves__run_static; first [apply _ | closure]. Qed.

Lemma alive_worker_step w : preserves alive (worker_step E w).
Proof. apply preserves_worker_step; first [apply _ | closure]. Qed.

Lemma alive_start_ahk_script : preserves alive (start_ahk_script E).
Proof. apply preserves_start_ahk_script; first [apply _ | closure]. Qed.

(** [_quit] ends the process, whatever happens while stopping. *)
Lemma _quit_exits s :
  _quit E s = (Exited 0,
    set_exit_code (Some 0%Z)
      (set_trace (trace (stop E (set_trace (trace s ++ [Print "Quitting application..."]) s)).2
                  ++ [Call (OsExit 0)])
         (stop E (set_trace (trace s ++ [Print "Quitting application..."]) s)).2)).
Proof.
  unfold _quit, bind, safe_print, emit, modify. simpl.
  pose proof (stop_normal E (set_trace (trace s ++ [Print "Quitting application..."]) s)) as Hn.
  destruct (stop E _) as [r s2]. simpl in *. by subst r.
Qed.

Lemma handle_command_running_until_exit command :
  hoare alive (_handle_command E command) running_until_exit.
Proof.
  unfold _handle_command.
  apply hoare_try_except with (R := running_until_exit); [|done|intros; pres].
  repeat case_decide.
  - eapply hoare_post; [apply alive_running_until_exit | apply alive__toggle_realtime].
  - eapply hoare_post; [apply alive_running_until_exit | apply alive__start_longform].
  - eapply hoare_post; [apply alive_running_until_exit | apply alive__stop_longform].
  - eapply hoare_post; [apply alive_running_until_exit | apply alive__run_static].
  - intros s _. rewrite _quit_exits. by intros ?.
  - eapply hoare_post; [apply alive_running_until_exit | pres].
Qed.

Lemma run_server_body_running_until_exit conn :
  hoare alive (_run_server_body E conn) running_until_exit.
Proof.
  unfold _run_server_body.
  apply hoare_try_except with (R := running_until_exit); [|done|intros; pres].
  destruct conn as [data|]; [|by apply hoare_weaken with (P := running_until_exit);
                                [apply alive_running_until_exit | pres]].
  apply hoare_bind with (R := alive); [pres|apply alive_running_until_exit|intros _].
  apply hoare_bind with (R := running_until_exit); [|done|intros; pres].
  apply handle_command_running_until_exit.
Qed.

Lemma run_interrupted_exits s : exit_code (run_interrupted E s).2 = Some 0%Z.
Proof.
  unfold run_interrupted, bind, safe_print, emit, modify. simpl.
  match goal with |- context [stop E ?s1] =>
    pose proof (stop_normal E s1) as Hn; destruct (stop E s1) as [r s2] end.
  simpl in *. subst r.
  pose proof (stop_normal E s2) as Hn; destruct (stop E s2) as [r s3].
  simpl in *. by subst r.
Qed.

Lemma step_running_until_exit l s : running_until_exit s → running_until_exit (step E l s).
Proof.
  intros H. unfold step. destruct (exit_code s) eqn:Hx; [done|].
  destruct (H Hx) as [Hr [t Ht]]. destruct l as [conn|i|].
  - rewrite Ht, Hr. apply run_server_body_running_until_exit. by split_and!; [|eexists|].
  - destruct (threads s !! i) as [w|]; [|done].
    assert (alive s) as Ha by (by split_and!; [|eexists|]).
    pose proof (alive_worker_step w s Ha) as Hw.
    destruct (worker_step E w s) as [[w'|e|c] s']; by apply alive_running_until_exit.
  - intros Hx'. by rewrite run_interrupted_exits in Hx'.
Qed.

Lemma start_server_alive : hoare (λ s, exit_code s = None) (start_server E) alive.
Proof.
  intros s Hx.
  cbv beta iota delta [start_server bind modify fresh external emit tick log_info ret raise].
  simpl. destruct (raises E (clock s) (ThreadStart "_run_server")); simpl;
    by split_and!; [|eexists|].
Qed.

Lemma run_startup_alive : hoare (λ s, exit_code s = None) (run_startup E) alive.
Proof.
  unfold run_startup, banner.
  apply hoare_bind with (R := alive); [apply start_server_alive|done|intros _].
  pose proof alive_start_ahk_script. pose proof alive_initialize_transcriber. pres.
Qed.

Theorem reachable_running_until_exit s : reachable E s → running_until_exit s.
Proof.
  intros (dir & s0 & ls & Hs0 & ->).
  assert (running_until_exit s0) as H0.
  { apply alive_running_until_exit.
    replace s0 with (run_startup E (init dir)).2 by (by rewrite Hs0).
    by apply run_startup_alive. }
  clear Hs0. revert s0 H0. induction ls as [|l ls IH]; intros s0 H0; simpl; [done|].
  by apply IH, step_running_until_exit.
Qed.

End Alive.

(** * Commands that are rejected or ignored *)

(** Unfolds the monad's operations so that a handler can be run on a
    symbolic state. *)
Ltac run :=
  cbv beta iota delta [bind ret raise get modify emit log_info log_error safe_print effect
                       try_except set_mode];
  simpl.

(** C7. No-op stop: while the current mode is not longform, STOP_LONGFORM
    changes nothing in the state and only prints that there is no recording
    to stop; in particular no method of the longform engine is called. *)
Theorem stop_longform_noop E s :
  current_mode s ≠ Some "longform" →
  _handle_command E "STOP_LONGFORM" s =
    (Normal tt, set_trace (trace s ++ [Print "No active long-form recording to stop."]) s).
Proof.
  intros Hmode. unfold _handle_command, _stop_longform. run.
  by rewrite bool_decide_false.
Qed.

Lemma stop_longform_noop_witness :
  current_mode (init "C:/stt") ≠ Some "longform" ∧
  _handle_command calm "STOP_LONGFORM" (init "C:/stt") =
    (Normal tt, set_trace (trace (init "C:/stt") ++
                           [Print "No active long-form recording to stop."]) (init "C:/stt")).
Proof. split; [done | by apply (stop_longform_noop calm (init "C:/stt"))]. Defined.

(** C9. Unknown command: a command outside the closed vocabulary leaves the
    state as it is, is logged as an error, and the connection is closed
    without anything being sent on it. *)
Theorem unknown_command E command s :
  command ∉ commands →
  _handle_command E command s =
    (Normal tt, set_trace (trace s ++ [LogError ("Unknown command: " +:+ command)]) s) ∧
  _run_server_body E (Some command) s =
    (Normal tt, set_trace (trace s ++ [LogInfo ("Received command: " +:+ command);
                                        LogError ("Unknown command: " +:+ command);
                                        Call (SocketClose "client")]) s).
Proof.
  intros Hc. unfold commands in Hc. rewrite !not_elem_of_cons in Hc.
  destruct Hc as (? & ? & ? & ? & ? & _).
  assert (∀ s', _handle_command E command s' =
    (Normal tt, set_trace (trace s' ++ [LogError ("Unknown command: " +:+ command)]) s')) as Hh.
  { intros s'. unfold _handle_command. run. by rewrite !decide_False. }
  split; [done|].
  unfold _run_server_body. cbv beta iota delta [bind try_except log_info emit modify effect].
  rewrite Hh. unfold set_trace. simpl. by rewrite <- !app_assoc.
Qed.

Lemma unknown_command_witness :
  ("PAUSE" ∉ commands) ∧
  _handle_command calm "PAUSE" (init "C:/stt") =
    (Normal tt, set_trace [LogError "Unknown command: PAUSE"] (init "C:/stt")).
Proof.
  assert (H : "PAUSE" ∉ commands) by (apply (bool_decide_unpack _); vm_compute; exact I).
  split; [exact H | exact (proj1 (unknown_command calm "PAUSE" (init "C:/stt") H))].
Defined.

(** Busy rejection: in every state the process reaches, whatever commands
    and worker steps led to it, [current_mode] is [None] or one of the three
    modes; and a command that starts mode [y] while a different mode [x] is
    the current one leaves the state as it is, [current_mode] included, and
    prints the busy message. *)
Lemma busy_rejection E s :
  reachable E s →
  valid_mode s ∧
  ∀ command x y,
    launches command = Some y → current_mode s = Some x → x ≠ y →
    _handle_command E command s =
      (Normal tt, set_trace (trace s ++ [Print (busy_message y x)]) s).
Proof.
  intros Hr. destruct (reachable_well_formed E s Hr) as (Hv & _ & _).
  split; [done|].
  intros command x y Hl Hx Hne. unfold valid_mode, is_mode in Hv. rewrite Hx in Hv.
  unfold launches in Hl. unfold _handle_command.
  repeat case_decide; simplify_eq.
  - unfold _toggle_realtime. run. rewrite Hx.
    destruct Hv as [|[|[|]]]; by simplify_eq.
  - unfold _start_longform. run. rewrite Hx.
    destruct Hv as [|[|[|]]]; by simplify_eq.
  - unfold _run_static. run. rewrite Hx.
    destruct Hv as [|[|[|]]]; by simplify_eq.
Qed.

Example busy_rejection_longform :
  _handle_command calm "TOGGLE_REALTIME"
    (exec calm [Connection (Some "START_LONGFORM")] (started calm)) =
    (Normal tt,
     set_trace (trace (exec calm [Connection (Some "START_LONGFORM")] (started calm)) ++
                [Print (busy_message "realtime" "longform")])
       (exec calm [Connection (Some "START_LONGFORM")] (started calm))).
Proof.
  assert (Hr : reachable calm (exec calm [Connection (Some "START_LONGFORM")] (started calm))).
  { exists "C:/stt", (started calm), [Connection (Some "START_LONGFORM")].
    split; [by vm_compute | reflexivity]. }
  apply (busy_rejection calm _ Hr); [reflexivity | by vm_compute | done].
Qed.

Lemma new_events_app s s' (evs : list event) :
  trace s' = (trace s ++ evs)%list → new_events s s' = evs.
Proof. intros H. unfold new_events. rewrite H. apply drop_app_length. Qed.

Lemma bind_normal {A B} (m : M A) (k : A → M B) s a s1 :
  m s = (Normal a, s1) → bind m k s = k a s1.
Proof. intros H. unfold bind. by rewrite H. Qed.

Lemma external_spec E c s :
  external E c s =
    match raises E (clock s) c with
    | Some e => (Raised e, set_clock (S (clock s)) (set_trace (trace s ++ [Call c]) s))
    | None => (Normal (clock s), set_clock (S (clock s)) (set_trace (trace s ++ [Call c]) s))
    end.
Proof.
  unfold external. cbv beta iota delta [bind emit modify tick ret raise]. cbn [clock set_trace].
  by destruct (raises E (clock s) c).
Qed.

(** C8. Companion identity: once the companion has been launched, its
    identity is the new PID when the snapshot after the launch has exactly
    one PID that the snapshot before it lacks, and is unknown otherwise;
    terminating with an unknown identity does nothing at all, and terminating
    with a known one calls kill on that PID and on nothing else. *)
Theorem companion_identity E s :
  (∀ s1,
     _kill_leftover_ahk E s = (Normal tt, s1) →
     raises E (S (clock s1)) (Popen (os_path_join E (script_dir s1) "STT_hotkeys.ahk")) = None →
     let new_pids := ahk_pids (process_iter E (S (S (clock s1)))) ∖
                     ahk_pids (process_iter E (clock s1)) in
     (∀ p, new_pids = {[p]} → ahk_pid (start_ahk_script E s).2 = Some p) ∧
     (size new_pids ≠ 1 → ahk_pid (start_ahk_script E s).2 = None)) ∧
  (ahk_pid s = None → stop_ahk_script E s = (Normal tt, s)) ∧
  (∀ p, ahk_pid s = Some p →
     ∃ tail,
       new_events s (stop_ahk_script E s).2 =
         ([LogInfo ("Killing AHK script with PID=" +:+ pretty p); Call (Kill p)] ++ tail)%list ∧
       ∀ c, Call c ∉ tail).
Proof.
  split_and!.
  - intros s1 Hk Hp new_pids. unfold start_ahk_script. rewrite (bind_normal _ _ _ _ _ Hk).
    cbv beta iota delta [bind ret raise get modify emit log_info effect snapshot tick external].
    simpl. rewrite Hp. simpl. fold new_pids. split.
    + intros p Hnew. rewrite Hnew, size_singleton, elements_singleton. by simpl.
    + intros Hsize. by rewrite decide_False.
  - intros Hp. unfold stop_ahk_script. run. by rewrite Hp.
  - intros p Hp. unfold stop_ahk_script.
    cbv beta iota delta [bind ret raise get modify emit log_info log_error try_except
                         external tick].
    simpl. rewrite Hp. destruct (raises E (clock s) (Kill p)) as [e|]; simpl.
    + exists [LogError ("Failed to kill AHK process: " +:+ exn_msg e)]. split.
      * apply new_events_app. simpl. by rewrite <- !app_assoc.
      * intros c Hc. apply list_elem_of_singleton in Hc. discriminate.
    + exists []. split.
      * apply new_events_app. simpl. by rewrite <- !app_assoc.
      * intros c Hc. by apply elem_of_nil in Hc.
Qed.

Lemma companion_identity_witness :
  ahk_pid (start_ahk_script calm launching).2 = Some 4242%Z ∧
  ∃ tail,
    new_events (started calm) (stop_ahk_script calm (started calm)).2 =
      ([LogInfo ("Killing AHK script with PID=" +:+ pretty 4242%Z); Call (Kill 4242%Z)] ++
       tail)%list ∧
    ∀ c, Call c ∉ tail.
Proof.
  split.
  - assert (Hk : _kill_leftover_ahk calm launching =
                 (Normal tt, (_kill_leftover_ahk calm launching).2))
      by (vm_compute; reflexivity).
    assert (Hp : raises calm (S (clock (_kill_leftover_ahk calm launching).2))
                   (Popen (os_path_join calm
                             (script_dir (_kill_leftover_ahk calm launching).2)
                             "STT_hotkeys.ahk")) = None) by reflexivity.
    assert (Hnew : ahk_pids (process_iter calm
                               (S (S (clock (_kill_leftover_ahk calm launching).2)))) ∖
                   ahk_pids (process_iter calm (clock (_kill_leftover_ahk calm launching).2)) =
                   {[4242%Z]}) by (vm_compute; reflexivity).
    exact (proj1 (proj1 (companion_identity calm launching) _ Hk Hp) 4242%Z Hnew).
  - assert (Hpid : ahk_pid (started calm) = Some 4242%Z) by (vm_compute; reflexivity).
    exact (proj2 (proj2 (companion_identity calm (started calm))) 4242%Z Hpid).
Defined.

(** * Acquisition, step by step *)

(** Two states with the same fields are the same state. *)
Lemma state_ext s s' :
  script_dir s = script_dir s' → running s = running s' →
  server_thread s = server_thread s' → current_mode s = current_mode s' →
  ahk_pid s = ahk_pid s' → modules s = modules s' → transcribers s = transcribers s' →
  objects s = objects s' → next_ref s = next_ref s' → threads s = threads s' →
  current_thread s = current_thread s' → exit_code s = exit_code s' →
  clock s = clock s' → trace s = trace s' → s = s'.
Proof. destruct s, s'. simpl. intros. by subst. Qed.

(** Two descriptions of the same state, up to the nesting of updates and of
    appends to the trace. *)
Ltac state_eq :=
  lazymatch goal with
  | |- (_, _) = (_, _) => apply (f_equal2 pair); [reflexivity|]
  | _ => idtac
  end;
  apply state_ext; simpl; rewrite <- ?app_assoc; reflexivity.

Section AcquisitionFacts.

Context (E : Env).

(** What [initialize_transcriber] does for a mode that is not cached, in
    terms of the outcome of the import and of the constructor. *)
Lemma initialize_transcriber_uncached k s :
  k ∈ modes → dict_get (transcribers s) k = None →
  initialize_transcriber E k s =
    match import_module_lazily E k s with
    | (Normal (Some _), s1) =>
        match raises E (clock s1) (constructor_call k) with
        | Some e =>
            (Normal None,
             set_trace (trace (constructing k s1) ++
                        [LogError ("Error initializing " +:+ k +:+ " transcriber: " +:+ exn_msg e)])
               (constructing k s1))
        | None =>
            (Normal (Some (next_ref s1)),
             set_trace (trace (constructing k s1) ++
                        [LogInfo (capitalize k +:+ " transcriber initialized successfully")])
               (with_new_transcriber k (class_of k) (constructing k s1)))
        end
    | (Normal None, s1) =>
        (Normal None, set_trace (trace s1 ++ [LogError ("Failed to import " +:+ k +:+ " module")]) s1)
    | (Raised e, s1) => (Raised e, s1)
    | (Exited c, s1) => (Exited c, s1)
    end.
Proof.
  intros Hk Hc. unfold initialize_transcriber.
  unfold bind at 1, get. rewrite Hc. unfold bind at 1.
  destruct (import_module_lazily E k s) as [[[m|]|e|c] s1]; [|done..].
  unfold modes in Hk. rewrite !elem_of_cons, elem_of_nil in Hk.
  destruct Hk as [->|[->|[->|[]]]];
    cbv beta iota delta [bind ret raise get modify emit log_info log_error safe_print
                         try_except tick construct external alloc store_transcriber];
    simpl.
  all: destruct (raises E (clock s1) _); simpl; [state_eq|].
  all: rewrite dict_get_set_eq; state_eq.
Qed.

(** A successful import either finds the module cached and does nothing, or
    executes the module's file once and caches the module. *)
Lemma import_module_lazily_some k s m s1 :
  import_module_lazily E k s = (Normal (Some m), s1) →
  (modules s !! k = Some m ∧ s1 = s) ∨
  (modules s !! k = None ∧
   s1 = set_trace (trace s ++ [Call (ExecModule k (mod_file m));
                               LogInfo ("Successfully imported module: " +:+ k)])
          (set_modules (<[k := m]> (modules s)) (set_clock (S (S (S (clock s)))) s))).
Proof.
  unfold import_module_lazily.
  cbv beta iota delta [bind ret raise get modify emit log_info log_error try_except tick
                       external ask].
  simpl. destruct (modules s !! k) as [m'|] eqn:Hm.
  - intros [= -> ->]. by left.
  - repeat (case_match; simpl); intros ?; simplify_eq. right. split; [done|]. state_eq.
Qed.

Lemma initialize_transcriber_cached k s t :
  dict_get (transcribers s) k = Some t →
  initialize_transcriber E k s = (Normal (Some t), s).
Proof. intros H. unfold initialize_transcriber, bind, get, ret. by rewrite H. Qed.

Lemma construct_once k (before : list event) msg :
  filter is_construct before = [] →
  length (filter is_construct
            (before ++ [Print (initializing_message k); Call (constructor_call k);
                        LogInfo msg])%list) = 1%nat.
Proof.
  intros Hb. rewrite filter_app, Hb. unfold constructor_call.
  repeat case_decide; reflexivity.
Qed.

Lemma import_once k path msg msg' :
  length (filter is_import
            [Call (ExecModule k path); LogInfo msg; Print (initializing_message k);
             Call (constructor_call k); LogInfo msg']) = 1%nat.
Proof. unfold constructor_call. repeat case_decide; reflexivity. Qed.

(** C4. Idempotent acquisition: after an acquisition for a mode has returned
    a transcriber, the next acquisition returns the same instance and does
    nothing else, the state and the trace staying as they are; in the first
    of the two the constructor was called once if the transcriber was not
    cached yet, and the module's file was executed once if the module had not
    been imported yet. *)
Theorem idempotent_acquisition k s t s1 :
  k ∈ modes →
  initialize_transcriber E k s = (Normal (Some t), s1) →
  initialize_transcriber E k s1 = (Normal (Some t), s1) ∧
  (is_Some (dict_get (transcribers s) k) → s1 = s) ∧
  (dict_get (transcribers s) k = None →
     length (filter is_construct (new_events s s1)) = 1%nat ∧
     (modules s !! k = None → length (filter is_import (new_events s s1)) = 1%nat)).
Proof.
  intros Hk H. destruct (dict_get (transcribers s) k) as [t'|] eqn:Hc.
  - rewrite (initialize_transcriber_cached k s t' Hc) in H. simplify_eq.
    split_and!; [by apply initialize_transcriber_cached | done | done].
  - rewrite initialize_transcriber_uncached in H by done.
    destruct (import_module_lazily E k s) as [[[m|]|e|c] s0] eqn:Hi; [|done..].
    destruct (raises E (clock s0) (constructor_call k)); [done|]. simplify_eq.
    split_and!.
    + apply initialize_transcriber_cached. simpl. apply dict_get_set_eq.
    + by intros [? ?].
    + intros _. destruct (import_module_lazily_some k s m s0 Hi) as [[Hm ->]|[Hm ->]].
      * rewrite (new_events_app _ _
          [Print (initializing_message k); Call (constructor_call k);
           LogInfo (capitalize k +:+ " transcriber initialized successfully")])
          by (simpl; by rewrite <- !app_assoc).
        split; [by apply (construct_once k []) | by rewrite Hm].
      * rewrite (new_events_app _ _
          [Call (ExecModule k (mod_file m)); LogInfo ("Successfully imported module: " +:+ k);
           Print (initializing_message k); Call (constructor_call k);
           LogInfo (capitalize k +:+ " transcriber initialized successfully")])
          by (simpl; by rewrite <- !app_assoc).
        split; [by apply (construct_once k [_; _]) | intros _; apply import_once].
Qed.

(** What a start handler does when the acquisition fails. *)
Lemma start_handler_acquisition_failed command k s s2 :
  launches command = Some k → truthy (current_mode s) = false →
  initialize_transcriber E k s = (Normal None, s2) →
  ∃ msg, _handle_command E command s = (Normal tt, set_trace (trace s2 ++ [Print msg]) s2).
Proof.
  intros Hl Hm Hi. unfold launches in Hl. unfold _handle_command.
  repeat case_decide; simplify_eq.
  - unfold _toggle_realtime. unfold try_except at 1, bind at 1, get. rewrite Hm. simpl.
    rewrite bool_decide_false by (intros Hr; by rewrite Hr in Hm).
    unfold try_except, bind. rewrite Hi. by eexists.
  - unfold _start_longform. unfold try_except at 1, bind at 1, get. rewrite Hm.
    unfold try_except, bind. rewrite Hi. by eexists.
  - unfold _run_static. unfold try_except at 1, bind at 1, get. rewrite Hm.
    unfold try_except, bind. rewrite Hi. by eexists.
Qed.

(** C5. Failure of the constructor: when the transcriber of a mode is not
    cached, its module imports and its constructor raises, the acquisition
    returns nothing, logs the error as its last event and caches nothing
    under the mode's key; the start command of the mode, arriving while no
    mode is active, ends with [current_mode] as it was and the key still
    uncached; and the next acquisition calls the constructor again, caching
    the transcriber if the constructor succeeds this time. *)
Theorem init_failure_atomic k s m s1 e :
  k ∈ modes →
  dict_get (transcribers s) k = None →
  import_module_lazily E k s = (Normal (Some m), s1) →
  raises E (clock s1) (constructor_call k) = Some e →
  ∃ s2,
    initialize_transcriber E k s = (Normal None, s2) ∧
    last (trace s2) =
      Some (LogError ("Error initializing " +:+ k +:+ " transcriber: " +:+ exn_msg e)) ∧
    dict_get (transcribers s2) k = None ∧
    current_mode s2 = current_mode s ∧
    (∀ command,
       launches command = Some k → truthy (current_mode s) = false →
       current_mode (_handle_command E command s).2 = current_mode s ∧
       dict_get (transcribers (_handle_command E command s).2) k = None) ∧
    (raises E (clock s2) (constructor_call k) = None →
     ∃ t s3,
       initialize_transcriber E k s2 = (Normal (Some t), s3) ∧
       Call (constructor_call k) ∈ new_events s2 s3 ∧
       dict_get (transcribers s3) k = Some t).
Proof.
  intros Hk Hc Hi He.
  pose proof (initialize_transcriber_uncached k s Hk Hc) as Hinit.
  rewrite Hi, He in Hinit.
  assert (transcribers s1 = transcribers s ∧ current_mode s1 = current_mode s ∧
          modules s1 !! k = Some m) as (Ht & Hm & Hmod).
  { destruct (import_module_lazily_some k s m s1 Hi) as [[? ->]|[? ->]]; [done|].
    simpl. by rewrite lookup_insert_eq. }
  eexists. split; [exact Hinit|]. split_and!.
  - simpl. by rewrite last_snoc.
  - simpl. by rewrite Ht.
  - done.
  - intros command Hl Hf.
    destruct (start_handler_acquisition_failed command k s _ Hl Hf Hinit) as [msg ->].
    simpl. by rewrite Ht.
  - intros Hok.
    match goal with |- context [initialize_transcriber E k ?s2] => set (s2' := s2) in * end.
    assert (Hc2 : dict_get (transcribers s2') k = None) by (simpl; by rewrite Ht).
    pose proof (initialize_transcriber_uncached k s2' Hk Hc2) as Hinit2.
    assert (Hi2 : import_module_lazily E k s2' = (Normal (Some m), s2')).
    { unfold import_module_lazily, bind, get, ret. simpl. by rewrite Hmod. }
    rewrite Hi2, Hok in Hinit2. do 2 eexists. split; [exact Hinit2|]. split.
    + erewrite new_events_app; [|simpl; by rewrite <- !app_assoc].
      apply elem_of_cons; right. apply elem_of_cons; by left.
    + simpl. apply dict_get_set_eq.
Qed.

End AcquisitionFacts.

Lemma idempotent_acquisition_witness :
  ("longform" ∈ modes) ∧
  initialize_transcriber calm "longform" (init "C:/stt") =
    (Normal (Some 1), (initialize_transcriber calm "longform" (init "C:/stt")).2) ∧
  initialize_transcriber calm "longform" (initialize_transcriber calm "longform" (init "C:/stt")).2 =
    (Normal (Some 1), (initialize_transcriber calm "longform" (init "C:/stt")).2).
Proof.
  assert (Hk : "longform" ∈ modes) by (apply (bool_decide_unpack _); vm_compute; exact I).
  assert (H : initialize_transcriber calm "longform" (init "C:/stt") =
              (Normal (Some 1), (initialize_transcriber calm "longform" (init "C:/stt")).2))
    by (vm_compute; reflexivity).
  split; [exact Hk|]. split; [exact H|].
  exact (proj1 (idempotent_acquisition calm "longform" (init "C:/stt") 1 _ Hk H)).
Defined.

Lemma init_failure_atomic_witness :
  ∃ s2, initialize_transcriber no_static "static" (started no_static) = (Normal None, s2) ∧
        dict_get (transcribers s2) "static" = None ∧
        current_mode (_handle_command no_static "RUN_STATIC" (started no_static)).2 = None.
Proof.
  assert (Hk : "static" ∈ modes) by (apply (bool_decide_unpack _); vm_compute; exact I).
  assert (Hc : dict_get (transcribers (started no_static)) "static" = None)
    by (vm_compute; reflexivity).
  assert (Hi : import_module_lazily no_static "static" (started no_static) =
               (Normal (Some {| mod_name := "static"; mod_file := "C:/stt/static_module.py" |}),
                (import_module_lazily no_static "static" (started no_static)).2))
    by (vm_compute; reflexivity).
  assert (He : raises no_static
                 (clock (import_module_lazily no_static "static" (started no_static)).2)
                 (constructor_call "static") = Some (Exception "RuntimeError" "no display" eq_refl))
    by (vm_compute; reflexivity).
  destruct (init_failure_atomic no_static "static" (started no_static) _ _ _ Hk Hc Hi He)
    as (s2 & H1 & _ & H3 & _ & H5 & _).
  exists s2. split; [exact H1|]. split; [exact H3|].
  exact (proj1 (H5 "RUN_STATIC" eq_refl eq_refl)).
Defined.

(** * Toggling realtime *)

Section Toggle.

Context (E : Env).

(** [stop] of the realtime transcriber catches what the recorder raises. *)
Lemma LongFormTranscriber_stop_normal r s o :
  objects s !! r = Some (RealtimeTranscriber o) →
  (LongFormTranscriber_stop E r s).1 = Normal tt.
Proof.
  intros Ho. unfold LongFormTranscriber_stop.
  cbv beta iota delta [bind ret raise get modify emit try_except set_attr get_attr
                       module_print external tick].
  simpl. rewrite lookup_alter_eq, Ho. simpl.
  destruct (LongFormTranscriber.recorder o) as [n|]; simpl; [|done].
  destruct (raises E (clock s) (RecorderMethod n "abort")); simpl; [done|].
  by destruct (raises E (S (clock s)) (RecorderMethod n "shutdown")).
Qed.

Lemma toggle_realtime_off s :
  realtime_ok s → current_mode s = Some "realtime" →
  current_mode (_handle_command E "TOGGLE_REALTIME" s).2 = None.
Proof.
  intros Hok Hm. unfold _handle_command. rewrite decide_True by done.
  unfold _toggle_realtime.
  cbv beta iota delta [bind ret get modify emit log_error safe_print try_except set_mode
                       set_attr call_method].
  simpl. rewrite Hm. simpl.
  destruct (dict_get (transcribers s) "realtime") as [t|] eqn:Ht; [|done].
  destruct (Hok t Ht) as [o Ho].
  change (objects (set_trace (trace s ++ [Print "Stopping real-time transcription..."]) s))
    with (objects s).
  rewrite lookup_alter_eq, Ho. simpl.
  match goal with |- context [LongFormTranscriber_stop E t ?st] =>
    pose proof (LongFormTranscriber_stop_normal t st
                  (LongFormTranscriber.set_running false o)) as Hn;
    destruct (LongFormTranscriber_stop E t st) as [r s3] end.
  simpl in Hn. rewrite lookup_alter_eq, Ho in Hn. rewrite Hn by done. done.
Qed.

Lemma start_while_same_mode command k s :
  launches command = Some k → k ≠ "realtime" → current_mode s = Some k →
  _handle_command E command s =
    (Normal tt, set_trace (trace s ++ [Print (busy_message k k)]) s).
Proof.
  intros Hl Hne Hm. unfold launches in Hl. unfold _handle_command.
  repeat case_decide; simplify_eq.
  - unfold _start_longform. cbv beta iota delta [bind get safe_print emit modify try_except].
    by rewrite Hm.
  - unfold _run_static. cbv beta iota delta [bind get safe_print emit modify try_except].
    by rewrite Hm.
Qed.

Lemma well_formed__handle_command command : preserves well_formed (_handle_command E command).
Proof. apply preserves__handle_command; well_formed_closure. Qed.

(** TOGGLE_REALTIME while no mode is active is a start attempt: it acquires
    the realtime transcriber, and what happens next depends on the outcome
    of the acquisition. *)
Lemma toggle_realtime_on s :
  current_mode s = None →
  (∀ s1, initialize_transcriber E "realtime" s = (Normal None, s1) →
         _handle_command E "TOGGLE_REALTIME" s =
           (Normal tt,
            set_trace (trace s1 ++ [Print "Failed to initialize real-time transcriber."]) s1) ∧
         current_mode s1 = None) ∧
  (∀ t s1, initialize_transcriber E "realtime" s = (Normal (Some t), s1) →
           raises E (clock s1) (ThreadStart "_run_realtime") = None →
           current_mode (_handle_command E "TOGGLE_REALTIME" s).2 = Some "realtime" ∧
           threads (_handle_command E "TOGGLE_REALTIME" s).2 =
             (threads s1 ++ [Ready "_run_realtime"])%list).
Proof.
  intros Hm.
  assert (Hstart : _handle_command E "TOGGLE_REALTIME" s =
    try_except
      (try_except
         (transcriber <- initialize_transcriber E "realtime";;
          match transcriber with
          | None => safe_print "Failed to initialize real-time transcriber."
          | Some _ =>
              safe_print "Starting real-time transcription...";;
              set_mode (Some "realtime");;
              spawn E "_run_realtime"
          end)
         (λ e,
          log_error ("Error starting real-time transcription: " +:+ exn_msg e);;
          set_mode None))
      (λ e, log_error ("Error handling command " +:+ "TOGGLE_REALTIME" +:+ ": " +:+ exn_msg e))
      s).
  { unfold _handle_command. rewrite decide_True by done. unfold _toggle_realtime.
    unfold try_except at 1 3, bind at 1, get. by rewrite Hm. }
  rewrite Hstart. clear Hstart. split.
  - intros s1 Hi. split.
    + unfold try_except, bind. by rewrite Hi.
    + assert (Closed (λ s', current_mode s' = None)) by (split; closure).
      pose proof (preserves_initialize_transcriber E (λ s', current_mode s' = None)) as Hp.
      specialize (Hp ltac:(closure) ltac:(closure) "realtime" s Hm). by rewrite Hi in Hp.
  - intros t s1 Hi Hth.
    match goal with |- current_mode (?m s).2 = _ ∧ _ =>
      cut (∃ s', m s = (Normal tt, s') ∧ current_mode s' = Some "realtime" ∧
                 threads s' = (threads s1 ++ [Ready "_run_realtime"])%list) end.
    { intros (s' & -> & ? & ?). done. }
    unfold try_except, bind at 1. rewrite Hi.
    unfold spawn. rewrite (bind_normal _ _ _ tt
      (set_trace (trace s1 ++ [Print "Starting real-time transcription..."]) s1)) by done.
    rewrite (bind_normal _ _ _ tt
      (set_current_mode (Some "realtime")
         (set_trace (trace s1 ++ [Print "Starting real-time transcription..."]) s1))) by done.
    unfold bind at 1. rewrite external_spec. cbn [clock set_current_mode set_trace].
    rewrite Hth. eexists. split; [reflexivity|]. by split.
Qed.


End Toggle.

Lemma started_reachable E :
  (run_startup E (init "C:/stt")).1 = Normal tt → reachable E (started E).
Proof.
  intros H. exists "C:/stt", (started E), []. split; [|done].
  unfold started. destruct (run_startup E (init "C:/stt")) as [r s0]. simpl in *. by subst.
Qed.

Lemma reachable_exec E ls s : reachable E s → reachable E (exec E ls s).
Proof.
  intros (dir & s0 & ls0 & H0 & ->). exists dir, s0, (ls0 ++ ls)%list. split; [done|].
  clear H0. revert s0. induction ls0 as [|l ls0 IH]; intros s0; simpl; [done|]. apply IH.
Qed.



(** * Shutdown *)

Section Shutdown.

Context (E : Env).

Lemma hoare_bind_normal {B} (P R Q : State → Prop) (m : M unit) (k : unit → M B) :
  (∀ s, (m s).1 = Normal tt) → hoare P m R → (∀ a, hoare R (k a) Q) → hoare P (bind m k) Q.
Proof.
  intros Hn Hm Hk s H. unfold bind. specialize (Hm s H). specialize (Hn s).
  destruct (m s) as [[a|e|c] s']; simpl in *; try done. by apply Hk.
Qed.

Lemma stop_running_false s : running (stop E s).2 = false.
Proof.
  assert (Closed (λ s', running s' = false)) by (split; closure).
  cut (hoare (λ _, True) (stop E) (λ s', running s' = false)); [intros Hc; by apply Hc|].
  unfold stop. apply hoare_try_except with (R := λ s', running s' = false).
  - apply hoare_bind_get. intros [|]; simpl.
    + apply hoare_bind with (R := λ s', running s' = false).
      * by intros ? _.
      * done.
      * intros _. pres.
    + by intros ? [_ ?].
  - done.
  - intros e. pres.
Qed.

Lemma stop_keeps_mode s : current_mode (stop E s).2 = current_mode s.
Proof.
  assert (Closed (λ s', current_mode s' = current_mode s)) by (split; closure).
  by apply (preserves_stop E (λ s', current_mode s' = current_mode s)); [closure|].
Qed.

(** When the companion's PID is known, [stop] of a running orchestrator
    calls kill on it. *)
Lemma stop_kills_companion s p n :
  running s = true → ahk_pid s = Some p → (n ≤ length (trace s))%nat →
  Call (Kill p) ∈ drop n (trace (stop E s).2).
Proof.
  intros Hr Hp Hn.
  set (Before := λ s', ahk_pid s' = Some p ∧ (n ≤ length (trace s'))%nat).
  set (After := λ s', Call (Kill p) ∈ drop n (trace s')).
  assert (Closed Before).
  { split; try closure. intros s' ev [? ?]. split; [done|]. simpl. rewrite length_app. lia. }
  assert (Closed After).
  { split; try closure. intros s' ev Hin. unfold After. simpl.
    rewrite drop_app. apply elem_of_app. by left. }
  cut (hoare (λ s', s' = s) (stop E) After); [intros Hc; by apply Hc|].
  unfold stop. apply hoare_try_except with (R := After); [|done|intros; pres].
  apply hoare_bind_get. intros r.
  apply hoare_weaken with (P := λ s', Before s' ∧ r = true).
  { intros ? [-> <-]. by split_and!. }
  destruct r; simpl; [|by intros ? [_ ?]].
  apply hoare_weaken with (P := Before); [by intros ? [? _]|].
  apply hoare_bind_normal with (R := Before); [done|by intros ? [? ?]|intros _].
  apply hoare_bind_normal with (R := Before).
  { intros s'. apply try_except_normal; [|done]. unfold log_info, log_error. no_exit. }
  { pres. }
  intros _. apply hoare_bind with (R := After); [|done|intros; pres].
  intros s' [Hp' Hn']. unfold stop_ahk_script.
  cbv beta iota delta [bind ret raise get modify emit log_info log_error try_except
                       external tick].
  simpl. rewrite Hp'. unfold After.
  destruct (raises E (clock s') (Kill p)); simpl;
    rewrite <- ?app_assoc, drop_app, elem_of_app; right;
    replace (n - length (trace s'))%nat with 0%nat by lia; simpl;
    rewrite !elem_of_cons; tauto.
Qed.

(** The listener processing QUIT. *)
Lemma quit_step s t :
  exit_code s = None → running s = true → server_thread s = Some t →
  step E (Connection (Some "QUIT")) s =
    set_exit_code (Some 0%Z)
      (set_trace
         (trace (stop E (set_trace (trace s ++ [LogInfo "Received command: QUIT";
                                                Print "Quitting application..."])
                           (set_current_thread t s))).2 ++ [Call (OsExit 0)])
         (stop E (set_trace (trace s ++ [LogInfo "Received command: QUIT";
                                         Print "Quitting application..."])
                    (set_current_thread t s))).2).
Proof.
  intros Hx Hr Ht. unfold step. rewrite Hx, Ht, Hr.
  unfold _run_server_body, _handle_command.
  cbv beta iota delta [bind try_except log_info emit modify].
  rewrite !decide_False, decide_True by done. rewrite _quit_exits. simpl.
  match goal with |- context [stop E ?st] =>
    replace st with (set_trace (trace s ++ [LogInfo "Received command: QUIT";
                                           Print "Quitting application..."])
                       (set_current_thread t s)) by state_eq end.
  done.
Qed.


(** C10. Shutdown idempotence: with the running flag already false, [stop]
    returns at once, leaves the state untouched and calls nothing; [stop]
    always leaves the flag false, so a second [stop] right after a first adds
    nothing to what the first did. *)
Theorem stop_idempotent s :
  (running s = false → stop E s = (Normal tt, s)) ∧
  running (stop E s).2 = false ∧
  (stop E;; stop E) s = stop E s.
Proof.
  assert (Hoff : ∀ s', running s' = false → stop E s' = (Normal tt, s')).
  { intros s' Hs'. unfold stop. run. by rewrite Hs'. }
  split_and!; [apply Hoff | apply stop_running_false |].
  unfold bind. pose proof (stop_normal E s) as Hn. pose proof (stop_running_false s) as Hf.
  destruct (stop E s) as [r s1]. simpl in *. subst r. by apply Hoff.
Qed.

End Shutdown.

Lemma stop_idempotent_witness :
  running (init "C:/stt") = false ∧ stop calm (init "C:/stt") = (Normal tt, init "C:/stt").
Proof.
  split; [reflexivity | exact (proj1 (stop_idempotent calm (init "C:/stt")) eq_refl)].
Defined.




(** * The lifecycle of handles *)

(** Evaluates the reads of an object's attributes after assignments to them. *)
Ltac look_up Ho :=
  repeat first
    [ rewrite lookup_alter_eq
    | rewrite Ho
    | progress cbn [objects set_objects set_trace set_clock set_next_ref set_current_mode
                    clock current_mode negb fmap option_fmap option_map on_transcriber
                    LongFormTranscriber.recorder LongFormTranscriber.running
                    LongFormTranscriber.text_buffer LongFormTranscriber.set_text_buffer
                    LongFormTranscriber.set_running LongFormTranscriber.set_recorder
                    LongFormTranscriber.set_model_initialized] ].

Section Lifecycle.

Context (E : Env).

(** A cached transcriber stays cached, under the same reference. *)
Lemma cache_kept ls k t s :
  dict_get (transcribers s) k = Some t → dict_get (transcribers (exec E ls s)) k = Some t.
Proof.
  intros H.
  assert (Closed (λ s', dict_get (transcribers s') k = Some t)) by (split; closure).
  apply (preserves_exec E (λ s', dict_get (transcribers s') k = Some t));
    [closure | | closure.. | done].
  intros s' k' cls _ Hnone Hsome. simpl.
  rewrite dict_get_set_ne; [done|]. intros ->. congruence.
Qed.

Lemma stop_discards_recorder r o s :
  objects s !! r = Some (RealtimeTranscriber o) →
  ∃ o', objects (LongFormTranscriber_stop E r s).2 !! r = Some (RealtimeTranscriber o') ∧
        LongFormTranscriber.recorder o' = None.
Proof.
  intros Ho. unfold LongFormTranscriber_stop.
  cbv beta iota delta [bind ret raise get modify emit try_except set_attr get_attr
                       module_print external tick].
  simpl. rewrite lookup_alter_eq, Ho. simpl.
  destruct (LongFormTranscriber.recorder o) as [n|] eqn:Hrec; simpl.
  - destruct (raises E (clock s) (RecorderMethod n "abort")); simpl;
      [|destruct (raises E (S (clock s)) (RecorderMethod n "shutdown")); simpl];
      rewrite !lookup_alter_eq, Ho; simpl; by eexists.
  - rewrite lookup_alter_eq, Ho. simpl. by eexists.
Qed.

Lemma start_creates_recorder r o s :
  objects s !! r = Some (RealtimeTranscriber o) →
  (∀ n, LongFormTranscriber.recorder o = Some n → _initialize_recorder E r s = (Normal true, s)) ∧
  (LongFormTranscriber.recorder o = None → raises E (clock s) NewRecorder = None →
   ∃ o', objects (_initialize_recorder E r s).2 !! r = Some (RealtimeTranscriber o') ∧
         LongFormTranscriber.recorder o' = Some (next_ref s)).
Proof.
  intros Ho. unfold _initialize_recorder.
  cbv beta iota delta [bind ret raise get modify emit try_except set_attr get_attr
                       module_print external tick fresh].
  simpl. rewrite Ho. split.
  - by intros n ->.
  - intros -> ->. simpl. rewrite !lookup_alter_eq, Ho. simpl. by eexists.
Qed.

Lemma start_enter_recorder r o s :
  objects s !! r = Some (RealtimeTranscriber o) →
  (∀ n, LongFormTranscriber.recorder o = Some n →
     ∃ s' o',
       LongFormTranscriber_start_enter E r s = (Normal true, s') ∧
       objects s' !! r = Some (RealtimeTranscriber o') ∧
       LongFormTranscriber.recorder o' = Some n ∧
       Call NewRecorder ∉ new_events s s') ∧
  (LongFormTranscriber.recorder o = None → raises E (clock s) NewRecorder = None →
     ∃ s' o',
       LongFormTranscriber_start_enter E r s = (Normal true, s') ∧
       objects s' !! r = Some (RealtimeTranscriber o') ∧
       LongFormTranscriber.recorder o' = Some (next_ref s) ∧
       Call NewRecorder ∈ new_events s s').
Proof.
  intros Ho. unfold LongFormTranscriber_start_enter, _initialize_recorder.
  cbv beta iota delta [bind ret raise get modify emit try_except set_attr get_attr
                       module_print external tick fresh].
  split.
  - intros n Hn. look_up Ho. rewrite Hn. look_up Ho.
    eexists _, (LongFormTranscriber.set_running true o).
    split; [reflexivity|]. look_up Ho. rewrite Hn. split_and!; [done..|].
    erewrite new_events_app; [|simpl; by rewrite <- !app_assoc].
    cbn [app]. rewrite !not_elem_of_cons. split_and!; try discriminate. apply not_elem_of_nil.
  - intros Hn Hraise. look_up Ho. rewrite Hn. look_up Ho. rewrite Hraise. look_up Ho.
    eexists _, (LongFormTranscriber.set_running true
                  (LongFormTranscriber.set_model_initialized true
                     (LongFormTranscriber.set_recorder (Some (next_ref s)) o))).
    split; [reflexivity|]. look_up Ho. split_and!; [done..|].
    erewrite new_events_app; [|simpl; by rewrite <- !app_assoc].
    cbn [app]. apply elem_of_cons. by left.
Qed.

Lemma stop_recorder r o s :
  objects s !! r = Some (RealtimeTranscriber o) →
  ∃ s' o',
    LongFormTranscriber_stop E r s = (Normal tt, s') ∧
    objects s' !! r = Some (RealtimeTranscriber o') ∧
    LongFormTranscriber.recorder o' = None ∧
    next_ref s' = next_ref s ∧
    ∀ n, LongFormTranscriber.recorder o = Some n →
         Call (RecorderMethod n "abort") ∈ new_events s s' ∧
         (raises E (clock s) (RecorderMethod n "abort") = None →
          Call (RecorderMethod n "shutdown") ∈ new_events s s').
Proof.
  intros Ho. unfold LongFormTranscriber_stop.
  cbv beta iota delta [bind ret raise get modify emit try_except set_attr get_attr
                       module_print external tick].
  look_up Ho. destruct (LongFormTranscriber.recorder o) as [n|] eqn:Hn.
  - look_up Ho.
    destruct (raises E (clock s) (RecorderMethod n "abort")) as [e|] eqn:Ha; look_up Ho;
      [|destruct (raises E (S (clock s)) (RecorderMethod n "shutdown")) as [e|]; look_up Ho].
    all: eexists _, (LongFormTranscriber.set_model_initialized false
                       (LongFormTranscriber.set_recorder None
                          (LongFormTranscriber.set_running false o))).
    all: split; [reflexivity|]; look_up Ho; split_and!; [done..|].
    all: intros n' [= <-]; (erewrite new_events_app; [|simpl; by rewrite <- !app_assoc]).
    all: split; [apply elem_of_cons; by left|]; intros Hok; try congruence.
    all: apply elem_of_cons; right; apply elem_of_cons; by left.
  - eexists _, (LongFormTranscriber.set_running false o).
    split; [reflexivity|]. look_up Ho. rewrite Hn. split_and!; [done..|]. by intros n'.
Qed.

(** The first successful request for a mode constructs the transcriber,
    puts it in the store under a new reference and caches it. *)
Lemma acquisition_creates k s t s1 :
  k ∈ modes → dict_get (transcribers s) k = None →
  initialize_transcriber E k s = (Normal (Some t), s1) →
  Call (constructor_call k) ∈ new_events s s1 ∧
  dict_get (transcribers s1) k = Some t ∧
  objects s1 !! t = Some (new_object k (class_of k)).
Proof.
  intros Hk Hc H. rewrite initialize_transcriber_uncached in H by done.
  destruct (import_module_lazily E k s) as [[[m|]|e|c] s0] eqn:Hi; [|done..].
  destruct (raises E (clock s0) (constructor_call k)); [done|]. simplify_eq.
  split_and!.
  - destruct (import_module_lazily_some E k s m s0 Hi) as [[Hm ->]|[Hm ->]];
      (erewrite new_events_app; [|simpl; by rewrite <- !app_assoc]);
      cbn [app]; rewrite !elem_of_cons; tauto.
  - simpl. apply dict_get_set_eq.
  - simpl. apply lookup_insert_eq.
Qed.

(** C6 (amended). Handles.  The first successful request for a mode
    constructs its transcriber and caches it; a cached transcriber stays
    cached under the same reference through every step of the process, and
    every later request for the mode returns that instance and constructs
    nothing.  The recorder behind the realtime transcriber is created by
    [start] when there is none and its constructor does not raise, and
    reused by [start] when there is one; every [stop] of the transcriber
    calls [abort] on it, calls [shutdown] on it unless [abort] raised, and
    discards it; and the next [start] creates a recorder anew, again when
    the constructor does not raise. *)
Theorem handle_lifecycle s :
  (∀ k t s1,
     k ∈ modes → dict_get (transcribers s) k = None →
     initialize_transcriber E k s = (Normal (Some t), s1) →
     Call (constructor_call k) ∈ new_events s s1 ∧
     dict_get (transcribers s1) k = Some t ∧
     objects s1 !! t = Some (new_object k (class_of k))) ∧
  (∀ ls k t,
     dict_get (transcribers s) k = Some t →
     dict_get (transcribers (exec E ls s)) k = Some t ∧
     initialize_transcriber E k (exec E ls s) = (Normal (Some t), exec E ls s)) ∧
  (∀ r o,
     objects s !! r = Some (RealtimeTranscriber o) →
     (∀ n, LongFormTranscriber.recorder o = Some n →
        ∃ s' o',
          LongFormTranscriber_start_enter E r s = (Normal true, s') ∧
          objects s' !! r = Some (RealtimeTranscriber o') ∧
          LongFormTranscriber.recorder o' = Some n ∧
          Call NewRecorder ∉ new_events s s') ∧
     (LongFormTranscriber.recorder o = None → raises E (clock s) NewRecorder = None →
        ∃ s' o',
          LongFormTranscriber_start_enter E r s = (Normal true, s') ∧
          objects s' !! r = Some (RealtimeTranscriber o') ∧
          LongFormTranscriber.recorder o' = Some (next_ref s) ∧
          Call NewRecorder ∈ new_events s s') ∧
     (∃ s' o',
        LongFormTranscriber_stop E r s = (Normal tt, s') ∧
        objects s' !! r = Some (RealtimeTranscriber o') ∧
        LongFormTranscriber.recorder o' = None ∧
        (∀ n, LongFormTranscriber.recorder o = Some n →
              Call (RecorderMethod n "abort") ∈ new_events s s' ∧
              (raises E (clock s) (RecorderMethod n "abort") = None →
               Call (RecorderMethod n "shutdown") ∈ new_events s s')) ∧
        (raises E (clock s') NewRecorder = None →
         ∃ s'' o'',
           LongFormTranscriber_start_enter E r s' = (Normal true, s'') ∧
           objects s'' !! r = Some (RealtimeTranscriber o'') ∧
           LongFormTranscriber.recorder o'' = Some (next_ref s) ∧
           Call NewRecorder ∈ new_events s' s''))).
Proof.
  split_and!.
  - intros k t s1. apply acquisition_creates.
  - intros ls k t H. pose proof (cache_kept ls k t s H) as H'.
    split; [done | by apply initialize_transcriber_cached].
  - intros r o Ho. destruct (start_enter_recorder r o s Ho) as [H1 H2].
    split_and!; [done | done |].
    destruct (stop_recorder r o s Ho) as (s' & o' & Hstop & Ho' & Hrec & Href & Hcalls).
    exists s', o'. split_and!; [done..|].
    intros Hnew. destruct (proj2 (start_enter_recorder r o' s' Ho') Hrec Hnew)
      as (s'' & o'' & ? & ? & ? & ?).
    exists s'', o''. split_and!; try done. congruence.
Qed.

End Lifecycle.

Lemma handle_lifecycle_witness :
  dict_get (transcribers (exec calm [Connection (Some "TOGGLE_REALTIME"); WorkerStep 0]
                            (started calm))) "longform" = Some 2 ∧
  ∃ s' o',
    LongFormTranscriber_stop calm 3 listening = (Normal tt, s') ∧
    objects s' !! 3 = Some (RealtimeTranscriber o') ∧
    LongFormTranscriber.recorder o' = None ∧
    Call (RecorderMethod 4 "shutdown") ∈ new_events listening s' ∧
    ∃ s'' o'',
      LongFormTranscriber_start_enter calm 3 s' = (Normal true, s'') ∧
      objects s'' !! 3 = Some (RealtimeTranscriber o'') ∧
      LongFormTranscriber.recorder o'' = Some 5.
Proof.
  assert (H : dict_get (transcribers (started calm)) "longform" = Some 2)
    by (vm_compute; reflexivity).
  assert (Ho : objects listening !! 3 =
               Some (RealtimeTranscriber
                       {| LongFormTranscriber.text_buffer := "";
                          LongFormTranscriber.running := true;
                          LongFormTranscriber.recorder := Some 4;
                          LongFormTranscriber.model_initialized := true |}))
    by (vm_compute; reflexivity).
  assert (Href : next_ref listening = 5) by (vm_compute; reflexivity).
  split; [exact (proj1 (proj1 (proj2 (handle_lifecycle calm (started calm))) _ "longform" 2 H))|].
  destruct (proj2 (proj2 (proj2 (proj2 (handle_lifecycle calm listening)) 3 _ Ho)))
    as (s' & o' & Hstop & Ho' & Hrec & Hcalls & Hnext).
  destruct (Hnext eq_refl) as (s'' & o'' & Hstart & Ho'' & Hrec'' & _).
  exists s', o'. split; [exact Hstop|]. split; [exact Ho'|]. split; [exact Hrec|].
  split; [exact (proj2 (Hcalls 4 eq_refl) eq_refl)|].
  exists s'', o''. split; [exact Hstart|]. split; [exact Ho''|].
  rewrite Hrec'', Href. reflexivity.
Defined.

(** C6 as stated fails for the engine instance: toggling realtime off shuts
    the recorder down and discards it while the process keeps running, and
    toggling it on again creates another one. *)
Lemma engine_kept_counterexample : ¬ engine_kept_as_stated.
Proof.
  intros H.
  pose (s := exec calm [Connection (Some "TOGGLE_REALTIME"); WorkerStep 0] (started calm)).
  assert (Hr : reachable calm s).
  { apply reachable_exec, started_reachable. vm_compute; reflexivity. }
  assert (H1 : realtime_recorder s = Some 4) by (vm_compute; reflexivity).
  assert (Hx : exit_code (exec calm [Connection (Some "TOGGLE_REALTIME")] s) = None)
    by (vm_compute; reflexivity).
  specialize (H calm s [Connection (Some "TOGGLE_REALTIME")] 4 Hr H1 Hx).
  assert (H2 : realtime_recorder (exec calm [Connection (Some "TOGGLE_REALTIME")] s) = None)
    by (vm_compute; reflexivity).
  rewrite H2 in H. discriminate H.
Qed.

Example recorder_created_twice :
  realtime_recorder
    (exec calm [Connection (Some "TOGGLE_REALTIME"); WorkerStep 0;
                Connection (Some "TOGGLE_REALTIME"); WorkerStep 0;
                Connection (Some "TOGGLE_REALTIME"); WorkerStep 1] (started calm)) = Some 5.
Proof. vm_compute. reflexivity. Qed.

(** * Scenarios *)

(** START_LONGFORM twice: the second is rejected and the first stays active. *)
Example scenario_start_twice :
  current_mode (exec calm [Connection (Some "START_LONGFORM");
                           Connection (Some "START_LONGFORM")] (started calm)) = Some "longform" ∧
  last (trace (exec calm [Connection (Some "START_LONGFORM")]
                 (exec calm [Connection (Some "START_LONGFORM")] (started calm)))) =
    Some (Call (SocketClose "client")).
Proof. split; vm_compute; reflexivity. Qed.

(** START_LONGFORM then STOP_LONGFORM: no mode is active at the end and the
    recording was stopped once. *)
Example scenario_start_stop :
  current_mode (exec calm [Connection (Some "START_LONGFORM");
                           Connection (Some "STOP_LONGFORM")] (started calm)) = None ∧
  length (filter (calls_method "stop_recording")
            (trace (exec calm [Connection (Some "START_LONGFORM");
                               Connection (Some "STOP_LONGFORM")] (started calm)))) = 1%nat.
Proof. split; vm_compute; reflexivity. Qed.

(** RUN_STATIC while realtime is active is rejected. *)
Example scenario_static_while_realtime :
  current_mode (exec calm [Connection (Some "TOGGLE_REALTIME");
                           Connection (Some "RUN_STATIC")] (started calm)) = Some "realtime".
Proof. vm_compute. reflexivity. Qed.

(** The companion is found at startup and killed by QUIT. *)
Example scenario_companion :
  ahk_pid (started calm) = Some 4242%Z ∧
  length (filter (kills 4242%Z)
            (trace (exec calm [Connection (Some "QUIT")] (started calm)))) = 1%nat.
Proof. split; vm_compute; reflexivity. Qed.

(** * Code that always returns *)

Lemma returns_ret {A} (a : A) : returns (ret a).
Proof. intros s. by eexists. Qed.

Lemma returns_get {X} (f : State → X) : returns (get f).
Proof. intros s. by eexists. Qed.

Lemma returns_modify f : returns (modify f).
Proof. intros s. by eexists. Qed.

Lemma returns_emit ev : returns (emit ev).
Proof. intros s. by eexists. Qed.

Lemma returns_bind {A B} (m : M A) (k : A → M B) :
  returns m → (∀ a, returns (k a)) → returns (bind m k).
Proof.
  intros Hm Hk s. unfold bind. destruct (Hm s) as [a Ha].
  destruct (m s) as [[a'|e|c] s']; simpl in *; try done. apply Hk.
Qed.

(** A [try] whose handler returns turns every exception into a return. *)
Lemma returns_try_except {A} (body : M A) handler :
  no_exit body → (∀ e, returns (handler e)) → returns (try_except body handler).
Proof.
  intros Hb Hh s. unfold try_except. specialize (Hb s).
  destruct (body s) as [[a|e|c] s']; simpl in *; [by eexists | apply Hh | done].
Qed.

Lemma returns_no_exit {A} (m : M A) : returns m → no_exit m.
Proof. intros H s. destruct (H s) as [a Ha]. by rewrite Ha. Qed.

#[export] Hint Resolve returns_ret returns_get returns_modify returns_emit : pres.

Ltac returns_step :=
  match goal with
  | |- returns (bind _ _) => apply returns_bind; [| intros ?]
  | |- returns (try_except _ _) => apply returns_try_except; [| intros ?]
  | |- returns (if ?b then _ else _) => destruct b
  | |- returns (match ?x with _ => _ end) => destruct x
  | |- returns _ => solve [eauto with pres]
  | |- no_exit _ => solve [no_exit]
  end.

Ltac returns := repeat returns_step.

Section MoreNoExit.

Context (E : Env).

Lemma no_exit_import_module_lazily k : no_exit (import_module_lazily E k).
Proof. unfold import_module_lazily, log_info, log_error. no_exit. Qed.

Lemma no_exit_construct k cls kwargs : no_exit (construct E k cls kwargs).
Proof. unfold construct. no_exit. Qed.

Hint Resolve no_exit_import_module_lazily no_exit_construct : pres.

Lemma no_exit_initialize_transcriber k : no_exit (initialize_transcriber E k).
Proof. unfold initialize_transcriber, store_transcriber, log_info, log_error, safe_print. no_exit. Qed.

Lemma no_exit_spawn target : no_exit (spawn E target).
Proof. unfold spawn. no_exit. Qed.

Hint Resolve no_exit_initialize_transcriber no_exit_spawn : pres.

Lemma no_exit__toggle_realtime : no_exit (_toggle_realtime E).
Proof. unfold _toggle_realtime, set_mode, set_attr, log_error, safe_print. no_exit. Qed.

Lemma no_exit__start_longform : no_exit (_start_longform E).
Proof. unfold _start_longform, set_mode, log_error, safe_print. no_exit. Qed.

Lemma no_exit__stop_longform : no_exit (_stop_longform E).
Proof. unfold _stop_longform, set_mode, log_error, safe_print. no_exit. Qed.

Lemma no_exit__run_static : no_exit (_run_static E).
Proof. unfold _run_static, set_mode, log_error, safe_print. no_exit. Qed.

End MoreNoExit.

#[export] Hint Resolve no_exit_import_module_lazily no_exit_construct
  no_exit_initialize_transcriber no_exit_spawn no_exit__toggle_realtime no_exit__start_longform
  no_exit__stop_longform no_exit__run_static : pres.

(** * Errors stay inside the handlers *)

Section Containment.

Context (E : Env).

(** X1. No exception of a class derived from [Exception] escapes the
    command dispatcher: every command other than QUIT returns normally,
    whatever exception of such a class a handler or an engine raises, and
    QUIT ends the process with exit code 0.  Exceptions of the other
    classes ([SystemExit], [KeyboardInterrupt], [GeneratorExit]), which
    [except Exception] lets through, are no values of [exn]: nothing is
    said about them. *)
Theorem handle_command_outcome command s :
  (command ≠ "QUIT" → (_handle_command E command s).1 = Normal tt) ∧
  (command = "QUIT" → (_handle_command E command s).1 = Exited 0).
Proof.
  split.
  - intros Hq. unfold _handle_command. apply try_except_normal; [|done].
    repeat case_decide; try done; unfold log_error; no_exit.
  - intros ->. unfold _handle_command.
    rewrite !decide_False, decide_True by done. unfold try_except.
    by rewrite _quit_exits.
Qed.

End Containment.

Lemma handle_command_outcome_witness :
  "RUN_STATIC" ≠ "QUIT" ∧
  (_handle_command no_static "RUN_STATIC" (started no_static)).1 = Normal tt.
Proof.
  assert (H : "RUN_STATIC" ≠ "QUIT") by discriminate.
  split; [exact H | exact (proj1 (handle_command_outcome no_static "RUN_STATIC" _) H)].
Defined.

(** * Imports and acquisitions that fail *)

Section Robust.

Context (E : Env).

Lemma returns_import_module_lazily k : returns (import_module_lazily E k).
Proof. unfold import_module_lazily, log_error. returns. Qed.

Lemma returns_initialize_transcriber k : returns (initialize_transcriber E k).
Proof.
  pose proof returns_import_module_lazily.
  unfold initialize_transcriber, store_transcriber, log_info, log_error, safe_print. returns.
Qed.

Lemma import_keeps_transcribers k s :
  transcribers (import_module_lazily E k s).2 = transcribers s.
Proof.
  assert (Closed (λ s', transcribers s' = transcribers s)) by (split; closure).
  by apply (preserves_import_module_lazily E (λ s', transcribers s' = transcribers s));
    [closure|].
Qed.

(** X2. Importing a module never raises; once it has succeeded, importing
    the same module again returns the same module and touches nothing; and
    an import that fails leaves the module cache as it was, so that the next
    request tries again. *)
Theorem import_module_lazily_robust k s :
  (∃ r, (import_module_lazily E k s).1 = Normal r) ∧
  (∀ m s1, import_module_lazily E k s = (Normal (Some m), s1) →
           import_module_lazily E k s1 = (Normal (Some m), s1)) ∧
  (∀ s1, import_module_lazily E k s = (Normal None, s1) →
         modules s1 = modules s ∧ modules s !! k = None).
Proof.
  split_and!.
  - apply returns_import_module_lazily.
  - intros m s1 H.
    assert (modules s1 !! k = Some m) as Hm.
    { destruct (import_module_lazily_some E k s m s1 H) as [[? ->]|[? ->]]; [done|].
      simpl. apply lookup_insert_eq. }
    unfold import_module_lazily, bind, get, ret. by rewrite Hm.
  - intros s1. unfold import_module_lazily.
    cbv beta iota delta [bind ret raise get modify emit log_info log_error try_except tick
                         external ask].
    simpl. destruct (modules s !! k) as [m'|] eqn:Hm; [done|].
    repeat (case_match; simpl); intros ?; by simplify_eq.
Qed.

(** X3. Acquiring a transcriber never raises; and for a name that is not one
    of the three module types and has nothing cached, the acquisition
    returns nothing and caches nothing, whether or not a module could be
    imported under that name. *)
Theorem initialize_transcriber_robust k s :
  (∃ r, (initialize_transcriber E k s).1 = Normal r) ∧
  (k ∉ modes → dict_get (transcribers s) k = None →
   (initialize_transcriber E k s).1 = Normal None ∧
   transcribers (initialize_transcriber E k s).2 = transcribers s).
Proof.
  split; [apply returns_initialize_transcriber|].
  intros Hk Hc. unfold modes in Hk. rewrite !not_elem_of_cons in Hk.
  destruct Hk as (? & ? & ? & _).
  cut (∃ s', initialize_transcriber E k s = (Normal None, s') ∧
             transcribers s' = transcribers s).
  { intros (s' & -> & ?). done. }
  unfold initialize_transcriber. unfold bind at 1, get. rewrite Hc. unfold bind at 1.
  pose proof (import_keeps_transcribers k s) as Ht.
  destruct (returns_import_module_lazily k s) as [r Hr].
  destruct (import_module_lazily E k s) as [o s1]; simpl in Ht, Hr. subst o.
  destruct r as [m|].
  - rewrite !decide_False by done.
    cbv beta iota delta [bind ret raise get modify emit log_info log_error try_except].
    simpl. rewrite Ht, Hc. by eexists.
  - cbv beta iota delta [bind ret log_error emit modify]. by eexists.
Qed.

End Robust.

Lemma import_module_lazily_robust_witness :
  import_module_lazily calm "static" (import_module_lazily calm "static" (started calm)).2 =
    (Normal (Some {| mod_name := "static"; mod_file := "C:/stt/static_module.py" |}),
     (import_module_lazily calm "static" (started calm)).2).
Proof.
  assert (H : import_module_lazily calm "static" (started calm) =
              (Normal (Some {| mod_name := "static"; mod_file := "C:/stt/static_module.py" |}),
               (import_module_lazily calm "static" (started calm)).2))
    by (vm_compute; reflexivity).
  exact (proj1 (proj2 (import_module_lazily_robust calm "static" (started calm))) _ _ H).
Defined.

Lemma initialize_transcriber_robust_witness :
  ("summary" ∉ modes) ∧
  (initialize_transcriber calm "summary" (started calm)).1 = Normal None.
Proof.
  assert (Hk : "summary" ∉ modes) by (apply (bool_decide_unpack _); vm_compute; exact I).
  assert (Hc : dict_get (transcribers (started calm)) "summary" = None)
    by (vm_compute; reflexivity).
  split; [exact Hk|].
  exact (proj1 (proj2 (initialize_transcriber_robust calm "summary" (started calm)) Hk Hc)).
Defined.

(** * The realtime transcriber *)

Section Realtime.

Context (E : Env).

(** X4. [stop] of the realtime transcriber never raises, even when the
    recorder's abort or shutdown does; afterwards the transcriber is not
    running and has no recorder, its text is kept, and a second [stop] calls
    nothing on the recorder: it only prints the closing line again. *)
Theorem transcriber_stop_releases r o s :
  objects s !! r = Some (RealtimeTranscriber o) →
  (LongFormTranscriber_stop E r s).1 = Normal tt ∧
  ∃ o',
    objects (LongFormTranscriber_stop E r s).2 !! r = Some (RealtimeTranscriber o') ∧
    LongFormTranscriber.running o' = false ∧
    LongFormTranscriber.recorder o' = None ∧
    LongFormTranscriber.text_buffer o' = LongFormTranscriber.text_buffer o ∧
    LongFormTranscriber_stop E r (LongFormTranscriber_stop E r s).2 =
      (Normal tt,
       set_trace (trace (LongFormTranscriber_stop E r s).2 ++ [stopped_line E])
         (LongFormTranscriber_stop E r s).2).
Proof.
  intros Ho. split; [by eapply LongFormTranscriber_stop_normal|].
  assert (Hagain : ∀ s' o',
    objects s' !! r = Some (RealtimeTranscriber o') →
    LongFormTranscriber.running o' = false → LongFormTranscriber.recorder o' = None →
    LongFormTranscriber_stop E r s' = (Normal tt, set_trace (trace s' ++ [stopped_line E]) s')).
  { intros s' o' Ho' Hrun Hrec. unfold LongFormTranscriber_stop.
    cbv beta iota delta [bind ret raise get modify emit try_except set_attr get_attr
                         module_print].
    simpl. rewrite lookup_alter_eq, Ho'. simpl. rewrite Hrec.
    apply (f_equal2 pair); [done|]. apply state_ext; try done. simpl.
    apply alter_id. intros ob Hob. rewrite Ho' in Hob. simplify_eq. simpl.
    destruct o'. simpl in *. by subst. }
  destruct (stop_discards_recorder E r o s Ho) as (o' & Ho' & Hrec).
  assert (LongFormTranscriber.running o' = false ∧
          LongFormTranscriber.text_buffer o' = LongFormTranscriber.text_buffer o) as [Hrun Hbuf].
  { revert Ho'. unfold LongFormTranscriber_stop.
    cbv beta iota delta [bind ret raise get modify emit try_except set_attr get_attr
                         module_print external tick].
    simpl. rewrite lookup_alter_eq, Ho. simpl.
    destruct (LongFormTranscriber.recorder o) as [n|]; simpl.
    - destruct (raises E (clock s) (RecorderMethod n "abort")); simpl;
        [|destruct (raises E (S (clock s)) (RecorderMethod n "shutdown")); simpl];
        rewrite !lookup_alter_eq, Ho; simpl; intros ?; by simplify_eq.
    - rewrite lookup_alter_eq, Ho. simpl. intros ?; by simplify_eq. }
  exists o'. split_and!; try done. by apply (Hagain _ o').
Qed.

(** X5. When the recorder cannot be constructed, [start] returns at once
    without raising: the transcriber is left exactly as it was, with no
    recorder and its running flag untouched; with a recorder already in
    place, [start] builds no second one. *)
Theorem start_without_recorder r o s :
  objects s !! r = Some (RealtimeTranscriber o) →
  (∀ e, LongFormTranscriber.recorder o = None → raises E (clock s) NewRecorder = Some e →
        (LongFormTranscriber_start_enter E r s).1 = Normal false ∧
        objects (LongFormTranscriber_start_enter E r s).2 = objects s ∧
        next_ref (LongFormTranscriber_start_enter E r s).2 = next_ref s) ∧
  (∀ n, LongFormTranscriber.recorder o = Some n →
        (LongFormTranscriber_start_enter E r s).1 = Normal true ∧
        next_ref (LongFormTranscriber_start_enter E r s).2 = next_ref s ∧
        clock (LongFormTranscriber_start_enter E r s).2 = clock s).
Proof.
  intros Ho. unfold LongFormTranscriber_start_enter, _initialize_recorder.
  cbv beta iota delta [bind ret raise get modify emit try_except set_attr get_attr
                       module_print external tick fresh].
  simpl. rewrite Ho. split.
  - intros e -> ->. by simpl.
  - intros n ->. by simpl.
Qed.

Lemma append_string_assoc a b c : (a +:+ b) +:+ c = a +:+ b +:+ c.
Proof.
  induction a as [|ch a IH]; [reflexivity|].
  change (String ch ((a +:+ b) +:+ c) = String ch (a +:+ b +:+ c)). by rewrite IH.
Qed.

Lemma appended_prefix buf text : ∃ rest, appended buf text = buf +:+ rest.
Proof.
  unfold appended. destruct (truthy (Some buf) && negb (endswith_space buf)).
  - exists (" " +:+ text). by rewrite append_string_assoc.
  - by exists text.
Qed.

(** X6. [process_speech] ignores an absent text; otherwise the text read
    back with [get_transcribed_text] is the old text followed by the new
    one, separated by one space unless the old text is empty or already ends
    with a space, so that nothing transcribed earlier is lost; the running
    flag and the recorder are not touched. *)
Theorem process_speech_appends r o s :
  objects s !! r = Some (RealtimeTranscriber o) →
  process_speech E r None s = (Normal tt, s) ∧
  ∀ text, ∃ s' o',
    process_speech E r (Some text) s = (Normal tt, s') ∧
    objects s' !! r = Some (RealtimeTranscriber o') ∧
    get_transcribed_text r s' =
      (Normal (appended (LongFormTranscriber.text_buffer o) text), s') ∧
    (∃ rest, LongFormTranscriber.text_buffer o' = LongFormTranscriber.text_buffer o +:+ rest) ∧
    LongFormTranscriber.running o' = LongFormTranscriber.running o ∧
    LongFormTranscriber.recorder o' = LongFormTranscriber.recorder o.
Proof.
  intros Ho. split; [done|]. intros text.
  unfold process_speech, get_transcribed_text.
  cbv beta iota delta [bind ret get modify emit set_attr get_attr module_print].
  rewrite Ho. cbv beta iota.
  pose proof (appended_prefix (LongFormTranscriber.text_buffer o) text) as Hpre.
  unfold appended in *.
  destruct (truthy (Some (LongFormTranscriber.text_buffer o)) &&
            negb (endswith_space (LongFormTranscriber.text_buffer o)));
    cbn [objects set_objects set_trace fst snd];
    rewrite ?lookup_alter_eq, Ho; cbn [fmap option_fmap option_map on_transcriber];
    do 2 eexists; (split; [reflexivity|]);
    cbn [objects set_objects set_trace]; rewrite ?lookup_alter_eq, Ho;
    cbn [fmap option_fmap option_map on_transcriber];
    (split; [reflexivity|]); by split_and!.
Qed.

End Realtime.

Lemma transcriber_stop_releases_witness :
  (LongFormTranscriber_stop calm 3
     (exec calm [Connection (Some "TOGGLE_REALTIME"); WorkerStep 0] (started calm))).1 =
    Normal tt.
Proof.
  assert (Ho : objects (exec calm [Connection (Some "TOGGLE_REALTIME"); WorkerStep 0]
                          (started calm)) !! 3 =
               Some (RealtimeTranscriber
                       {| LongFormTranscriber.text_buffer := "";
                          LongFormTranscriber.running := true;
                          LongFormTranscriber.recorder := Some 4;
                          LongFormTranscriber.model_initialized := true |}))
    by (vm_compute; reflexivity).
  exact (proj1 (transcriber_stop_releases calm 3 _ _ Ho)).
Defined.

Lemma listening_transcriber :
  objects listening !! 3 =
    Some (RealtimeTranscriber
            {| LongFormTranscriber.text_buffer := "";
               LongFormTranscriber.running := true;
               LongFormTranscriber.recorder := Some 4;
               LongFormTranscriber.model_initialized := true |}).
Proof. vm_compute. reflexivity. Qed.

Lemma start_without_recorder_witness :
  (LongFormTranscriber_start_enter calm 3 listening).1 = Normal true.
Proof.
  exact (proj1 (proj2 (start_without_recorder calm 3 _ _ listening_transcriber) 4 eq_refl)).
Defined.

Lemma process_speech_appends_witness :
  process_speech calm 3 None listening = (Normal tt, listening).
Proof.
  exact (proj1 (process_speech_appends calm 3 _ _ listening_transcriber)).
Defined.

(** * Worker threads *)

Lemma no_exit_try_finally_raised {A} (body : M A) final :
  no_exit body → no_exit final → no_exit (try_finally_raised body final).
Proof.
  intros Hb Hf s. unfold try_finally_raised. specialize (Hb s).
  destruct (body s) as [[a|e|c] s']; simpl in *; try done.
  specialize (Hf s'). by destruct (final s') as [[?|?|?] s''].
Qed.

Lemma ends_idle_ret w : w ≠ Finished → ends_idle (ret w).
Proof. intros Hw s s' [= ? ?]. done. Qed.

Lemma ends_idle_raise e : ends_idle (raise e).
Proof. by intros s s'. Qed.

Lemma ends_idle_reset w : ends_idle (set_mode None;; ret w).
Proof. by intros s s' [= _ <-]. Qed.

Lemma ends_idle_bind {A} (m : M A) k : (∀ a, ends_idle (k a)) → ends_idle (bind m k).
Proof.
  intros Hk s s'. unfold bind. destruct (m s) as [[a|e|c] s1]; [apply Hk|done..].
Qed.

Lemma ends_idle_try_except body handler :
  ends_idle body → (∀ e, ends_idle (handler e)) → ends_idle (try_except body handler).
Proof.
  intros Hb Hh s s'. unfold try_except. specialize (Hb s).
  destruct (body s) as [[a|e|c] s1]; [apply Hb | apply Hh | done].
Qed.

Ltac ends_idle_step :=
  match goal with
  | |- ends_idle (bind (set_mode None) (λ _, ret _)) => apply ends_idle_reset
  | |- ends_idle (ret _) => by apply ends_idle_ret
  | |- ends_idle (bind _ _) => apply ends_idle_bind; intros ?
  | |- ends_idle (try_except _ _) => apply ends_idle_try_except; [| intros ?]
  | |- ends_idle (if ?b then _ else _) => destruct b
  | |- ends_idle (match ?x with _ => _ end) => destruct x
  end.

Section Workers.

Context (E : Env).

Lemma no_exit__initialize_recorder r : no_exit (_initialize_recorder E r).
Proof. unfold _initialize_recorder, set_attr, module_print. no_exit. Qed.

Lemma no_exit_process_speech r text : no_exit (process_speech E r text).
Proof. unfold process_speech, set_attr, module_print. no_exit. Qed.

Hint Resolve no_exit__initialize_recorder no_exit_process_speech : pres.

Lemma no_exit_call_start t : no_exit (call_start E t).
Proof.
  unfold call_start, LongFormTranscriber_start_enter, set_attr, module_print. no_exit.
Qed.

Lemma no_exit_LongFormTranscriber_start_body r : no_exit (LongFormTranscriber_start_body E r).
Proof. unfold LongFormTranscriber_start_body, module_print, effect. no_exit. Qed.

Hint Resolve no_exit_call_start no_exit_LongFormTranscriber_start_body : pres.

Lemma returns__run_realtime_except e : returns (_run_realtime_except E e).
Proof. unfold _run_realtime_except, log_error, set_mode. returns. Qed.

Lemma returns__run_static_except e : returns (_run_static_except e).
Proof. unfold _run_static_except, log_error, set_mode. returns. Qed.

Lemma returns_worker_step w : returns (worker_step E w).
Proof.
  pose proof returns__run_realtime_except. pose proof returns__run_static_except.
  unfold worker_step, _run_realtime, _run_realtime_loop, _run_static_thread, _run_static_poll.
  destruct w as [target|t|t|]; repeat case_decide;
    try (apply returns_try_except; [|done]);
    try apply returns_ret;
    unfold _run_realtime_after, set_attr, set_mode, safe_print, log_info, effect.
  - no_exit.
  - no_exit.
  - apply no_exit_bind; [apply no_exit_try_finally_raised; no_exit|intros [|]].
    + apply no_exit_bind; [apply no_exit_try_finally_raised; no_exit | intros; no_exit].
    + no_exit.
  - no_exit.
Qed.

(** X7. A worker thread never dies of an exception: every block of a worker
    returns normally; and whenever a block ends a realtime or static worker,
    for whatever reason (the transcriber is missing, the engine failed, the
    work is done), it leaves [current_mode] at [None]. *)
Theorem worker_step_outcome w s :
  (∃ w', (worker_step E w s).1 = Normal w') ∧
  (∀ s', working w → worker_step E w s = (Normal Finished, s') → current_mode s' = None).
Proof.
  split; [apply returns_worker_step|].
  intros s' Hw. revert s s'. change (ends_idle (worker_step E w)).
  unfold worker_step, _run_realtime, _run_realtime_loop, _run_static_thread, _run_static_poll,
    _run_realtime_except, _run_realtime_after, _run_static_except.
  destruct w as [target|t|t|]; simpl in Hw; [| | |done].
  - destruct Hw as [->| ->].
    + rewrite decide_True by done. repeat ends_idle_step.
    + rewrite decide_False, decide_True by done. repeat ends_idle_step.
  - repeat ends_idle_step.
  - repeat ends_idle_step.
Qed.

End Workers.

Lemma worker_step_outcome_witness :
  current_mode (worker_step flaky (Ready "_run_realtime") (started flaky)).2 = None.
Proof.
  assert (H : worker_step flaky (Ready "_run_realtime") (started flaky) =
              (Normal Finished, (worker_step flaky (Ready "_run_realtime") (started flaky)).2))
    by (vm_compute; reflexivity).
  exact (proj2 (worker_step_outcome flaky (Ready "_run_realtime") (started flaky)) _
           (or_introl eq_refl) H).
Defined.

(** * Longform recording *)

Section Longform.

Context (E : Env).

(** X8. STOP_LONGFORM while longform is active always ends with no mode
    active, whether the transcriber is missing from the cache, its
    [stop_recording] raises, or it succeeds; with the longform transcriber
    cached, [stop_recording] is called exactly once. *)
Theorem stop_longform_ends_mode s :
  current_mode s = Some "longform" →
  current_mode (_handle_command E "STOP_LONGFORM" s).2 = None ∧
  (∀ t m c,
     dict_get (transcribers s) "longform" = Some t → objects s !! t = Some (Foreign m c) →
     length (filter (calls_method "stop_recording")
               (new_events s (_handle_command E "STOP_LONGFORM" s).2)) = 1%nat).
Proof.
  intros Hm. unfold _handle_command.
  rewrite !decide_False, decide_True by done. unfold _stop_longform.
  cbv beta iota delta [bind ret get modify emit log_error safe_print try_except set_mode].
  rewrite Hm. rewrite bool_decide_true by done. cbn [negb transcribers set_trace].
  destruct (dict_get (transcribers s) "longform") as [t|] eqn:Ht; [|by split].
  split.
  - pose proof (no_exit_call_method E t "stop_recording"
                  (set_trace (trace s ++ [Print "Stopping long-form recording and transcribing..."]) s))
      as Hx.
    destruct (call_method E t "stop_recording" _) as [[[]|e|c] s1]; simpl in *; done.
  - intros t' m c [= <-] Ho. unfold call_method.
    cbv beta iota delta [bind ret raise get modify emit external tick].
    cbn [objects set_trace]. rewrite Ho. simpl.
    destruct (raises E (clock s) (Method t "stop_recording")); simpl;
      (erewrite new_events_app; [|simpl; by rewrite <- !app_assoc]);
      simpl; rewrite ?bool_decide_true by done; done.
Qed.

(** X9. START_LONGFORM with the longform transcriber cached and no mode
    active constructs nothing: it calls [start_recording] on the cached
    instance; longform mode is entered when the call succeeds, and when it
    raises the error is logged and no mode is active. *)
Theorem start_longform_outcome s t m c :
  truthy (current_mode s) = false →
  dict_get (transcribers s) "longform" = Some t → objects s !! t = Some (Foreign m c) →
  (raises E (clock s) (Method t "start_recording") = None →
   current_mode (_handle_command E "START_LONGFORM" s).2 = Some "longform" ∧
   new_events s (_handle_command E "START_LONGFORM" s).2 =
     [Print "Starting long-form recording..."; Call (Method t "start_recording")]) ∧
  (∀ e, raises E (clock s) (Method t "start_recording") = Some e →
   current_mode (_handle_command E "START_LONGFORM" s).2 = None ∧
   new_events s (_handle_command E "START_LONGFORM" s).2 =
     [Print "Starting long-form recording..."; Call (Method t "start_recording");
      LogError ("Error starting long-form recording: " +:+ exn_msg e)]).
Proof.
  intros Hm Ht Ho. unfold _handle_command.
  rewrite !decide_False, decide_True by done. unfold _start_longform, initialize_transcriber,
    call_method.
  cbv beta iota delta [bind ret raise get modify emit log_error safe_print try_except set_mode
                       external tick].
  rewrite Hm. cbn [transcribers objects set_trace set_current_mode]. rewrite Ht.
  cbn [transcribers objects set_trace set_current_mode]. rewrite Ho. simpl.
  split.
  - intros ->. simpl. split; [done|]. apply new_events_app. simpl. by rewrite <- !app_assoc.
  - intros e ->. simpl. split; [done|]. apply new_events_app. simpl. by rewrite <- !app_assoc.
Qed.

End Longform.

Lemma stop_longform_ends_mode_witness :
  current_mode (exec calm [Connection (Some "START_LONGFORM")] (started calm)) = Some "longform" ∧
  current_mode (_handle_command calm "STOP_LONGFORM"
                  (exec calm [Connection (Some "START_LONGFORM")] (started calm))).2 = None.
Proof.
  assert (H : current_mode (exec calm [Connection (Some "START_LONGFORM")] (started calm)) =
              Some "longform") by (vm_compute; reflexivity).
  split; [exact H | exact (proj1 (stop_longform_ends_mode calm _ H))].
Defined.

Lemma start_longform_outcome_witness :
  current_mode (_handle_command calm "START_LONGFORM" (started calm)).2 = Some "longform".
Proof.
  assert (Hm : truthy (current_mode (started calm)) = false) by (vm_compute; reflexivity).
  assert (Ht : dict_get (transcribers (started calm)) "longform" = Some 2)
    by (vm_compute; reflexivity).
  assert (Ho : objects (started calm) !! 2 = Some (Foreign "longform" "LongFormTranscriber"))
    by (vm_compute; reflexivity).
  assert (Hr : raises calm (clock (started calm)) (Method 2 "start_recording") = None)
    by (vm_compute; reflexivity).
  exact (proj1 (proj1 (start_longform_outcome calm _ 2 _ _ Hm Ht Ho) Hr)).
Defined.

(** * Leftover companions *)

Section Leftover.

Context (E : Env).

Lemma leftover_pids_cons proc procs :
  leftover_pids (proc :: procs) =
    if is_leftover proc then proc_pid proc :: leftover_pids procs else leftover_pids procs.
Proof.
  unfold leftover_pids. rewrite filter_cons.
  destruct (is_leftover proc); case_decide; try done.
Qed.

Lemma kill_each_spec procs s :
  ∃ evs,
    trace (kill_each E procs s).2 = (trace s ++ evs)%list ∧
    killed evs `prefix_of` leftover_pids procs ∧
    ((kill_each E procs s).1 = Normal tt → killed evs = leftover_pids procs).
Proof.
  revert s. induction procs as [|proc rest IH]; intros s.
  - exists []. simpl. by rewrite app_nil_r.
  - simpl. rewrite leftover_pids_cons. destruct (is_leftover proc) eqn:Hl.
    + cbv beta iota delta [bind ret raise get modify emit log_info try_except_of external tick].
      simpl. destruct (raises E (clock s) (Kill (proc_pid proc))) as [e|] eqn:He; simpl.
      * case_bool_decide; simpl.
        -- match goal with |- context [kill_each E rest ?s1] =>
             destruct (IH s1) as (evs & Htr & Hpre & Heq) end.
           eexists (_ :: _ :: evs). split_and!.
           ++ rewrite Htr. simpl. by rewrite <- !app_assoc.
           ++ simpl. by apply prefix_cons.
           ++ intros Hn. simpl. f_equal. by apply Heq.
        -- eexists [_; _]. split_and!; [by rewrite <- !app_assoc| |done].
           simpl. apply prefix_cons, prefix_nil.
      * match goal with |- context [kill_each E rest ?s1] =>
          destruct (IH s1) as (evs & Htr & Hpre & Heq) end.
        eexists (_ :: _ :: evs). split_and!.
        -- rewrite Htr. simpl. by rewrite <- !app_assoc.
        -- simpl. by apply prefix_cons.
        -- intros Hn. simpl. f_equal. by apply Heq.
    + cbv beta iota delta [bind ret try_except_of]. apply IH.
Qed.

(** X10. Cleaning up leftovers never kills anything but a leftover
    companion: kill is called only on processes named AutoHotkeyU64.exe
    whose command line mentions STT_hotkeys.ahk, each at most once and in the
    order of the process table; and when the clean-up returns normally, it
    has called kill on every one of them. *)
Theorem kill_leftover_only_leftovers s :
  killed (new_events s (_kill_leftover_ahk E s).2)
    `prefix_of` leftover_pids (process_iter E (clock s)) ∧
  ((_kill_leftover_ahk E s).1 = Normal tt →
   killed (new_events s (_kill_leftover_ahk E s).2) = leftover_pids (process_iter E (clock s))).
Proof.
  unfold _kill_leftover_ahk, snapshot.
  cbv beta iota delta [bind ret tick].
  destruct (kill_each_spec (process_iter E (clock s)) (set_clock (S (clock s)) s))
    as (evs & Htr & Hpre & Heq).
  destruct (kill_each E (process_iter E (clock s)) (set_clock (S (clock s)) s))
    as [o s1] eqn:Hk.
  simpl in *. rewrite (new_events_app s s1 evs Htr). by destruct o.
Qed.

End Leftover.

Lemma kill_leftover_only_leftovers_witness :
  killed (new_events (init "C:/stt") (_kill_leftover_ahk stale (init "C:/stt")).2) =
    [7%Z; 10%Z].
Proof.
  assert (H : (_kill_leftover_ahk stale (init "C:/stt")).1 = Normal tt)
    by (vm_compute; reflexivity).
  rewrite (proj2 (kill_leftover_only_leftovers stale (init "C:/stt")) H).
  vm_compute. reflexivity.
Defined.

(** * The listener *)

Lemma no_raise_ret {A} (a : A) : no_raise (ret a).
Proof. by intros s. Qed.

Lemma no_raise_get {X} (f : State → X) : no_raise (get f).
Proof. by intros s. Qed.

Lemma no_raise_emit ev : no_raise (emit ev).
Proof. by intros s. Qed.

Lemma no_raise_bind {A B} (m : M A) (k : A → M B) :
  no_raise m → (∀ a, no_raise (k a)) → no_raise (bind m k).
Proof.
  intros Hm Hk s. unfold bind. specialize (Hm s).
  destruct (m s) as [[a|e|c] s']; simpl in *; try done. apply Hk.
Qed.

Lemma no_raise_try_except {A} (body : M A) handler :
  (∀ e, no_raise (handler e)) → no_raise (try_except body handler).
Proof.
  intros Hh s. unfold try_except.
  destruct (body s) as [[a|e|c] s']; simpl; [done | apply Hh | done].
Qed.

Section Listener.

Context (E : Env).

Lemma no_raise__run_server_body conn : no_raise (_run_server_body E conn).
Proof. unfold _run_server_body. apply no_raise_try_except. intros e. apply no_raise_emit. Qed.

Lemma no_raise__run_server_loop conns : no_raise (_run_server_loop E conns).
Proof.
  induction conns as [|conn rest IH]; simpl; [apply no_raise_ret|].
  apply no_raise_bind; [apply no_raise_get|]. intros [|]; [|apply no_raise_ret].
  apply no_raise_bind; [apply no_raise__run_server_body | done].
Qed.

Lemma handle_command_normal command s :
  command ≠ "QUIT" → (_handle_command E command s).1 = Normal tt.
Proof.
  intros Hq. unfold _handle_command. apply try_except_normal; [|done].
  repeat case_decide; try done; unfold log_error; no_exit.
Qed.

Lemma handle_command_keeps_exit_code command :
  command ≠ "QUIT" → preserves (λ s, exit_code s = None) (_handle_command E command).
Proof.
  intros Hq. assert (Closed (λ s, exit_code s = None)) by (split; closure).
  unfold _handle_command. apply preserves_try_except; [|intros; pres].
  repeat case_decide; try done.
  - apply preserves__toggle_realtime; closure.
  - apply preserves__start_longform; closure.
  - apply preserves__stop_longform; closure.
  - apply preserves__run_static; closure.
  - pres.
Qed.

(** What one pass of the listener's loop leaves behind. *)
Lemma run_server_body_exit conn s :
  exit_code s = None →
  match _run_server_body E conn s with
  | (Normal _, s') => exit_code s' = None
  | (Raised _, _) => False
  | (Exited _, s') => exit_code s' ≠ None
  end.
Proof.
  intros Hx. destruct conn as [data|]; [|done].
  unfold _run_server_body.
  cbv beta iota delta [bind try_except log_info log_error emit modify effect].
  destruct (decide (data = "QUIT")) as [->|Hq].
  - unfold _handle_command. rewrite !decide_False, decide_True by done.
    unfold try_except. by rewrite _quit_exits.
  - pose proof (handle_command_normal data
                  (set_trace (trace s ++ [LogInfo ("Received command: " +:+ data)]) s) Hq) as Hn.
    pose proof (handle_command_keeps_exit_code data Hq
                  (set_trace (trace s ++ [LogInfo ("Received command: " +:+ data)]) s) Hx) as Hk.
    destruct (_handle_command E data _) as [o s1]. simpl in *. by subst o.
Qed.

Lemma run_server_body_threads conn s t :
  server_thread s = Some t → current_thread s = t →
  server_thread (_run_server_body E conn s).2 = Some t ∧
  current_thread (_run_server_body E conn s).2 = t.
Proof.
  intros Hs Hc.
  assert (Closed (λ s', server_thread s' = Some t ∧ current_thread s' = t))
    by (split; closure).
  by apply (preserves__run_server_body E
              (λ s', server_thread s' = Some t ∧ current_thread s' = t)); [closure..|].
Qed.

Lemma exec_connections_over conns s :
  running s = false ∨ exit_code s ≠ None →
  exec E (Connection <$> conns) s = s.
Proof.
  intros H. induction conns as [|conn rest IH]; simpl; [done|].
  assert (step E (Connection conn) s = s) as ->; [|done].
  unfold step. destruct (exit_code s); [done|]. destruct H as [->|?]; [|done].
  by destruct (server_thread s).
Qed.

(** X11. The listener's loop and the transition system agree: running the
    loop over a sequence of connections and timeouts ends in the state
    reached by taking one listener step per connection; the loop handles
    nothing once the running flag is false, and nothing after QUIT. *)
Theorem run_server_loop_steps conns s t :
  exit_code s = None → server_thread s = Some t → current_thread s = t →
  (_run_server_loop E conns s).2 = exec E (Connection <$> conns) s.
Proof.
  revert s. induction conns as [|conn rest IH]; intros s Hx Hs Hc; [done|].
  simpl. unfold step. rewrite Hx, Hs.
  assert (set_current_thread t s = s) as -> by (by apply state_ext).
  unfold bind at 1, get. destruct (running s) eqn:Hr.
  - pose proof (run_server_body_exit conn s Hx) as Hb.
    destruct (run_server_body_threads conn s t Hs Hc) as [Hs' Hc'].
    unfold bind. destruct (_run_server_body E conn s) as [[[]|e|c] s']; simpl in *.
    + by apply IH.
    + done.
    + by rewrite exec_connections_over by (by right).
  - simpl. by rewrite exec_connections_over by (by left).
Qed.

Lemma run_server_loop_trace conns s :
  ∃ evs, trace (_run_server_loop E conns s).2 = (trace s ++ evs)%list.
Proof.
  revert s. induction conns as [|conn rest IH]; intros s; simpl.
  - exists []. by rewrite app_nil_r.
  - unfold bind at 1, get. destruct (running s); [|exists []; simpl; by rewrite app_nil_r].
    assert (Closed (λ s', ∃ evs, trace s' = (trace s ++ evs)%list)).
    { split; try closure. intros s' ev [evs Hevs]. exists (evs ++ [ev])%list.
      simpl. by rewrite Hevs, app_assoc. }
    assert (∃ evs, trace (_run_server_body E conn s).2 = (trace s ++ evs)%list) as [evs Hevs].
    { apply (preserves__run_server_body E (λ s', ∃ evs, trace s' = (trace s ++ evs)%list));
        [closure..|]. exists []. by rewrite app_nil_r. }
    unfold bind. destruct (_run_server_body E conn s) as [[[]|e|c] s']; simpl in *;
      [|by eexists..].
    destruct (IH s') as [evs' Hevs']. exists (evs ++ evs')%list.
    by rewrite Hevs', Hevs, app_assoc.
Qed.

(** What the listener does once it has its socket. *)
Lemma run_server_guarded conns s :
  match try_finally
          (try_except
             (external E SocketSetup;; _run_server_loop E conns)
             (λ e, log_error ("Server error: " +:+ exn_msg e)))
          (effect (SocketClose "server");; log_info "TCP server stopped") s with
  | (Normal _, s') => ∃ evs, trace s' = (trace s ++ evs ++ listener_closing)%list
  | (Raised _, _) => False
  | (Exited _, _) => True
  end.
Proof.
  unfold try_finally.
  match goal with |- context [try_except ?b ?h s] =>
    assert (∃ evs, trace (try_except b h s).2 = (trace s ++ evs)%list) as [evs Hevs];
    [|assert (no_raise (try_except b h)) as Hn by (apply no_raise_try_except; intros e;
                                                   apply no_raise_emit);
      specialize (Hn s); destruct (try_except b h s) as [[a|e|c] s1]] end.
  - unfold try_except, bind, external.
    cbv beta iota delta [bind emit modify tick ret raise log_error].
    simpl. destruct (raises E (clock s) SocketSetup); simpl.
    + eexists [_; _]. by rewrite <- app_assoc.
    + match goal with |- context [_run_server_loop E conns ?s1] =>
        destruct (run_server_loop_trace conns s1) as [evs Hevs];
        pose proof (no_raise__run_server_loop conns s1) as Hn;
        destruct (_run_server_loop E conns s1) as [[a|e|c] s2] end; simpl in *; try done;
        rewrite Hevs; eexists (_ :: evs); by rewrite <- app_assoc.
  - simpl in *. exists evs.
    cbv beta iota delta [bind effect emit modify log_info]. simpl.
    rewrite Hevs. unfold listener_closing. by rewrite <- !app_assoc.
  - done.
  - done.
Qed.

(** X12. When the server socket cannot be created or configured, which
    happens before the [try], the listener thread ends with that exception
    and has closed and logged nothing.  Otherwise the thread does not die of
    an exception, and whenever it ends without the process having exited, be
    it because the running flag went false, because the connections ran out
    or because [bind] or [listen] failed, the last things it does are to
    close the server socket and to log that the server stopped. *)
Theorem run_server_closes conns s :
  match raises E (clock s) SocketCreate with
  | Some e =>
      (_run_server E conns s).1 = Raised e ∧
      new_events s (_run_server E conns s).2 = [Call SocketCreate]
  | None =>
      match _run_server E conns s with
      | (Normal _, s') =>
          ∃ evs, trace s' = (trace s ++ Call SocketCreate :: evs ++ listener_closing)%list
      | (Raised _, _) => False
      | (Exited _, _) => True
      end
  end.
Proof.
  assert (Hrun : _run_server E conns s =
    match raises E (clock s) SocketCreate with
    | Some e => (Raised e, set_clock (S (clock s)) (set_trace (trace s ++ [Call SocketCreate]) s))
    | None =>
        try_finally
          (try_except
             (external E SocketSetup;; _run_server_loop E conns)
             (λ e, log_error ("Server error: " +:+ exn_msg e)))
          (effect (SocketClose "server");; log_info "TCP server stopped")
          (set_clock (S (clock s)) (set_trace (trace s ++ [Call SocketCreate]) s))
    end).
  { unfold _run_server. unfold bind at 1. rewrite external_spec.
    by destruct (raises E (clock s) SocketCreate). }
  rewrite Hrun. clear Hrun.
  destruct (raises E (clock s) SocketCreate) as [e|].
  - split; [reflexivity|]. apply new_events_app. reflexivity.
  - match goal with |- context [try_finally ?b ?f ?s1] =>
      pose proof (run_server_guarded conns s1) as Hg;
      destruct (try_finally b f s1) as [[a|e|c] s2] end; simpl in Hg |- *; [|done..].
    destruct Hg as [evs Hevs]. exists evs. rewrite Hevs. by rewrite <- app_assoc.
Qed.

End Listener.

Lemma run_server_loop_steps_witness :
  current_mode
    (_run_server_loop calm [Some "START_LONGFORM"; None; Some "STOP_LONGFORM"]
       (set_current_thread 1 (started calm))).2 = None.
Proof.
  assert (Hx : exit_code (set_current_thread 1 (started calm)) = None)
    by (vm_compute; reflexivity).
  assert (Hs : server_thread (set_current_thread 1 (started calm)) = Some 1)
    by (vm_compute; reflexivity).
  rewrite (run_server_loop_steps calm _ _ 1 Hx Hs eq_refl).
  vm_compute. reflexivity.
Defined.

(** * Which calls the code makes *)

Lemma calls_only_silent {A} ok (m : M A) :
  (∀ s, trace (m s).2 = trace s) → calls_only ok m.
Proof.
  intros H s. exists []. rewrite H, app_nil_r. split; [done|].
  intros c Hc. by apply elem_of_nil in Hc.
Qed.

Lemma calls_only_ret {A} ok (a : A) : calls_only ok (ret a).
Proof. by apply calls_only_silent. Qed.

Lemma calls_only_raise {A} ok e : calls_only ok (@raise A e).
Proof. by apply calls_only_silent. Qed.

Lemma calls_only_get {X} ok (f : State → X) : calls_only ok (get f).
Proof. by apply calls_only_silent. Qed.

Lemma calls_only_modify ok f : (∀ s, trace (f s) = trace s) → calls_only ok (modify f).
Proof. intros H. by apply calls_only_silent. Qed.

Lemma calls_only_tick ok : calls_only ok tick.
Proof. by apply calls_only_silent. Qed.

Lemma calls_only_fresh ok : calls_only ok fresh.
Proof. by apply calls_only_silent. Qed.

Lemma calls_only_alloc ok ob : calls_only ok (alloc ob).
Proof. by apply calls_only_silent. Qed.

Lemma calls_only_get_attr {X} ok r (f : _ → X) : calls_only ok (get_attr r f).
Proof. apply calls_only_silent. intros s. unfold get_attr. by repeat case_match. Qed.

Lemma calls_only_set_attr ok r f : calls_only ok (set_attr r f).
Proof. by apply calls_only_silent. Qed.

Lemma calls_only_set_mode ok v : calls_only ok (set_mode v).
Proof. by apply calls_only_silent. Qed.

Lemma calls_only_store_transcriber ok k t : calls_only ok (store_transcriber k t).
Proof. by apply calls_only_silent. Qed.

Lemma calls_only_emit ok ev : (∀ c, ev = Call c → ok c) → calls_only ok (emit ev).
Proof.
  intros H s. exists [ev]. split; [done|].
  intros c Hc. apply list_elem_of_singleton in Hc. by apply H.
Qed.

Lemma calls_only_log_info ok msg : calls_only ok (log_info msg).
Proof. by apply calls_only_emit. Qed.

Lemma calls_only_log_error ok msg : calls_only ok (log_error msg).
Proof. by apply calls_only_emit. Qed.

Lemma calls_only_safe_print ok msg : calls_only ok (safe_print msg).
Proof. by apply calls_only_emit. Qed.

Lemma calls_only_module_print E ok a b : calls_only ok (module_print E a b).
Proof. by apply calls_only_emit. Qed.

Lemma calls_only_effect (ok : ext_call → Prop) c : ok c → calls_only ok (effect c).
Proof. intros H. apply calls_only_emit. intros c' [= <-]. exact H. Qed.

Lemma calls_only_seq {A B} ok (m : M A) (m' : M B) s :
  calls_only ok m → calls_only ok m' →
  ∃ evs, trace (m' (m s).2).2 = (trace s ++ evs)%list ∧ ∀ c, Call c ∈ evs → ok c.
Proof.
  intros Hm Hm'. destruct (Hm s) as (evs & Hevs & Hok).
  destruct (Hm' (m s).2) as (evs' & Hevs' & Hok').
  exists (evs ++ evs')%list. split; [by rewrite Hevs', Hevs, app_assoc|].
  intros c [?|?]%elem_of_app; auto.
Qed.

Lemma calls_only_bind {A B} ok (m : M A) (k : A → M B) :
  calls_only ok m → (∀ a, calls_only ok (k a)) → calls_only ok (bind m k).
Proof.
  intros Hm Hk s. unfold bind.
  destruct (m s) as [[a|e|c] s'] eqn:Hs; [|specialize (Hm s); by rewrite Hs in Hm..].
  pose proof (calls_only_seq ok m (k a) s Hm (Hk a)) as H. by rewrite Hs in H.
Qed.

Lemma calls_only_try_except {A} ok (body : M A) handler :
  calls_only ok body → (∀ e, calls_only ok (handler e)) →
  calls_only ok (try_except body handler).
Proof.
  intros Hm Hk s. unfold try_except.
  destruct (body s) as [[a|e|c] s'] eqn:Hs; [specialize (Hm s); by rewrite Hs in Hm| |
                                              specialize (Hm s); by rewrite Hs in Hm].
  pose proof (calls_only_seq ok body (handler e) s Hm (Hk e)) as H. by rewrite Hs in H.
Qed.

Lemma calls_only_try_except_of {A} ok classes (body : M A) handler :
  calls_only ok body → (∀ e, calls_only ok (handler e)) →
  calls_only ok (try_except_of classes body handler).
Proof.
  intros Hm Hk s. unfold try_except_of.
  destruct (body s) as [[a|e|c] s'] eqn:Hs; [specialize (Hm s); by rewrite Hs in Hm| |
                                              specialize (Hm s); by rewrite Hs in Hm].
  case_bool_decide; [|specialize (Hm s); by rewrite Hs in Hm].
  pose proof (calls_only_seq ok body (handler e) s Hm (Hk e)) as Hseq. by rewrite Hs in Hseq.
Qed.

Lemma calls_only_try_finally_raised {A} ok (body : M A) final :
  calls_only ok body → calls_only ok final → calls_only ok (try_finally_raised body final).
Proof.
  intros Hm Hk s. unfold try_finally_raised.
  destruct (body s) as [[a|e|c] s'] eqn:Hs; [specialize (Hm s); by rewrite Hs in Hm| |
                                              specialize (Hm s); by rewrite Hs in Hm].
  pose proof (calls_only_seq ok body final s Hm Hk) as H. rewrite Hs in H. simpl in H.
  by destruct (final s') as [[?|?|?] s''].
Qed.

Lemma calls_only_try_finally {A} ok (body : M A) final :
  calls_only ok body → calls_only ok final → calls_only ok (try_finally body final).
Proof.
  intros Hm Hk s. unfold try_finally.
  pose proof (calls_only_seq ok body final s Hm Hk) as H.
  destruct (body s) as [[a|e|c] s'] eqn:Hs; simpl in H;
    [by destruct (final s') as [[?|?|?] s'']..|].
  specialize (Hm s). by rewrite Hs in Hm.
Qed.

Lemma calls_only_new_events {A} ok (m : M A) s c :
  calls_only ok m → Call c ∈ new_events s (m s).2 → ok c.
Proof.
  intros Hm. destruct (Hm s) as (evs & Hevs & Hok).
  rewrite (new_events_app _ _ _ Hevs). apply Hok.
Qed.

Create HintDb calls discriminated.

#[export] Hint Resolve calls_only_ret calls_only_raise calls_only_get calls_only_tick
  calls_only_fresh calls_only_alloc calls_only_get_attr calls_only_set_attr
  calls_only_set_mode calls_only_store_transcriber calls_only_log_info calls_only_log_error
  calls_only_safe_print calls_only_module_print : calls.

(** Decomposes a goal about the calls of a piece of code along its structure. *)
Ltac calls_step :=
  match goal with
  | |- calls_only _ (bind _ _) => apply calls_only_bind; [| intros ?]
  | |- calls_only _ (try_except _ _) => apply calls_only_try_except; [| intros ?]
  | |- calls_only _ (try_except_of _ _ _) => apply calls_only_try_except_of; [| intros ?]
  | |- calls_only _ (try_finally _ _) => apply calls_only_try_finally
  | |- calls_only _ (try_finally_raised _ _) => apply calls_only_try_finally_raised
  | |- calls_only _ (modify _) => apply calls_only_modify; intros ?; reflexivity
  | |- calls_only _ (if ?b then _ else _) => destruct b
  | |- calls_only _ (match ?x with _ => _ end) => destruct x
  | |- calls_only _ _ => solve [eauto with calls]
  end.

Ltac calls := repeat calls_step.

Section Calls.

Context (E : Env) (ok : ext_call → Prop).
Hypothesis ok_session : ∀ c, session_call c → ok c.

Lemma calls_only_external c : ok c → calls_only ok (external E c).
Proof. intros H. unfold external. calls. by apply calls_only_emit; intros ? [= <-]. Qed.

Lemma calls_only_session c : session_call c → calls_only ok (external E c).
Proof. intros H. by apply calls_only_external, ok_session. Qed.

Lemma calls_only_ask o : calls_only ok (ask E o).
Proof. unfold ask. calls. Qed.

Hint Resolve calls_only_ask : calls.
Hint Extern 1 (calls_only _ (external _ _)) => (apply calls_only_session; exact I) : calls.
Hint Extern 1 (calls_only _ (effect _)) => (apply calls_only_effect, ok_session; exact I) : calls.

Lemma calls_only__initialize_recorder r : calls_only ok (_initialize_recorder E r).
Proof. unfold _initialize_recorder. calls. Qed.

Lemma calls_only_process_speech r text : calls_only ok (process_speech E r text).
Proof. unfold process_speech. calls. Qed.

Lemma calls_only_LongFormTranscriber_stop r : calls_only ok (LongFormTranscriber_stop E r).
Proof. unfold LongFormTranscriber_stop. calls. Qed.

Hint Resolve calls_only__initialize_recorder calls_only_process_speech
  calls_only_LongFormTranscriber_stop : calls.

Lemma calls_only_LongFormTranscriber_start_enter r :
  calls_only ok (LongFormTranscriber_start_enter E r).
Proof. unfold LongFormTranscriber_start_enter. calls. Qed.

Lemma calls_only_LongFormTranscriber_start_body r :
  calls_only ok (LongFormTranscriber_start_body E r).
Proof. unfold LongFormTranscriber_start_body. calls. Qed.

Hint Resolve calls_only_LongFormTranscriber_start_enter
  calls_only_LongFormTranscriber_start_body : calls.

Lemma calls_only_call_method t meth : calls_only ok (call_method E t meth).
Proof. unfold call_method, no_attribute. calls. Qed.

Lemma calls_only_call_start t : calls_only ok (call_start E t).
Proof. unfold call_start. calls. Qed.

Lemma calls_only_hasattr t attr : calls_only ok (hasattr E t attr).
Proof. unfold hasattr. calls. Qed.

Lemma calls_only_attr_truthy t attr : calls_only ok (attr_truthy E t attr).
Proof. unfold attr_truthy, no_attribute. calls. Qed.

Hint Resolve calls_only_call_method calls_only_call_start calls_only_hasattr
  calls_only_attr_truthy : calls.

Lemma calls_only_clean_up_each items : calls_only ok (clean_up_each E items).
Proof. induction items as [|[module_type t] rest IH]; simpl; calls. Qed.

Lemma calls_only_stop_ahk_script : (∀ p, ok (Kill p)) → calls_only ok (stop_ahk_script E).
Proof. intros Hk. unfold stop_ahk_script. calls. by apply calls_only_external. Qed.

Lemma calls_only_import_module_lazily k : calls_only ok (import_module_lazily E k).
Proof. unfold import_module_lazily. calls. Qed.

Lemma calls_only_construct k cls kwargs : calls_only ok (construct E k cls kwargs).
Proof. unfold construct. calls. Qed.

Hint Resolve calls_only_import_module_lazily calls_only_construct : calls.

Lemma calls_only_initialize_transcriber k : calls_only ok (initialize_transcriber E k).
Proof. unfold initialize_transcriber. calls. Qed.

Lemma calls_only_spawn target : calls_only ok (spawn E target).
Proof. unfold spawn. calls. Qed.

Hint Resolve calls_only_initialize_transcriber calls_only_spawn : calls.

Lemma calls_only__toggle_realtime : calls_only ok (_toggle_realtime E).
Proof. unfold _toggle_realtime. calls. Qed.

Lemma calls_only__start_longform : calls_only ok (_start_longform E).
Proof. unfold _start_longform. calls. Qed.

Lemma calls_only__stop_longform : calls_only ok (_stop_longform E).
Proof. unfold _stop_longform. calls. Qed.

Lemma calls_only__run_static : calls_only ok (_run_static E).
Proof. unfold _run_static. calls. Qed.

Lemma calls_only__run_realtime_except e : calls_only ok (_run_realtime_except E e).
Proof. unfold _run_realtime_except. calls. Qed.

Lemma calls_only__run_static_except e : calls_only ok (_run_static_except e).
Proof. unfold _run_static_except. calls. Qed.

Hint Resolve calls_only__run_realtime_except calls_only__run_static_except : calls.

Lemma calls_only_worker_step w : calls_only ok (worker_step E w).
Proof.
  unfold worker_step, _run_realtime, _run_realtime_loop, _run_realtime_after,
    _run_static_thread, _run_static_poll.
  calls.
Qed.

End Calls.

Section Teardown.

Context (E : Env).

(** X13. No command but QUIT has a handler that touches the companion
    process, the server thread, the listener's sockets or the process
    itself: whatever the four mode commands and an unknown command call is a
    call by which a session is run. *)
Theorem only_quit_tears_down command s :
  command ≠ "QUIT" → Forall session_event (new_events s (_handle_command E command s).2).
Proof.
  intros Hq. apply Forall_forall. intros [| | |c] Hev; try exact I.
  revert Hev. apply calls_only_new_events.
  unfold _handle_command. apply calls_only_try_except; [|intros; calls].
  repeat case_decide; try done; try calls.
  - by apply calls_only__toggle_realtime.
  - by apply calls_only__start_longform.
  - by apply calls_only__stop_longform.
  - by apply calls_only__run_static.
Qed.

(** X14. A worker thread never touches the companion process, the server
    thread or the listener's sockets, and never ends the process: all it
    calls, in any of its blocks, are calls by which a session is run. *)
Theorem worker_leaves_process_alone w s :
  Forall session_event (new_events s (worker_step E w s).2).
Proof.
  apply Forall_forall. intros [| | |c] Hev; try exact I.
  revert Hev. apply calls_only_new_events. by apply calls_only_worker_step.
Qed.

End Teardown.

Lemma only_quit_tears_down_witness :
  Forall session_event
    (new_events (started calm) (_handle_command calm "TOGGLE_REALTIME" (started calm)).2).
Proof. apply only_quit_tears_down. discriminate. Defined.

(** * Which calls [stop] makes *)

Lemma calls_only_in_intro {A} (P : State → Prop) ok (m : M A) :
  preserves P m → calls_only ok m → calls_only_in P ok m.
Proof. intros Hp Hc s HP. split; [by apply Hp | apply Hc]. Qed.

Lemma calls_only_in_bind {A B} (P : State → Prop) ok (m : M A) (k : A → M B) :
  calls_only_in P ok m → (∀ a, calls_only_in P ok (k a)) → calls_only_in P ok (bind m k).
Proof.
  intros Hm Hk s HP. unfold bind. destruct (Hm s HP) as (HP' & evs & Hevs & Hok).
  destruct (m s) as [[a|e|c] s']; simpl in *; [|by eauto..].
  destruct (Hk a s' HP') as (HP'' & evs' & Hevs' & Hok'). split; [done|].
  exists (evs ++ evs')%list. split; [by rewrite Hevs', Hevs, app_assoc|].
  intros c [?|?]%elem_of_app; auto.
Qed.

Lemma calls_only_in_try_except {A} (P : State → Prop) ok (body : M A) handler :
  calls_only_in P ok body → (∀ e, calls_only_in P ok (handler e)) →
  calls_only_in P ok (try_except body handler).
Proof.
  intros Hm Hk s HP. unfold try_except. destruct (Hm s HP) as (HP' & evs & Hevs & Hok).
  destruct (body s) as [[a|e|c] s']; simpl in *; [by eauto| |by eauto].
  destruct (Hk e s' HP') as (HP'' & evs' & Hevs' & Hok'). split; [done|].
  exists (evs ++ evs')%list. split; [by rewrite Hevs', Hevs, app_assoc|].
  intros c [?|?]%elem_of_app; auto.
Qed.

Lemma calls_only_in_get {X B} (P : State → Prop) ok (f : State → X) (k : X → M B) :
  (∀ s0, P s0 → calls_only_in P ok (k (f s0))) → calls_only_in P ok (bind (get f) k).
Proof. intros H s HP. unfold bind, get. by apply (H s HP s HP). Qed.

Section StopCalls.

Context (E : Env).

Lemma teardown_session s c : session_call c → teardown_call s c.
Proof. by destruct c. Qed.

Lemma stop_calls s0 :
  calls_only_in (λ s, server_thread s = server_thread s0 ∧
                      current_thread s = current_thread s0 ∧ ahk_pid s = ahk_pid s0)
                (teardown_call s0) (stop E).
Proof.
  set (P := λ s, server_thread s = server_thread s0 ∧
                 current_thread s = current_thread s0 ∧ ahk_pid s = ahk_pid s0).
  assert (Closed P) by (split; intros; exact H).
  pose proof (teardown_session s0) as Hses.
  unfold stop. apply calls_only_in_try_except;
    [|intros e; apply calls_only_in_intro; [pres | calls]].
  apply calls_only_in_get. intros s1 _. destruct (negb (running s1));
    [apply calls_only_in_intro; [pres | calls]|].
  apply calls_only_in_bind; [apply calls_only_in_intro; [|calls]|intros _].
  { apply preserves_modify. intros s Hs. exact Hs. }
  apply calls_only_in_bind; [apply calls_only_in_intro|intros _].
  { pres. }
  { apply calls_only_try_except; [|intros; calls].
    apply calls_only_bind; [calls|intros mode]. apply calls_only_bind; [calls|intros ts].
    repeat case_match; try calls; by apply calls_only_call_method. }
  apply calls_only_in_bind; [|intros _].
  { unfold stop_ahk_script. apply calls_only_in_get. intros s2 (_ & _ & Hp).
    destruct (ahk_pid s2) as [p|]; apply calls_only_in_intro; try pres; try calls.
    apply calls_only_external. simpl. by rewrite <- Hp. }
  apply calls_only_in_get. intros s2 (_ & Hct & _).
  apply calls_only_in_get. intros s3 (Hst & _ & _).
  apply calls_only_in_bind; [apply calls_only_in_intro; [pres|]|intros _].
  { apply calls_only_try_except; [|intros; calls].
    destruct (server_thread s3) as [sid|]; [|calls].
    apply calls_only_bind; [by apply calls_only_ask|intros alive].
    destruct alive; simpl; [|calls]. case_bool_decide; simpl; [calls|].
    apply calls_only_bind; [|intros; calls]. apply calls_only_external.
    simpl. split; congruence. }
  apply calls_only_in_intro; [pres|].
  apply calls_only_bind; [calls|intros ts].
  apply calls_only_bind; [by apply calls_only_clean_up_each|intros; calls].
Qed.

(** X15. The calls of [stop] are confined: besides what it calls on the
    transcribers it kills nothing but the companion whose PID is stored, it
    joins nothing but the server thread, and never from the server thread
    itself (so QUIT, which is handled there, cannot wait for itself), and it
    neither launches a process, nor touches a socket, nor exits. *)
Theorem stop_calls_confined s :
  Forall (teardown_event s) (new_events s (stop E s).2).
Proof.
  apply Forall_forall. intros [| | |c] Hev; try exact I.
  destruct (stop_calls s s) as (_ & evs & Hevs & Hok); [done|].
  rewrite (new_events_app _ _ _ Hevs) in Hev. by apply Hok.
Qed.

End StopCalls.

(** * The keyboard interrupt *)

Section Interrupted.

Context (E : Env).

Lemma stop_when_off s : running s = false → stop E s = (Normal tt, s).
Proof. intros Hs. unfold stop. run. by rewrite Hs. Qed.

Lemma interrupt_step s :
  exit_code s = None →
  step E Interrupt s =
    set_exit_code (Some 0%Z)
      (stop E (set_trace (trace s ++ [Print (newline +:+
                                             "Keyboard interrupt received, shutting down...")])
                 (set_current_thread 0 s))).2.
Proof.
  intros Hx. unfold step. rewrite Hx. unfold run_interrupted.
  cbv beta iota delta [bind safe_print emit modify].
  match goal with |- context [stop E ?st] =>
    replace st with (set_trace (trace s ++ [Print (newline +:+
                                   "Keyboard interrupt received, shutting down...")])
                       (set_current_thread 0 s)) by state_eq;
    pose proof (stop_normal E (set_trace (trace s ++ [Print (newline +:+
                                   "Keyboard interrupt received, shutting down...")])
                       (set_current_thread 0 s))) as Hn;
    pose proof (stop_running_false E (set_trace (trace s ++ [Print (newline +:+
                                   "Keyboard interrupt received, shutting down...")])
                       (set_current_thread 0 s))) as Hf
  end.
  destruct (stop E _) as [o s1]. simpl in Hn, Hf. subst o.
  by rewrite (stop_when_off s1 Hf).
Qed.

(** X16. A keyboard interrupt in the main loop shuts the process down as
    QUIT does, but from the main thread: [stop] runs once, in the [finally]
    clause of [run]; the second [stop], registered with [atexit], finds the
    running flag false and adds nothing; the running flag ends false, the
    companion whose PID is known is killed, [current_mode] keeps its value,
    and the process has ended: no later step changes anything. *)
Theorem interrupt_shuts_down s :
  reachable E s → exit_code s = None →
  step E Interrupt s =
    set_exit_code (Some 0%Z)
      (stop E (set_trace (trace s ++ [Print (newline +:+
                                             "Keyboard interrupt received, shutting down...")])
                 (set_current_thread 0 s))).2 ∧
  running (step E Interrupt s) = false ∧
  current_mode (step E Interrupt s) = current_mode s ∧
  (∀ p, ahk_pid s = Some p → Call (Kill p) ∈ new_events s (step E Interrupt s)) ∧
  (∀ l, step E l (step E Interrupt s) = step E Interrupt s).
Proof.
  intros Hreach Hx.
  destruct (reachable_running_until_exit E s Hreach Hx) as [Hr _].
  rewrite (interrupt_step s Hx). split_and!.
  - done.
  - simpl. apply stop_running_false.
  - simpl. by rewrite stop_keeps_mode.
  - intros p Hp. unfold new_events. simpl.
    apply stop_kills_companion; [done|done|]. simpl. rewrite length_app. lia.
  - intros l. unfold step. done.
Qed.

End Interrupted.

Lemma interrupt_shuts_down_witness :
  killed (new_events (started calm) (step calm Interrupt (started calm))) = [4242%Z] ∧
  running (step calm Interrupt (started calm)) = false.
Proof.
  assert (Hr : reachable calm (started calm)).
  { apply started_reachable. vm_compute; reflexivity. }
  assert (Hx : exit_code (started calm) = None) by (vm_compute; reflexivity).
  split; [vm_compute; reflexivity|].
  exact (proj1 (proj2 (interrupt_shuts_down calm _ Hr Hx))).
Defined.

(** * What an acquisition leaves alone *)

Section Frame.

Context (E : Env) (P : State → Prop) `{!Closed P} (k : string).
Hypothesis closed_module_at : ∀ s m, P s → P (set_modules (<[k := m]> (modules s)) s).
Hypothesis closed_objects : ∀ s v, P s → P (set_objects v s).
Hypothesis closed_cached_at : ∀ s t,
  P s → P (set_transcribers (dict_set k t (transcribers s)) s).

Lemma frame_import_module_lazily : preserves P (import_module_lazily E k).
Proof.
  unfold import_module_lazily. pres.
  apply preserves_modify. intros. by apply closed_module_at.
Qed.

Lemma frame_alloc ob : preserves P (alloc ob).
Proof. intros s H. by apply closed_objects, closed_next_ref. Qed.

Lemma frame_store_transcriber t : preserves P (store_transcriber k t).
Proof. apply preserves_modify. intros. by apply closed_cached_at. Qed.

Hint Resolve frame_import_module_lazily frame_alloc frame_store_transcriber : pres.

Lemma frame_initialize_transcriber : preserves P (initialize_transcriber E k).
Proof. unfold initialize_transcriber, construct. pres. Qed.

End Frame.

Section Lazy.

Context (E : Env).

(** X17. Acquiring a transcriber for one mode touches nothing of the
    orchestrator but the two caches, and these only at that mode: the
    modules and transcribers kept for the other modes, the current mode, the
    running flag, the companion's PID and the threads are as before,
    whether the acquisition succeeds or fails. *)
Theorem acquisition_frame k s :
  same_session s (initialize_transcriber E k s).2 ∧
  same_caches_but k s (initialize_transcriber E k s).2.
Proof.
  set (P := λ s', same_session s s' ∧ same_caches_but k s s').
  assert (Closed P) by (split; intros; exact H).
  apply (frame_initialize_transcriber E P k).
  - intros s' m [Hs Hc]. split; [exact Hs|]. intros k' Hk'. simpl.
    rewrite lookup_insert_ne by done. by apply Hc.
  - intros s' v H'. exact H'.
  - intros s' t [Hs Hc]. split; [exact Hs|]. intros k' Hk'. simpl.
    rewrite dict_get_set_ne by done. by apply Hc.
  - by split.
Qed.

(** X18. Startup is lazy: when [run] reaches its main loop, or fails before
    it, only the longform module can have been imported and only the
    longform transcriber constructed; the realtime and static modules are
    untouched, no mode is active and no worker thread has been started. *)
Theorem startup_is_lazy dir : only_loaded "longform" (run_startup E (init dir)).2.
Proof.
  assert (Closed (only_loaded "longform")) by (split; intros; exact H).
  cut (preserves (only_loaded "longform") (run_startup E)).
  { intros Hp. apply Hp. by split_and!. }
  unfold run_startup.
  apply (preserves_bind (only_loaded "longform")); [|intros _].
  { apply preserves_start_server; closure. }
  apply (preserves_bind (only_loaded "longform")); [|intros _].
  { apply preserves_start_ahk_script; closure. }
  apply (preserves_bind (only_loaded "longform")); [pres|intros _].
  apply (preserves_bind (only_loaded "longform")); [|intros r; unfold banner; pres].
  - apply frame_initialize_transcriber; [done|..].
    + intros s m (Hc & Hm & Ht). split_and!; [|done..]. intros k' Hk'. simpl.
      rewrite lookup_insert_ne by done. by apply Hc.
    + intros s v H'. exact H'.
    + intros s t (Hc & Hm & Ht). split_and!; [|done..]. intros k' Hk'. simpl.
      rewrite dict_get_set_ne by done. by apply Hc.
Qed.

End Lazy.

(** * The loop of the realtime transcriber *)

Section RealtimeLoop.

Context (E : Env).

Lemma append_string_nil_r a : a +:+ "" = a.
Proof.
  induction a as [|ch a IH]; [reflexivity|].
  change (String ch (a +:+ "") = String ch a). by rewrite IH.
Qed.

Lemma transcriber_stop_spec r o s :
  objects s !! r = Some (RealtimeTranscriber o) →
  ∃ s' o',
    LongFormTranscriber_stop E r s = (Normal tt, s') ∧
    objects s' !! r = Some (RealtimeTranscriber o') ∧
    LongFormTranscriber.running o' = false ∧
    LongFormTranscriber.recorder o' = None ∧
    LongFormTranscriber.text_buffer o' = LongFormTranscriber.text_buffer o ∧
    current_mode s' = current_mode s.
Proof.
  intros Ho. unfold LongFormTranscriber_stop.
  cbv beta iota delta [bind ret raise get modify emit try_except set_attr get_attr
                       module_print external tick].
  simpl. rewrite lookup_alter_eq, Ho. simpl.
  destruct (LongFormTranscriber.recorder o) as [n|] eqn:Hrec; simpl.
  - destruct (raises E (clock s) (RecorderMethod n "abort")); simpl;
      [|destruct (raises E (S (clock s)) (RecorderMethod n "shutdown")); simpl];
      do 2 eexists; (split; [reflexivity|]); simpl;
      rewrite !lookup_alter_eq, Ho; simpl; by split_and!.
  - do 2 eexists. split; [reflexivity|]. simpl. rewrite lookup_alter_eq, Ho. simpl.
    by split_and!.
Qed.

Lemma process_speech_spec r o s text :
  objects s !! r = Some (RealtimeTranscriber o) →
  ∃ s' o',
    process_speech E r text s = (Normal tt, s') ∧
    objects s' !! r = Some (RealtimeTranscriber o') ∧
    LongFormTranscriber.running o' = LongFormTranscriber.running o ∧
    LongFormTranscriber.recorder o' = LongFormTranscriber.recorder o ∧
    (∃ rest, LongFormTranscriber.text_buffer o' = LongFormTranscriber.text_buffer o +:+ rest) ∧
    current_mode s' = current_mode s.
Proof.
  intros Ho. destruct text as [text|].
  - unfold process_speech.
    cbv beta iota delta [bind ret get modify emit set_attr get_attr module_print].
    rewrite Ho. cbv beta iota.
    pose proof (appended_prefix (LongFormTranscriber.text_buffer o) text) as Hpre.
    unfold appended in Hpre.
    destruct (truthy (Some (LongFormTranscriber.text_buffer o)) &&
              negb (endswith_space (LongFormTranscriber.text_buffer o)));
      cbn [objects set_objects set_trace fst snd];
      rewrite ?lookup_alter_eq, Ho; cbn [fmap option_fmap option_map on_transcriber];
      do 2 eexists; (split; [reflexivity|]);
      cbn [objects set_objects set_trace]; rewrite ?lookup_alter_eq, Ho;
      cbn [fmap option_fmap option_map on_transcriber];
      (split; [reflexivity|]); by split_and!.
  - exists s, o. split_and!; try done. exists "". by rewrite append_string_nil_r.
Qed.

Ltac same_object :=
  eexists _, _; split; [reflexivity|]; split; [eassumption|]; by split_and!.

Lemma start_body_spec r o s :
  objects s !! r = Some (RealtimeTranscriber o) →
  ∃ s' o',
    LongFormTranscriber_start_body E r s = (Normal tt, s') ∧
    objects s' !! r = Some (RealtimeTranscriber o') ∧
    LongFormTranscriber.running o' = LongFormTranscriber.running o ∧
    LongFormTranscriber.recorder o' = LongFormTranscriber.recorder o ∧
    (∃ rest, LongFormTranscriber.text_buffer o' = LongFormTranscriber.text_buffer o +:+ rest) ∧
    current_mode s' = current_mode s.
Proof.
  intros Ho.
  assert (Hnil : ∃ rest, LongFormTranscriber.text_buffer o =
                         LongFormTranscriber.text_buffer o +:+ rest)
    by (exists ""; by rewrite append_string_nil_r).
  unfold LongFormTranscriber_start_body. unfold try_except, bind at 1, get_attr at 1.
  rewrite Ho. cbv beta iota.
  destruct (LongFormTranscriber.recorder o) as [n|] eqn:Hrec.
  - unfold bind at 1, external.
    cbv beta iota delta [bind ret raise modify emit tick effect module_print]. cbn [clock set_trace].
    destruct (raises E (clock s) (RecorderMethod n "text")) as [e|].
    + same_object.
    + destruct (truthy (recorder_text E (clock s))).
      * match goal with |- context [process_speech E r ?text ?st] =>
          destruct (process_speech_spec r o st text) as (s' & o' & -> & Hres); [done|] end.
        destruct Hres as (? & ? & ? & ? & ?).
        exists s', o'. split_and!; try done. congruence.
      * same_object.
  - cbv beta iota delta [bind ret raise modify emit tick effect module_print].
    same_object.
Qed.

(** X19. The loop of the realtime transcriber runs exactly as long as its
    running flag is set.  With the flag set, a pass through the loop never
    ends it, whatever the recorder does: the worker stays in the loop, the
    flag and the recorder are as before, and the text is the old text,
    possibly extended.  With the flag cleared, the worker leaves the loop,
    releases the recorder, keeps the text and ends with no mode active. *)
Theorem realtime_loop_step r o s :
  objects s !! r = Some (RealtimeTranscriber o) →
  (LongFormTranscriber.running o = true →
   ∃ s' o',
     worker_step E (InRealtimeLoop r) s = (Normal (InRealtimeLoop r), s') ∧
     objects s' !! r = Some (RealtimeTranscriber o') ∧
     LongFormTranscriber.running o' = true ∧
     LongFormTranscriber.recorder o' = LongFormTranscriber.recorder o ∧
     (∃ rest, LongFormTranscriber.text_buffer o' = LongFormTranscriber.text_buffer o +:+ rest) ∧
     current_mode s' = current_mode s) ∧
  (LongFormTranscriber.running o = false →
   ∃ s' o',
     worker_step E (InRealtimeLoop r) s = (Normal Finished, s') ∧
     objects s' !! r = Some (RealtimeTranscriber o') ∧
     LongFormTranscriber.recorder o' = None ∧
     LongFormTranscriber.text_buffer o' = LongFormTranscriber.text_buffer o ∧
     current_mode s' = None).
Proof.
  intros Ho.
  split; intros Hrun; unfold worker_step, _run_realtime_loop;
    unfold try_except, bind at 1, try_finally_raised at 1, get_attr at 1; rewrite Ho;
    cbv beta iota; rewrite Hrun.
  - destruct (start_body_spec r o s Ho) as (s' & o' & Hb & Ho' & Hr' & Hrest).
    unfold bind, try_finally_raised. rewrite Hb. exists s', o'.
    split; [reflexivity|]. split; [done|]. split; [congruence|done].
  - destruct (transcriber_stop_spec r o s Ho) as (s' & o' & Hb & Ho' & _ & Hrec & Hbuf & _).
    unfold bind at 1. rewrite Hb. unfold _run_realtime_after.
    cbv beta iota delta [bind ret modify emit log_info set_mode].
    do 2 eexists. split; [reflexivity|]. simpl. by split_and!.
Qed.

End RealtimeLoop.

Lemma realtime_loop_step_witness :
  ∃ s' o',
    worker_step calm (InRealtimeLoop 3) listening = (Normal (InRealtimeLoop 3), s') ∧
    objects s' !! 3 = Some (RealtimeTranscriber o') ∧
    LongFormTranscriber.running o' = true.
Proof.
  destruct (proj1 (realtime_loop_step calm 3 _ listening listening_transcriber) eq_refl)
    as (s' & o' & H1 & H2 & H3 & _).
  exists s', o'. exact (conj H1 (conj H2 H3)).
Defined.

(** * Work that is always brought to its end *)

Lemma ends_with_emit ev : ends_with ev (emit ev).
Proof. intros s. by eexists _, []. Qed.

Lemma ends_with_bind {A} ev (m : M A) (k : A → M unit) :
  returns m → calls_only (λ _, True) m → (∀ a, ends_with ev (k a)) →
  ends_with ev (bind m k).
Proof.
  intros Hr Hc Hk s. unfold bind. destruct (Hr s) as [a Ha].
  destruct (Hc s) as (evs & Hevs & _).
  destruct (m s) as [o s1]. simpl in *. subst o.
  destruct (Hk a s1) as (s' & evs' & Hs' & Htr). exists s', (evs ++ evs')%list.
  split; [done|]. by rewrite Htr, Hevs, <- !app_assoc.
Qed.

Section Completion.

Context (E : Env).

Lemma calls_only__handle_command ok command :
  (∀ c, session_call c → ok c) → command ≠ "QUIT" →
  calls_only ok (_handle_command E command).
Proof.
  intros Hok Hq. unfold _handle_command. apply calls_only_try_except; [|intros; calls].
  repeat case_decide; try done; try calls.
  - by apply calls_only__toggle_realtime.
  - by apply calls_only__start_longform.
  - by apply calls_only__stop_longform.
  - by apply calls_only__run_static.
Qed.

(** X20. Every connection that carries a command other than QUIT is closed
    once the command has been handled, whatever the handler did: the pass
    through the listener's loop returns normally, logs the command first and
    closes the client socket last. *)
Theorem connection_always_closed data s :
  data ≠ "QUIT" →
  ∃ s' evs,
    _run_server_body E (Some data) s = (Normal tt, s') ∧
    new_events s s' =
      (LogInfo ("Received command: " +:+ data) :: evs ++ [Call (SocketClose "client")])%list.
Proof.
  intros Hq. unfold _run_server_body.
  cbv beta iota delta [bind try_except log_info emit modify effect].
  pose proof (handle_command_normal E data
                (set_trace (trace s ++ [LogInfo ("Received command: " +:+ data)]) s) Hq) as Hn.
  destruct (calls_only__handle_command (λ _, True) data (λ _ _, I) Hq
              (set_trace (trace s ++ [LogInfo ("Received command: " +:+ data)]) s))
    as (evs & Hevs & _).
  destruct (_handle_command E data _) as [o s1]. simpl in Hn, Hevs. subst o.
  eexists _, evs. split; [reflexivity|].
  apply new_events_app. simpl. by rewrite Hevs, <- !app_assoc.
Qed.

Lemma returns_clean_up_each items : returns (clean_up_each E items).
Proof.
  induction items as [|[module_type t] rest IH]; simpl; [apply returns_ret|].
  apply returns_bind; [|done]. apply returns_try_except; [no_exit|].
  intros e. apply returns_emit.
Qed.

Lemma returns_stop_ahk_script : returns (stop_ahk_script E).
Proof. unfold stop_ahk_script, log_info, log_error. returns. Qed.

(** X21. [stop] of a running orchestrator is always brought to its end: no
    failure of a transcriber, of the kill of the companion or of the join
    of the server thread keeps the later steps from being taken; [stop]
    returns normally and the last thing it does is to log that the
    orchestrator stopped successfully. *)
Theorem stop_completes s :
  running s = true →
  ∃ s' evs,
    stop E s = (Normal tt, s') ∧
    new_events s s' = (evs ++ [LogInfo "Orchestrator stopped successfully"])%list.
Proof.
  intros Hr. unfold stop, try_except. unfold bind at 1, get. rewrite Hr. cbn [negb].
  match goal with |- context [bind ?m ?k s] =>
    assert (ends_with (LogInfo "Orchestrator stopped successfully") (bind m k)) as Hends end.
  { pose proof (λ c (_ : session_call c), I) as Hok.
    apply ends_with_bind; [apply returns_modify | calls | intros _].
    apply ends_with_bind; [|apply calls_only_try_except; [|intros; calls]|intros _].
    { apply returns_try_except; [unfold log_info, log_error; no_exit|].
      intros e. apply returns_emit. }
    { apply calls_only_bind; [calls|intros mode]. apply calls_only_bind; [calls|intros ts].
      repeat case_match; try calls; by apply calls_only_call_method. }
    apply ends_with_bind;
      [apply returns_stop_ahk_script | by apply calls_only_stop_ahk_script | intros _].
    apply ends_with_bind; [apply returns_get | calls | intros ct].
    apply ends_with_bind; [apply returns_get | calls | intros st].
    apply ends_with_bind; [|apply calls_only_try_except; [|intros; calls]|intros _].
    { apply returns_try_except; [unfold log_info, log_error; no_exit|].
      intros e. apply returns_emit. }
    { destruct st as [sid|]; [|calls].
      apply calls_only_bind; [by apply calls_only_ask|intros alive].
      destruct (alive && _); [|calls].
      apply calls_only_bind; [by apply calls_only_external|intros; calls]. }
    apply ends_with_bind; [apply returns_get | calls | intros ts].
    apply ends_with_bind;
      [apply returns_clean_up_each | by apply calls_only_clean_up_each | intros _].
    apply ends_with_emit. }
  destruct (Hends s) as (s' & evs & -> & Htr). exists s', evs. split; [done|].
  by apply new_events_app.
Qed.

End Completion.

Lemma connection_always_closed_witness :
  ∃ s' evs,
    _run_server_body calm (Some "RUN_STATIC") (started calm) = (Normal tt, s') ∧
    new_events (started calm) s' =
      (LogInfo "Received command: RUN_STATIC" :: evs ++ [Call (SocketClose "client")])%list.
Proof. apply connection_always_closed. discriminate. Defined.

Lemma stop_completes_witness :
  ∃ s' evs,
    stop calm (started calm) = (Normal tt, s') ∧
    new_events (started calm) s' =
      (evs ++ [LogInfo "Orchestrator stopped successfully"])%list.
Proof. apply stop_completes. vm_compute. reflexivity. Defined.

(** * The start of a realtime session *)

Section SessionStart.

Context (E : Env).

(** X22. A realtime worker starts its session with an empty text, whatever
    an earlier session left in the buffer.  When the transcriber has a
    recorder or one can be constructed, the worker enters the loop with the
    running flag set; when the recorder cannot be constructed, [start]
    returns at once and the worker ends with no mode active, the
    transcriber still without recorder. *)
Theorem realtime_session_start t o s :
  dict_get (transcribers s) "realtime" = Some t →
  objects s !! t = Some (RealtimeTranscriber o) →
  (is_Some (LongFormTranscriber.recorder o) ∨ raises E (clock s) NewRecorder = None →
   ∃ s' o',
     worker_step E (Ready "_run_realtime") s = (Normal (InRealtimeLoop t), s') ∧
     objects s' !! t = Some (RealtimeTranscriber o') ∧
     LongFormTranscriber.text_buffer o' = "" ∧
     LongFormTranscriber.running o' = true ∧
     is_Some (LongFormTranscriber.recorder o') ∧
     current_mode s' = current_mode s) ∧
  (∀ e,
     LongFormTranscriber.recorder o = None → raises E (clock s) NewRecorder = Some e →
     ∃ s' o',
       worker_step E (Ready "_run_realtime") s = (Normal Finished, s') ∧
       objects s' !! t = Some (RealtimeTranscriber o') ∧
       LongFormTranscriber.text_buffer o' = "" ∧
       LongFormTranscriber.recorder o' = None ∧
       LongFormTranscriber.running o' = LongFormTranscriber.running o ∧
       current_mode s' = None).
Proof.
  intros Ht Ho.
  assert (Hstart : worker_step E (Ready "_run_realtime") s = _run_realtime E s).
  { unfold worker_step. by rewrite decide_True. }
  rewrite Hstart. unfold _run_realtime, call_start, LongFormTranscriber_start_enter,
    _initialize_recorder, _run_realtime_after.
  cbv beta iota delta [bind ret raise get modify emit try_except set_attr get_attr
                       module_print external tick fresh safe_print log_info set_mode].
  rewrite Ht.
  split.
  - intros Hrec. destruct (LongFormTranscriber.recorder o) as [n|] eqn:Hn.
    + look_up Ho. rewrite Hn. look_up Ho.
      eexists _, (LongFormTranscriber.set_running true
                    (LongFormTranscriber.set_text_buffer "" o)).
      split; [reflexivity|]. look_up Ho. rewrite Hn. by split_and!.
    + destruct Hrec as [[n' Hn']|Hraise]; [done|].
      look_up Ho. rewrite Hn. look_up Ho. rewrite Hraise. look_up Ho.
      eexists _, (LongFormTranscriber.set_running true
                    (LongFormTranscriber.set_model_initialized true
                       (LongFormTranscriber.set_recorder (Some (next_ref s))
                          (LongFormTranscriber.set_text_buffer "" o)))).
      split; [reflexivity|]. look_up Ho. by split_and!.
  - intros e Hn Hraise. look_up Ho. rewrite Hn. look_up Ho. rewrite Hraise. look_up Ho.
    eexists _, (LongFormTranscriber.set_text_buffer "" o).
    split; [reflexivity|]. look_up Ho. rewrite Hn. by split_and!.
Qed.

End SessionStart.

Lemma realtime_session_start_witness :
  ∃ s', worker_step calm (Ready "_run_realtime") toggled = (Normal (InRealtimeLoop 3), s').
Proof.
  assert (Ht : dict_get (transcribers toggled) "realtime" = Some 3)
    by (vm_compute; reflexivity).
  assert (Ho : objects toggled !! 3 = Some (RealtimeTranscriber LongFormTranscriber.init))
    by (vm_compute; reflexivity).
  destruct (proj1 (realtime_session_start calm 3 _ _ Ht Ho) (or_intror eq_refl))
    as (s' & o' & H1 & _).
  exists s'. exact H1.
Defined.

(** * The active mode has its transcriber *)

Section AcquisitionResult.

Context (E : Env).

(** What [initialize_transcriber] returns is what the cache holds. *)
Lemma initialize_transcriber_some k s t s1 :
  initialize_transcriber E k s = (Normal (Some t), s1) →
  dict_get (transcribers s1) k = Some t.
Proof.
  unfold initialize_transcriber. unfold bind at 1, get.
  destruct (dict_get (transcribers s) k) as [t0|] eqn:Hc.
  { intros [= <- <-]. done. }
  unfold bind at 1. destruct (import_module_lazily E k s) as [[[m|]|e|c] s0]; [| |done..].
  - unfold try_except. unfold bind at 1.
    match goal with |- context [(if decide (k = "realtime") then ?a else ?b) s0] =>
      destruct ((if decide (k = "realtime") then a else b) s0) as [[[]|e|c] s2] end.
    + cbv beta iota delta [bind log_info log_error emit modify get ret raise].
      cbn [transcribers set_trace].
      destruct (dict_get (transcribers s2) k) as [t'|] eqn:Ht'; [|done].
      intros [= <- <-]. done.
    + cbv beta iota delta [bind log_error emit modify ret]. done.
    + done.
  - cbv beta iota delta [bind log_error emit modify ret]. done.
Qed.

End AcquisitionResult.

Section ModeCached.

Context (E : Env) (P : State → Prop) `{!Closed P}.
Hypothesis closed_modules : ∀ s m, P s → P (set_modules m s).
Hypothesis closed_new : ∀ s k cls,
  (k, cls) ∈ transcriber_classes →
  dict_get (transcribers s) k = None → P s → P (with_new_transcriber k cls s).
Hypothesis closed_threads : ∀ s t, P s → P (set_threads t s).
Hypothesis closed_mode_none : ∀ s, P s → P (set_current_mode None s).
Hypothesis closed_mode_cached : ∀ s k,
  is_Some (dict_get (transcribers s) k) → P s → P (set_current_mode (Some k) s).
Hypothesis closed_current_thread : ∀ s t, P s → P (set_current_thread t s).
Hypothesis closed_running : ∀ s v, P s → P (set_running v s).
Hypothesis closed_exit_code : ∀ s v, P s → P (set_exit_code v s).

Lemma preserves_set_mode_none : preserves P (set_mode None).
Proof. apply preserves_modify. intros. by apply closed_mode_none. Qed.

Hint Resolve preserves_set_mode_none : pres.

(** A start handler: the mode is set only once the acquisition has handed
    out the transcriber, which is then in the cache. *)
Lemma preserves_start k failed starting error (launch : nat → M unit) :
  (∀ t, preserves P (launch t)) →
  (∀ t, preserves (λ s, P s ∧ dict_get (transcribers s) k = Some t) (safe_print starting)) →
  preserves P
    (try_except
       (transcriber <- initialize_transcriber E k;;
        match transcriber with
        | None => safe_print failed
        | Some t => safe_print starting;; set_mode (Some k);; launch t
        end)
       (λ e, log_error (error +:+ exn_msg e);; set_mode None)).
Proof.
  intros Hlaunch Hprint s HP. unfold try_except, bind at 1.
  pose proof (preserves_initialize_transcriber E P closed_modules closed_new k s HP) as HP1.
  pose proof (initialize_transcriber_some E k s) as Hsome.
  destruct (initialize_transcriber E k s) as [[[t|]|e|c] s1]; simpl in HP1.
  - specialize (Hsome t s1 eq_refl).
    assert (hoare (λ s', P s' ∧ dict_get (transcribers s') k = Some t)
              (try_except (safe_print starting;; set_mode (Some k);; launch t)
                 (λ e, log_error (error +:+ exn_msg e);; set_mode None)) P) as Hrest.
    { apply hoare_try_except with (R := P); [|done|intros; pres].
      apply hoare_bind with (R := λ s', P s' ∧ dict_get (transcribers s') k = Some t);
        [apply Hprint | by intros ? [? ?] | intros _].
      apply hoare_bind with (R := P); [|done|intros _; apply Hlaunch].
      intros s' [HP' Hc]. apply closed_mode_cached; [by rewrite Hc | done]. }
    by apply (Hrest s1).
  - assert (preserves P (try_except (safe_print failed)
                           (λ e, log_error (error +:+ exn_msg e);; set_mode None))) as Hrest
      by pres.
    by apply (Hrest s1).
  - assert (preserves P (log_error (error +:+ exn_msg e);; set_mode None)) as Hrest by pres.
    by apply (Hrest s1).
  - done.
Qed.

Lemma Closed_and_cached k t :
  Closed (λ s, P s ∧ dict_get (transcribers s) k = Some t).
Proof. by apply (Closed_and_transcribers P (λ d, dict_get d k = Some t)). Qed.

Lemma preserves_spawn_cached target : preserves P (spawn E target).
Proof. unfold spawn. pres. apply preserves_modify. intros. by apply closed_threads. Qed.

Hint Resolve preserves_spawn_cached : pres.

Lemma mode_cached__toggle_realtime : preserves P (_toggle_realtime E).
Proof.
  unfold _toggle_realtime. apply preserves_bind; [pres|intros mode].
  destruct (truthy mode && _); [pres|]. destruct (bool_decide _); [pres|].
  apply (preserves_start "realtime" _ _ "Error starting real-time transcription: "
           (λ _, spawn E "_run_realtime")).
  - intros _. pres.
  - intros t. pose proof (Closed_and_cached "realtime" t). pres.
Qed.

Lemma mode_cached__start_longform : preserves P (_start_longform E).
Proof.
  unfold _start_longform. apply preserves_bind; [pres|intros mode].
  destruct (truthy mode); [pres|].
  apply (preserves_start "longform" _ _ "Error starting long-form recording: "
           (λ t, call_method E t "start_recording")).
  - intros t. pres.
  - intros t. pose proof (Closed_and_cached "longform" t). pres.
Qed.

Lemma mode_cached__run_static : preserves P (_run_static E).
Proof.
  unfold _run_static. apply preserves_bind; [pres|intros mode].
  destruct (truthy mode); [pres|].
  apply (preserves_start "static" _ _ "Error starting static transcription: "
           (λ _, spawn E "_run_static_thread")).
  - intros _. pres.
  - intros t. pose proof (Closed_and_cached "static" t). pres.
Qed.

Lemma mode_cached__stop_longform : preserves P (_stop_longform E).
Proof. unfold _stop_longform. pres. Qed.

Lemma mode_cached_worker_step w : preserves P (worker_step E w).
Proof.
  unfold worker_step, _run_realtime, _run_realtime_loop, _run_static_thread, _run_static_poll,
    _run_realtime_except, _run_realtime_after, _run_static_except.
  pres.
Qed.

Lemma mode_cached__handle_command command : preserves P (_handle_command E command).
Proof.
  unfold _handle_command. apply preserves_try_except; [|intros; pres].
  repeat case_decide; try pres.
  - apply mode_cached__toggle_realtime.
  - apply mode_cached__start_longform.
  - apply mode_cached__stop_longform.
  - apply mode_cached__run_static.
  - unfold _quit. apply preserves_bind; [pres|intros _].
    apply preserves_bind; [by apply preserves_stop|intros _].
    by apply preserves_os_exit.
Qed.

Lemma mode_cached_step l s : P s → P (step E l s).
Proof.
  intros H. unfold step. destruct (exit_code s); [done|]. destruct l as [conn|i|].
  - destruct (server_thread s); [|done]. destruct (running s); [|done].
    unfold _run_server_body.
    apply preserves_try_except; [|intros; pres|by apply closed_current_thread].
    destruct conn as [data|]; [|pres].
    apply preserves_bind; [pres|intros _].
    apply preserves_bind; [apply mode_cached__handle_command|intros _; pres].
  - destruct (threads s !! i) as [w|]; [|done].
    pose proof (mode_cached_worker_step w s H) as Hw.
    destruct (worker_step E w s) as [[w'|e|c] s']; by apply closed_threads.
  - unfold run_interrupted.
    assert (preserves P (safe_print (newline +:+ "Keyboard interrupt received, shutting down...");;
                         stop E;; stop E;; modify (set_exit_code (Some 0%Z)))) as Hp.
    { apply preserves_bind; [pres|intros _].
      apply preserves_bind; [by apply preserves_stop|intros _].
      apply preserves_bind; [by apply preserves_stop|intros _].
      apply preserves_modify. intros. by apply closed_exit_code. }
    by apply Hp, closed_current_thread.
Qed.

Lemma mode_cached_exec ls s : P s → P (exec E ls s).
Proof.
  revert s. induction ls as [|l ls IH]; intros s H; simpl; [done|].
  by apply IH, mode_cached_step.
Qed.

End ModeCached.

Section ModeCachedInvariant.

Context (E : Env).

#[local] Instance Closed_mode_cached : Closed mode_cached.
Proof. split; intros; exact H. Qed.

Lemma mode_cached_new s k cls :
  mode_cached s → mode_cached (with_new_transcriber k cls s).
Proof.
  intros H m Hm. simpl. destruct (decide (k = m)) as [->|Hne].
  - by rewrite dict_get_set_eq.
  - rewrite dict_get_set_ne by done. by apply H.
Qed.

(** X23. In every reachable state the transcriber of the active mode is in
    the cache: a mode is entered only after its transcriber has been
    acquired, and nothing is ever removed from the cache. *)
Theorem active_mode_has_transcriber s m :
  reachable E s → current_mode s = Some m → is_Some (dict_get (transcribers s) m).
Proof.
  intros (dir & s0 & ls & Hrun & ->). revert m. change (mode_cached (exec E ls s0)).
  apply mode_cached_exec; try closure.
  - intros. by apply mode_cached_new.
  - intros s k Hk H m [= <-]. exact Hk.
  - replace s0 with (run_startup E (init dir)).2 by (by rewrite Hrun).
    apply preserves_run_startup; try closure.
    intros. by apply mode_cached_new.
Qed.

End ModeCachedInvariant.

Lemma active_mode_has_transcriber_witness :
  is_Some (dict_get (transcribers toggled) "realtime").
Proof.
  apply (active_mode_has_transcriber calm).
  - apply reachable_exec, started_reachable. vm_compute. reflexivity.
  - vm_compute. reflexivity.
Defined.

(** * A realtime session toggled off before its worker has started *)

(** C1. Mutual exclusion fails when TOGGLE_REALTIME arrives a second time
    before the realtime worker has got as far as the loop of [start]: the
    handler finds no recorder to stop, reports the session as stopped and
    resets [current_mode]; the worker then starts the recognition all the
    same, and START_LONGFORM, finding no current mode, is accepted.  In the
    state reached, longform is the current mode and its recording has been
    started, while the realtime worker is in its loop, its transcriber
    running with a recorder from which the next pass reads: two modes are
    at work. *)
Theorem modes_overlap :
  reachable calm overlapped ∧
  current_mode
    (exec calm [Connection (Some "TOGGLE_REALTIME"); Connection (Some "TOGGLE_REALTIME")]
       (started calm)) = None ∧
  current_mode overlapped = Some "longform" ∧
  last (new_events (started calm) overlapped) = Some (Call (SocketClose "client")) ∧
  Call (Method 2 "start_recording") ∈ new_events (started calm) overlapped ∧
  threads overlapped = [InRealtimeLoop 3] ∧
  objects overlapped !! 3 =
    Some (RealtimeTranscriber
            {| LongFormTranscriber.text_buffer := "";
               LongFormTranscriber.running := true;
               LongFormTranscriber.recorder := Some 4;
               LongFormTranscriber.model_initialized := true |}) ∧
  new_events overlapped (step calm (WorkerStep 0) overlapped) =
    [Call (RecorderMethod 4 "text"); Print (newline +:+ "Transcription: hello")] ∧
  at_work overlapped = ["realtime"; "longform"].
Proof.
  split_and!.
  - apply reachable_exec, started_reachable. vm_compute. reflexivity.
  - vm_compute. reflexivity.
  - vm_compute. reflexivity.
  - vm_compute. reflexivity.
  - assert (H : drop 21 (new_events (started calm) overlapped) =
                [Call (Method 2 "start_recording"); Call (SocketClose "client")])
      by (vm_compute; reflexivity).
    rewrite <- (take_drop 21 (new_events (started calm) overlapped)), H.
    apply elem_of_app. right. apply elem_of_cons. by left.
  - vm_compute. reflexivity.
  - vm_compute. reflexivity.
  - vm_compute. reflexivity.
  - vm_compute. reflexivity.
Qed.
